(** * The data wrangler of [src/data_processing/wrangler.py]

    A shallow embedding of [DataWrangler] (ingestion, row filtering, price
    normalisation, outlier trimming, persistence) together with the pandas,
    numpy and os operations it calls, and the properties of the pipeline.

    Numbers.  Python floats are modelled as exact rationals plus the
    not-a-number value: arithmetic is exact, so statements that hold "up to
    rounding" in binary64 hold exactly here.  Infinities are not modelled.
    Where the last bit of a product, of a rank or of an interpolation, an
    infinite price or the conversion of a large integer matters, the
    statements carry the precondition or the slack with which they hold in
    binary64 as well, and [binary64] gives the computation on IEEE 754
    numbers.  *)

From stdpp Require Import gmap strings list fin_maps numbers sorting.
From Stdlib Require Import QArith Qcanon Qround Lqa.
From Stdlib Require Floats.

Local Open Scope string_scope.
Local Open Scope list_scope.
Local Open Scope Qc_scope.

(** ** Values *)

Inductive float : Type :=
  | Fin (q : Qc)
  | NaN.

(** A cell of a frame.  [read_csv] stores a missing cell as the float NaN,
    whatever the column; [VNone] is Python's [None], which only a function
    applied to the rows can put into a column. *)
Inductive value : Type :=
  | VStr (s : string)
  | VNum (x : float)
  | VNone.

Global Instance float_eq_dec : EqDecision float.
Proof. solve_decision. Defined.

Global Instance value_eq_dec : EqDecision value.
Proof. solve_decision. Defined.

(** [a * b], [a >= b], [a <= b] and [a == b] on floats: NaN propagates
    through arithmetic and every comparison with NaN is false. *)
Definition fmul (a b : float) : float :=
  match a, b with
  | Fin x, Fin y => Fin (x * y)
  | _, _ => NaN
  end.

Definition fle (a b : float) : bool :=
  match a, b with
  | Fin x, Fin y => bool_decide (x ≤ y)
  | _, _ => false
  end.

Definition fge (a b : float) : bool := fle b a.

Definition feqb (a b : float) : bool :=
  match a, b with
  | Fin x, Fin y => bool_decide (x = y)
  | _, _ => false
  end.

(** [pandas.isna] on a scalar. *)
Definition isna (v : value) : bool :=
  match v with
  | VNum NaN | VNone => true
  | _ => false
  end.

(** ** Exceptions *)

Inductive exn : Type :=
  | KeyError (keys : list string)
  | TypeError
  | ValueError
  | IndexError
  | FileNotFoundError (path : string)
  | AttributeError
  | BadZipFile (path : string)
  | OSError (path : string).

Inductive Result (A : Type) : Type :=
  | Ok (a : A)
  | Raise (e : exn).
Global Arguments Ok {A} a.
Global Arguments Raise {A} e.

Global Instance Result_ret : MRet Result := λ A a, Ok a.
Global Instance Result_bind : MBind Result := λ A B f m,
  match m with
  | Ok a => f a
  | Raise e => Raise e
  end.
Global Instance Result_fmap : FMap Result := λ A B f m,
  match m with
  | Ok a => Ok (f a)
  | Raise e => Raise e
  end.

Global Instance exn_eq_dec : EqDecision exn.
Proof. solve_decision. Defined.

Global Instance Result_eq_dec `{EqDecision A} : EqDecision (Result A).
Proof. solve_decision. Defined.

(** ** Frames *)

(** A row carries its index label and its cells by column name. *)
Record Row : Type := mkRow {
  label : value;
  cells : gmap string value;
}.

Record DataFrame : Type := mkDF {
  columns : list string;
  rows : list Row;
}.

Global Instance Row_eq_dec : EqDecision Row.
Proof. solve_decision. Defined.

Global Instance DataFrame_eq_dec : EqDecision DataFrame.
Proof. solve_decision. Defined.

Module pd.

(** The labels of [subset] that are not columns of [df]. *)
Definition missing_columns (df : DataFrame) (subset : list string) : list string :=
  filter (λ c, c ∉ columns df) subset.

(** [default_index(n)]: the labels [0 .. n-1]. *)
Definition default_index (rs : list Row) : list Row :=
  imap (λ i r, mkRow (VNum (Fin (Qc_of_Z (Z.of_nat i)))) (cells r)) rs.

(** [df[c]]: the column as a list of values, [KeyError] when absent. *)
Definition getitem (df : DataFrame) (c : string) : Result (list value) :=
  if decide (c ∈ columns df)
  then Ok ((λ r, default (VNum NaN) (cells r !! c)) <$> rows df)
  else Raise (KeyError [c]).

(** [df[cols]] with a list of labels. *)
Definition getitem_list (df : DataFrame) (cols : list string) : Result DataFrame :=
  match missing_columns df cols with
  | [] => Ok (mkDF cols
               ((λ r, mkRow (label r) (filter (λ kv, kv.1 ∈ cols) (cells r))) <$> rows df))
  | ks => Raise (KeyError ks)
  end.

(** [series.isin(values)]. *)
Definition isin (s : list value) (values : list value) : list bool :=
  (λ v, bool_decide (v ∈ values)) <$> s.

(** [df[mask]] with a boolean mask on the same index: positional. *)
Fixpoint select {A} (l : list A) (mask : list bool) : list A :=
  match l, mask with
  | x :: l, b :: mask => if b then x :: select l mask else select l mask
  | _, _ => []
  end.

Definition getitem_mask (df : DataFrame) (mask : list bool) : DataFrame :=
  mkDF (columns df) (select (rows df) mask).

(** The cells of a row under the labels of [subset], in that order. *)
Definition cells_key (subset : list string) (m : gmap string value) : list (option value) :=
  (λ c, m !! c) <$> subset.

Definition row_key (subset : list string) (r : Row) : list (option value) :=
  cells_key subset (cells r).

(** [df.dropna(subset=subset, how='any', ignore_index=True)]. *)
Definition cells_have_na (subset : list string) (m : gmap string value) : bool :=
  existsb (λ c, isna (default (VNum NaN) (m !! c))) subset.

Definition has_na (subset : list string) (r : Row) : bool :=
  cells_have_na subset (cells r).

Definition dropna (subset : list string) (df : DataFrame) : Result DataFrame :=
  match missing_columns df subset with
  | [] => Ok (mkDF (columns df)
               (default_index (filter (λ r, has_na subset r = false) (rows df))))
  | ks => Raise (KeyError ks)
  end.

(** [duplicated(keep='first')] on the keys of the rows: a row is marked
    when an earlier row has its key. *)
Fixpoint duplicated {A K} `{EqDecision K} (key : A → K) (seen : list K)
    (l : list A) : list bool :=
  match l with
  | [] => []
  | x :: l => bool_decide (key x ∈ seen) :: duplicated key (key x :: seen) l
  end.

(** [l[~duplicated]]: the first occurrence of every key. *)
Definition keep_first {A K} `{EqDecision K} (key : A → K) (seen : list K)
    (l : list A) : list A :=
  select l (negb <$> duplicated key seen l).

(** [df.drop_duplicates(subset=subset, keep='first', ignore_index=ign)];
    [subset = None] stands for all columns.  A frame with an empty axis
    ([df.empty]) is returned as it is, before [subset] is looked at; an
    empty [subset] on any other frame makes [duplicated] raise
    [ValueError]. *)
Definition drop_duplicates (subset : option (list string)) (ignore_index : bool)
    (df : DataFrame) : Result DataFrame :=
  if bool_decide (rows df = []) || bool_decide (columns df = []) then Ok df
  else
    let subset := default (columns df) subset in
    match missing_columns df subset with
    | [] =>
        if bool_decide (subset = []) then Raise ValueError
        else
          let kept := keep_first (row_key subset) [] (rows df) in
          Ok (mkDF (columns df) (if ignore_index then default_index kept else kept))
    | ks => Raise (KeyError ks)
    end.

(** [df.drop(columns=cols)]. *)
Definition drop (cols : list string) (df : DataFrame) : Result DataFrame :=
  match missing_columns df cols with
  | [] => Ok (mkDF (filter (λ c, c ∉ cols) (columns df))
               ((λ r, mkRow (label r) (filter (λ kv, kv.1 ∉ cols) (cells r))) <$> rows df))
  | ks => Raise (KeyError ks)
  end.

(** [df[c] = series] with a series on the index of [df]: an existing
    column is replaced in place, a new one is appended. *)
Definition setitem (df : DataFrame) (c : string) (s : list value) : DataFrame :=
  mkDF (if decide (c ∈ columns df) then columns df else columns df ++ [c])
       (zip_with (λ r v, mkRow (label r) (<[c := v]> (cells r))) (rows df) s).

(** [pd.concat(frames)]: the union of the columns in order of first
    appearance, the rows of the frames one after the other, a cell that a
    frame does not have filled with NaN.  No frames: [ValueError]. *)
Definition union_columns (frames : list DataFrame) : list string :=
  foldl (λ acc df, acc ++ filter (λ c, c ∉ acc) (columns df)) [] frames.

Definition reindex_row (cols : list string) (r : Row) : Row :=
  mkRow (label r)
        (list_to_map ((λ c, (c, default (VNum NaN) (cells r !! c))) <$> cols)).

Definition concat (frames : list DataFrame) : Result DataFrame :=
  match frames with
  | [] => Raise ValueError
  | _ =>
      let cols := union_columns frames in
      Ok (mkDF cols (mjoin ((λ df, reindex_row cols <$> rows df) <$> frames)))
  end.

End pd.

Module np.

Definition as_float (v : value) : option float :=
  match v with
  | VNum x => Some x
  | _ => None
  end.

Definition finite (x : float) : option Qc :=
  match x with
  | Fin q => Some q
  | NaN => None
  end.

(** The value at the fractional rank [h] of the ascending sample [s]:
    linear interpolation between the two closest ranks. *)
Definition lerp (s : list Qc) (h : Qc) : Qc :=
  let i := Z.to_nat (Qfloor h) in
  let g := h - Qc_of_Z (Qfloor h) in
  let lo := default 0 (s !! i) in
  let hi := default 0 (s !! Nat.min (i + 1) (length s - 1)) in
  lo + (hi - lo) * g.

(** [np.percentile(a, q)], method 'linear'.  [q] outside [0, 100] is a
    [ValueError]; the empty sample has no last element ([IndexError]); an
    object array (strings, [None]) cannot be subtracted ([TypeError]); a
    sample with a NaN has percentile NaN. *)
Definition percentile (a : list value) (q : Qc) : Result float :=
  if bool_decide (0 ≤ q ∧ q ≤ Qc_of_Z 100) then
    match a with
    | [] => Raise IndexError
    | _ =>
        match mapM as_float a with
        | None => Raise TypeError
        | Some xs =>
            match mapM finite xs with
            | None => Ok NaN
            | Some qs =>
                let s := merge_sort Qcle qs in
                Ok (Fin (lerp s (Qc_of_Z (Z.of_nat (length s - 1)) * (q / Qc_of_Z 100))))
            end
        end
    end
  else Raise ValueError.

End np.

(** ** Configuration

    [data_conf] is composed from [config/data.yaml], which is not part of
    the sources: the functions take it as a parameter. *)
Record DataConf : Type := mkConf {
  keep_columns : list string;
  drop_rows_countries : list value;
  drop_rows_nan : list string;
  drop_rows_duplicates : list string;
  outliers_percentile_price_lower : Qc;
  outliers_percentile_price_upper : Qc;
}.

(** ** The row-wise stages *)

(** The table of [_convert_to_usd]: average exchange rates to USD for 2020. *)
Definition currency_dict : gmap string float :=
  <["USD" := Fin 1]> (<["PEN" := Fin (Q2Qc 0.2863)]> (<["ARS" := Fin (Q2Qc 0.0143)]>
  (<["UYU" := Fin (Q2Qc 0.0239)]> (<["COP" := Fin (Q2Qc 0.00027)]> ∅)))).

(** [_convert_to_usd(amount, currency_code)].  A code outside the table
    falls off the end of the function, which returns [None]; the product is
    only taken inside the [if], and only a number can be multiplied. *)
Definition _convert_to_usd (amount : value) (currency_code : value)
    : Result (option float) :=
  match currency_code with
  | VStr code =>
      match currency_dict !! code with
      | Some rate =>
          match amount with
          | VNum a => Ok (Some (fmul a rate))
          | _ => Raise TypeError
          end
      | None => Ok None
      end
  | _ => Ok None
  end.

(** What [df.apply(f, axis=1, result_type="expand")] returns: a series of
    the scalars, or, when an axis of [df] is empty, a copy of [df]. *)
Inductive applied : Type :=
  | ASeries (s : list value)
  | AFrame (df : DataFrame).

(** The series built from the scalars of the rows: float64 with [None] read
    as NaN when some scalar is a number, the [None]s themselves otherwise. *)
Definition series_of_scalars (l : list (option float)) : list value :=
  if forallb (λ o, bool_decide (o = None)) l
  then (λ _, VNone) <$> l
  else (λ o, VNum (default NaN o)) <$> l.

Definition row_getitem (x : Row) (c : string) : Result value :=
  match cells x !! c with
  | Some v => Ok v
  | None => Raise (KeyError [c])
  end.

Definition df_apply (f : Row → Result (option float)) (df : DataFrame)
    : Result applied :=
  if bool_decide (rows df = []) || bool_decide (columns df = [])
  then Ok (AFrame df)
  else l ← mapM f (rows df); Ok (ASeries (series_of_scalars l)).

(** [df[c] = v]: a frame can only be assigned when it has one column. *)
Definition df_setitem (df : DataFrame) (c : string) (v : applied) : Result DataFrame :=
  match v with
  | ASeries s => Ok (pd.setitem df c s)
  | AFrame v =>
      match columns v with
      | [c'] => s ← pd.getitem v c'; Ok (pd.setitem df c s)
      | _ => Raise ValueError
      end
  end.

(** The function that line 135 applies to every row:
    [lambda x: self._convert_to_usd(x["price"], x["currency"])]. *)
Definition price_usd_of_row (x : Row) : Result (option float) :=
  amount ← row_getitem x "price";
  currency ← row_getitem x "currency";
  _convert_to_usd amount currency.

(** [series >= x] and [series <= x]. *)
Definition series_cmp (cmp : float → float → bool) (s : list value) (x : float)
    : Result (list bool) :=
  mapM (λ v, match v with VNum a => Ok (cmp a x) | _ => Raise TypeError end) s.

Section stages.

Variable data_conf : DataConf.

(** [_drop_rows]: countries, then missing values, then duplicates. *)
Definition _drop_rows (df : DataFrame) : Result DataFrame :=
  l1 ← pd.getitem df "l1";
  let df := pd.getitem_mask df (negb <$> pd.isin l1 (drop_rows_countries data_conf)) in
  df ← pd.dropna (drop_rows_nan data_conf) df;
  df ← pd.drop_duplicates (Some (drop_rows_duplicates data_conf)) true df;
  Ok df.

(** Lines 134-138 of [_convert_price_to_usd]: the column [price_usd] is
    computed row by row, then [price] and [currency] are dropped. *)
Definition standardize_currency (df : DataFrame) : Result DataFrame :=
  price_usd ← df_apply price_usd_of_row df;
  df ← df_setitem df "price_usd" price_usd;
  pd.drop ["price"; "currency"] df.

(** Lines 140-143: the two masks and the selection. *)
Definition price_masks (df : DataFrame) : Result (list bool * list bool) :=
  s ← pd.getitem df "price_usd";
  lo ← np.percentile s (outliers_percentile_price_lower data_conf);
  mask_price_low ← series_cmp fge s lo;
  s ← pd.getitem df "price_usd";
  hi ← np.percentile s (outliers_percentile_price_upper data_conf);
  mask_price_high ← series_cmp fle s hi;
  Ok (mask_price_low, mask_price_high).

Definition drop_outlier_prices (df : DataFrame) : Result DataFrame :=
  m ← price_masks df;
  Ok (pd.getitem_mask df (zip_with andb m.1 m.2)).

Definition _convert_price_to_usd (df : DataFrame) : Result DataFrame :=
  df ← standardize_currency df;
  drop_outlier_prices df.

End stages.

(** ** Files *)

(** A parsed comma-delimited text: the header and the records. *)
Record Table : Type := mkTable {
  header : list string;
  records : list (gmap string value);
}.

Inductive file : Type :=
  | ZipCsv (t : Table)
  | Csv (t : Table)
  | Blob.

Record FS : Type := mkFS {
  files : gmap string file;
  dirs : gset string;
}.

Global Instance Table_eq_dec : EqDecision Table.
Proof. solve_decision. Defined.

Global Instance file_eq_dec : EqDecision file.
Proof. solve_decision. Defined.

Global Instance FS_eq_dec : EqDecision FS.
Proof. solve_decision. Defined.

(** What the pipeline asks of [os]: [os.path.dirname], the directories
    after [os.makedirs(d, exist_ok=True)] (or its error), and whether a path
    can be opened for writing. *)
Class OS : Type := {
  os_path_dirname : string → string;
  os_makedirs : FS → string → Result (gset string);
  os_writable : FS → string → bool;
}.

Definition os_path_exists (fs : FS) (path : string) : bool :=
  bool_decide (is_Some (files fs !! path)) || bool_decide (path ∈ dirs fs).

(** A keyword argument of a call. *)
Inductive pyarg : Type :=
  | AStr (s : string)
  | ABool (b : bool).

(** The keyword parameters of [pandas.read_csv]; it takes no [**kwargs]. *)
Definition read_csv_parameters : list string :=
  ["sep"; "delimiter"; "header"; "names"; "index_col"; "usecols"; "dtype";
   "engine"; "converters"; "true_values"; "false_values"; "skipinitialspace";
   "skiprows"; "skipfooter"; "nrows"; "na_values"; "keep_default_na";
   "na_filter"; "verbose"; "skip_blank_lines"; "parse_dates";
   "infer_datetime_format"; "keep_date_col"; "date_parser"; "date_format";
   "dayfirst"; "cache_dates"; "iterator"; "chunksize"; "compression";
   "thousands"; "decimal"; "lineterminator"; "quotechar"; "quoting";
   "doublequote"; "escapechar"; "comment"; "encoding"; "encoding_errors";
   "dialect"; "on_bad_lines"; "delim_whitespace"; "low_memory"; "memory_map";
   "float_precision"; "storage_options"; "dtype_backend"].

Definition kwarg (kwargs : list (string * pyarg)) (name : string) : option pyarg :=
  (list_to_map kwargs : gmap string pyarg) !! name.

(** The frame of a table whose column [c] becomes the index. *)
Definition set_index (c : string) (t : Table) : DataFrame :=
  mkDF (filter (λ h, h ≠ c) (header t))
       ((λ r, mkRow (default (VNum NaN) (r !! c)) (delete c r)) <$> records t).

Definition range_index (t : Table) : DataFrame :=
  mkDF (header t) (pd.default_index (mkRow VNone <$> records t)).

(** [pd.read_csv(path, **kwargs)].  A keyword that is not a parameter is a
    [TypeError] of the call itself.  With [compression='zip'] the file must
    be an archive; otherwise it is read as plain text. *)
Definition read_csv (fs : FS) (path : string) (kwargs : list (string * pyarg))
    : Result DataFrame :=
  match filter (λ kv, kv.1 ∉ read_csv_parameters) kwargs with
  | _ :: _ => Raise TypeError
  | [] =>
      match files fs !! path with
      | None => Raise (FileNotFoundError path)
      | Some f =>
          t ← match kwarg kwargs "compression", f with
              | Some (AStr "zip"), ZipCsv t => Ok t
              | Some (AStr "zip"), _ => Raise (BadZipFile path)
              | _, Csv t => Ok t
              | _, _ => Raise ValueError
              end;
          match kwarg kwargs "index_col" with
          | Some (AStr c) =>
              if decide (c ∈ header t) then Ok (set_index c t) else Raise ValueError
          | _ => Ok (range_index t)
          end
      end
  end.

(** [df.to_csv(path, index=False)]: the columns and the cells, no labels. *)
Definition to_csv `{OS} (df : DataFrame) (path : string) (fs : FS) : Result FS :=
  if os_writable fs path
  then Ok (mkFS (<[path := Csv (mkTable (columns df) (cells <$> rows df))]> (files fs))
                (dirs fs))
  else Raise (OSError path).

(** ** The class *)

Record DataWrangler : Type := mkDataWrangler {
  raw_data_path : list string;
  processed_data_path : string;
  df : option DataFrame;
}.

Global Instance DataWrangler_eq_dec : EqDecision DataWrangler.
Proof. solve_decision. Defined.

(** A method runs on the object and the file system; an exception leaves
    both as they were when it was raised. *)
Definition M (A : Type) : Type := DataWrangler * FS → Result A * (DataWrangler * FS).

Global Instance M_ret : MRet M := λ A a w, (Ok a, w).
Global Instance M_bind : MBind M := λ A B f m w,
  match m w with
  | (Ok a, w') => f a w'
  | (Raise e, w') => (Raise e, w')
  end.

Definition get_self : M DataWrangler := λ w, (Ok w.1, w).
Definition get_fs : M FS := λ w, (Ok w.2, w).
Definition set_df (d : option DataFrame) : M () := λ w,
  (Ok (), (mkDataWrangler (raw_data_path w.1) (processed_data_path w.1) d, w.2)).
Definition set_fs (fs : FS) : M () := λ w, (Ok (), (w.1, fs)).
Definition lift {A} (r : Result A) : M A := λ w, (r, w).

Section DataWrangler.

Context `{OS}.
Variable data_conf : DataConf.

(** The read of [__post_init__] passes [index=False], a keyword of
    [to_csv]. *)
Definition __post_init__ : M () :=
  self ← get_self;
  fs ← get_fs;
  if os_path_exists fs (processed_data_path self) then
    d ← lift (read_csv fs (processed_data_path self) [("index", ABool false)]);
    set_df (Some d)
  else set_df None.

(** The body of the comprehension of [ingest_data]. *)
Definition read_raw_file (fs : FS) (file_path : string) : Result DataFrame :=
  read_csv fs file_path
    [("compression", AStr "zip"); ("low_memory", ABool false); ("index_col", AStr "id")].

Definition ingest_data : M DataFrame :=
  self ← get_self;
  fs ← get_fs;
  frames ← lift (mapM (read_raw_file fs) (raw_data_path self));
  d ← lift (pd.concat frames);
  lift (pd.drop_duplicates None false d).

Definition clean_data (d : DataFrame) : M DataFrame :=
  d ← lift (pd.getitem_list d (keep_columns data_conf));
  d ← lift (_drop_rows data_conf d);
  d ← lift (_convert_price_to_usd data_conf d);
  set_df (Some d);;
  mret d.

Definition save_data (arg : option DataFrame) : M () :=
  self ← get_self;
  let d := match arg with None => df self | Some d => Some d end in
  fs ← get_fs;
  ds ← lift (os_makedirs fs (os_path_dirname (processed_data_path self)));
  set_fs (mkFS (files fs) ds);;
  match d with
  | None => lift (Raise AttributeError)
  | Some d =>
      fs ← get_fs;
      fs ← lift (to_csv d (processed_data_path self) fs);
      set_fs fs
  end.

Definition wrangle_data : M DataFrame :=
  d ← ingest_data;
  d ← clean_data d;
  set_df (Some d);;
  save_data None;;
  mret d.

Definition load_data (use_exist : bool) : M DataFrame :=
  if use_exist then
    self ← get_self;
    match df self with
    | Some d => mret d
    | None => wrangle_data
    end
  else wrangle_data.

(** [DataWrangler(raw_data_path, processed_data_path)]. *)
Definition new (raw : list string) (processed : string) (fs : FS)
    : Result () * (DataWrangler * FS) :=
  __post_init__ (mkDataWrangler raw processed None, fs).

End DataWrangler.

(** ** Sample data

    A configuration in the shape of [config/data.yaml] and small frames on
    which the stages are evaluated. *)

Definition num (q : Q) : value := VNum (Fin (Q2Qc q)).

Definition listing (id : Z) (l1 : string) (lat lon price : value) (currency : value)
    : Row :=
  mkRow (num (inject_Z id))
        (list_to_map [("l1", VStr l1); ("lat", lat); ("lon", lon);
                      ("price", price); ("currency", currency)]).

Definition sample_conf : DataConf :=
  mkConf ["l1"; "lat"; "lon"; "price"; "currency"]
         [VStr "Estados Unidos"] ["lat"; "lon"] ["lat"; "lon"]
         (Q2Qc 0) (Qc_of_Z 100).

Definition sample_columns : list string := ["l1"; "lat"; "lon"; "price"; "currency"].

(** Three listings in three currencies of the table. *)
Definition sample_frame : DataFrame :=
  mkDF sample_columns
       [listing 11 "Peru" (num 1) (num 1) (num 100) (VStr "PEN");
        listing 12 "Argentina" (num 2) (num 2) (num 200) (VStr "USD");
        listing 13 "Uruguay" (num 3) (num 3) (num 1000) (VStr "UYU")].

Definition priced (label : value) (l1 : string) (lat lon price_usd : value) : Row :=
  mkRow label
        (list_to_map [("l1", VStr l1); ("lat", lat); ("lon", lon); ("price_usd", price_usd)]).

Definition priced_columns : list string := ["l1"; "lat"; "lon"; "price_usd"].

(** [sample_frame] after lines 134-138, and after [clean_data] under
    [sample_conf] (the labels are renumbered by the row filter). *)
Definition sample_normalized : DataFrame :=
  mkDF priced_columns
       [priced (num 11) "Peru" (num 1) (num 1) (num 28.63);
        priced (num 12) "Argentina" (num 2) (num 2) (num 200);
        priced (num 13) "Uruguay" (num 3) (num 3) (num 23.9)].

Definition sample_cleaned : DataFrame :=
  mkDF priced_columns
       [priced (num 0) "Peru" (num 1) (num 1) (num 28.63);
        priced (num 1) "Argentina" (num 2) (num 2) (num 200);
        priced (num 2) "Uruguay" (num 3) (num 3) (num 23.9)].

Definition sample_self : DataWrangler :=
  mkDataWrangler ["raw/a.zip"; "raw/b.zip"] "out/data.csv" None.

Definition empty_fs : FS := mkFS ∅ ∅.

(** ** The row filter in the words of the specification *)

(** The records of a frame: the cells of its rows, without the labels. *)
Definition records_of (df : DataFrame) : list (gmap string value) := cells <$> rows df.

(** A record of an excluded category. *)
Definition excluded (data_conf : DataConf) (m : gmap string value) : bool :=
  bool_decide (default (VNum NaN) (m !! "l1") ∈ drop_rows_countries data_conf).

(** The category rule and the missing-value rule in the other order. *)
Definition _drop_rows_nan_first (data_conf : DataConf) (df : DataFrame)
    : Result DataFrame :=
  df ← pd.dropna (drop_rows_nan data_conf) df;
  l1 ← pd.getitem df "l1";
  let df := pd.getitem_mask df (negb <$> pd.isin l1 (drop_rows_countries data_conf)) in
  df ← pd.drop_duplicates (Some (drop_rows_duplicates data_conf)) true df;
  Ok df.

(** The three criteria, each evaluated on the frame before any filtering,
    and the records that pass all three. *)
Definition independent_criteria (data_conf : DataConf) (df : DataFrame)
    : list (gmap string value) :=
  let not_excluded := (λ r, negb (excluded data_conf (cells r))) <$> rows df in
  let complete := (λ r, negb (pd.has_na (drop_rows_nan data_conf) r)) <$> rows df in
  let first :=
    negb <$> pd.duplicated (pd.row_key (drop_rows_duplicates data_conf)) [] (rows df) in
  cells <$> pd.select (rows df)
              (zip_with andb not_excluded (zip_with andb complete first)).

(** Two listings at the same place; the first one is of an excluded
    country. *)
Definition shadowed_frame : DataFrame :=
  mkDF sample_columns
       [listing 21 "Estados Unidos" (num 1) (num 1) (num 100) (VStr "USD");
        listing 22 "Peru" (num 1) (num 1) (num 200) (VStr "PEN")].

Definition shadowed_filtered : DataFrame :=
  mkDF sample_columns [listing 0 "Peru" (num 1) (num 1) (num 200) (VStr "PEN")].

(** ** Sample files *)

Definition record (id : Z) (l1 : string) (price : Q) (extra : list (string * value))
    : gmap string value :=
  list_to_map ([("id", num (inject_Z id)); ("l1", VStr l1); ("price", num price)] ++ extra).

(** Two archives with different headers: the second listing of the first
    repeats the first one, and the first listing of the second is the last
    of the first. *)
Definition sample_fs : FS :=
  mkFS (<["raw/a.zip" := ZipCsv (mkTable ["id"; "l1"; "price"]
            [record 1 "Peru" 100 []; record 2 "Peru" 100 []; record 3 "Chile" 5 []])]>
        (<["raw/b.zip" := ZipCsv (mkTable ["id"; "l1"; "price"; "currency"]
            [record 3 "Chile" 5 [("currency", VNum NaN)];
             record 4 "Peru" 100 [("currency", VStr "PEN")]])]> ∅))
       ∅.

Definition ingested (id : Z) (l1 : string) (price : Q) (currency : value) : Row :=
  mkRow (num (inject_Z id))
        (list_to_map [("l1", VStr l1); ("price", num price); ("currency", currency)]).

Definition sample_ingested : DataFrame :=
  mkDF ["l1"; "price"; "currency"]
       [ingested 1 "Peru" 100 (VNum NaN); ingested 3 "Chile" 5 (VNum NaN);
        ingested 4 "Peru" 100 (VStr "PEN")].

(** Two archives that hold the identifier column only, with the same
    identifier. *)
Definition bare_fs : FS :=
  mkFS (<["raw/a.zip" := ZipCsv (mkTable ["id"] [{["id" := num 1]}])]>
        (<["raw/b.zip" := ZipCsv (mkTable ["id"] [{["id" := num 1]}])]> ∅))
       ∅.

Definition bare_ingested : DataFrame :=
  mkDF [] [mkRow (num 1) ∅; mkRow (num 1) ∅].

(** ** The outlier band on a row *)

(** The normalised price of a row, NaN when the cell is not a number. *)
Definition price_usd_of (r : Row) : float :=
  match cells r !! "price_usd" with
  | Some (VNum x) => x
  | _ => NaN
  end.

(** [mask_price_low & mask_price_high] for a price. *)
Definition in_band (lo hi x : float) : bool := fge x lo && fle x hi.

(** A listing in a currency that the table does not have, after one that
    it has; the frame after lines 134-138 and after the whole of
    [_convert_price_to_usd]. *)
Definition unknown_frame : DataFrame :=
  mkDF sample_columns
       [listing 31 "Peru" (num 1) (num 1) (num 100) (VStr "PEN");
        listing 32 "Peru" (num 2) (num 2) (num 300) (VStr "EUR")].

Definition unknown_normalized : DataFrame :=
  mkDF priced_columns
       [priced (num 31) "Peru" (num 1) (num 1) (num 28.63);
        priced (num 32) "Peru" (num 2) (num 2) (VNum NaN)].

Definition no_rows : DataFrame := mkDF priced_columns [].

(** A band from the median up. *)
Definition median_conf : DataConf :=
  mkConf sample_columns [] [] ["lat"; "lon"] (Qc_of_Z 50) (Qc_of_Z 100).

Definition sample_upper_half : DataFrame :=
  mkDF priced_columns
       [priced (num 11) "Peru" (num 1) (num 1) (num 28.63);
        priced (num 12) "Argentina" (num 2) (num 2) (num 200)].

(** ** A run from files to file

    An [os] in which every directory can be made and every path written,
    and the scenario of two archives with 5 and 3 listings: one listing is
    in both archives, one is of an excluded country, one has no latitude and
    one is at the place of an earlier one. *)

Definition sample_os : OS :=
  {| os_path_dirname := λ _, "out";
     os_makedirs := λ fs d, Ok ({[d]} ∪ dirs fs);
     os_writable := λ _ _, true |}.

Definition raw_listing (id : Z) (l1 : string) (lat lon price : value) (currency : string)
    : gmap string value :=
  list_to_map [("id", num (inject_Z id)); ("l1", VStr l1); ("lat", lat); ("lon", lon);
               ("price", price); ("currency", VStr currency)].

Definition raw_header : list string := ["id"; "l1"; "lat"; "lon"; "price"; "currency"].

Definition scenario_fs : FS :=
  mkFS (<["raw/a.zip" := ZipCsv (mkTable raw_header
            [raw_listing 1 "Peru" (num 1) (num 1) (num 100) "PEN";
             raw_listing 2 "Peru" (num 2) (num 2) (num 200) "USD";
             raw_listing 3 "Estados Unidos" (num 3) (num 3) (num 300) "USD";
             raw_listing 4 "Peru" (VNum NaN) (num 4) (num 400) "PEN";
             raw_listing 5 "Peru" (num 5) (num 5) (num 500) "USD"])]>
        (<["raw/b.zip" := ZipCsv (mkTable raw_header
            [raw_listing 5 "Peru" (num 5) (num 5) (num 500) "USD";
             raw_listing 6 "Peru" (num 1) (num 1) (num 150) "PEN";
             raw_listing 7 "Argentina" (num 7) (num 7) (num 700) "USD"])]> ∅))
       ∅.

Definition scenario_cleaned : DataFrame :=
  mkDF priced_columns
       [priced (num 0) "Peru" (num 1) (num 1) (num 28.63);
        priced (num 1) "Peru" (num 2) (num 2) (num 200);
        priced (num 2) "Peru" (num 5) (num 5) (num 500);
        priced (num 3) "Argentina" (num 7) (num 7) (num 700)].

Definition scenario_written : FS :=
  mkFS (<["out/data.csv" := Csv (mkTable (columns scenario_cleaned)
                                  (cells <$> rows scenario_cleaned))]>
          (files scenario_fs))
       {["out"]}.

(** ** The conversion in binary64

    The same table and the same product on IEEE 754 binary64 numbers, the
    floats of Python, to read the result of a conversion up to rounding. *)

Module binary64.

Import Floats.
Local Set Warnings "-inexact-float".

Definition currency_dict : gmap string PrimFloat.float :=
  <["USD" := 1%float]> (<["PEN" := 0.2863%float]> (<["ARS" := 0.0143%float]>
  (<["UYU" := 0.0239%float]> (<["COP" := 0.00027%float]> ∅)))).

Definition _convert_to_usd (amount : PrimFloat.float) (currency_code : string)
    : option PrimFloat.float :=
  match currency_dict !! currency_code with
  | Some rate => Some (PrimFloat.mul amount rate)
  | None => None
  end.

(** [abs(x - y) <= tol]. *)
Definition close_to (x y tol : PrimFloat.float) : bool :=
  PrimFloat.leb (PrimFloat.abs (PrimFloat.sub x y)) tol.

Definition amount_100 : PrimFloat.float := 100%float.
Definition usd_28_63 : PrimFloat.float := 28.63%float.
Definition tolerance : PrimFloat.float := 1e-12%float.

(** [np.percentile(a, q)], method 'linear', as numpy computes it on
    binary64 numbers: the fractional rank [(n - 1) * (q / 100)], the two
    closest elements of the sorted sample, and the interpolation of
    [_lerp], which goes down from the upper element from one half on.  At
    the last rank both elements are the last one.  The infinities and the
    rounding of every operation are those of IEEE 754. *)
Definition is_nan (x : PrimFloat.float) : bool := negb (PrimFloat.eqb x x).

Fixpoint insert (x : PrimFloat.float) (l : list PrimFloat.float)
    : list PrimFloat.float :=
  match l with
  | [] => [x]
  | y :: l' => if PrimFloat.leb x y then x :: l else y :: insert x l'
  end.

Definition sort (l : list PrimFloat.float) : list PrimFloat.float :=
  foldr insert [] l.

(** [np.floor] of a rank, as an index. *)
Definition floor (h : PrimFloat.float) : nat :=
  match Prim2SF h with
  | S754_finite false m e => Z.to_nat (Z.shiftl (Zpos m) e)
  | _ => 0%nat
  end.

Definition of_nat (n : nat) : PrimFloat.float :=
  PrimFloat.of_uint63 (Uint63.of_Z (Z.of_nat n)).

Definition _lerp (a b t : PrimFloat.float) : PrimFloat.float :=
  let diff_b_a := PrimFloat.sub b a in
  if PrimFloat.leb 0.5%float t
  then PrimFloat.sub b (PrimFloat.mul diff_b_a (PrimFloat.sub 1%float t))
  else PrimFloat.add a (PrimFloat.mul diff_b_a t).

Definition percentile (a : list PrimFloat.float) (q : PrimFloat.float)
    : Result PrimFloat.float :=
  let quantile := PrimFloat.div q 100%float in
  if PrimFloat.leb 0%float quantile && PrimFloat.leb quantile 1%float then
    match a with
    | [] => Raise IndexError
    | _ =>
        if existsb is_nan a then Ok PrimFloat.nan
        else
          let arr := sort a in
          let n := length a in
          let virtual_index := PrimFloat.mul (of_nat (n - 1)) quantile in
          if PrimFloat.leb (of_nat (n - 1)) virtual_index then
            let last := nth (n - 1) arr PrimFloat.nan in
            Ok (_lerp last last (PrimFloat.add virtual_index 1%float))
          else
            let previous_index := floor virtual_index in
            let gamma := PrimFloat.sub virtual_index (of_nat previous_index) in
            Ok (_lerp (nth previous_index arr PrimFloat.nan)
                      (nth (previous_index + 1) arr PrimFloat.nan) gamma)
    end
  else Raise ValueError.

(** Lines 141-143 on the column of prices: the mask of the rows that are
    kept. *)
Definition price_mask (price_usd : list PrimFloat.float) (lower upper : PrimFloat.float)
    : Result (list bool) :=
  lo ← percentile price_usd lower;
  hi ← percentile price_usd upper;
  Ok ((λ x, PrimFloat.leb lo x && PrimFloat.leb x hi) <$> price_usd).

(** Two samples: a price and an infinite price; the prices 0, 1, ..., 25. *)
Definition one_and_infinity : list PrimFloat.float := [1%float; PrimFloat.infinity].
Definition zero_to_25 : list PrimFloat.float := of_nat <$> seq 0 26.
Definition percent_10 : PrimFloat.float := 10%float.
Definition percent_28 : PrimFloat.float := 28%float.
Definition percent_60 : PrimFloat.float := 60%float.
Definition percent_100 : PrimFloat.float := 100%float.
Definition just_above_7 : PrimFloat.float := 7.0000000000000009%float.

End binary64.

(** ** More sample data *)

(** [shadowed_frame] after the row filter of [median_conf], which excludes
    no country and requires no column. *)
Definition shadowed_first : DataFrame :=
  mkDF sample_columns
       [listing 0 "Estados Unidos" (num 1) (num 1) (num 100) (VStr "USD")].

(** A configuration whose key column is not a column of the samples. *)
Definition wrong_key_conf : DataConf :=
  mkConf sample_columns [VStr "Estados Unidos"] ["lat"; "lon"] ["latitude"]
         (Q2Qc 0) (Qc_of_Z 100).

(** One listing, of an excluded country. *)
Definition excluded_frame : DataFrame :=
  mkDF sample_columns
       [listing 41 "Estados Unidos" (num 1) (num 1) (num 100) (VStr "USD")].


(** Two listings in currencies that the table does not have. *)
Definition foreign_frame : DataFrame :=
  mkDF sample_columns
       [listing 51 "Peru" (num 1) (num 1) (num 100) (VStr "EUR");
        listing 52 "Peru" (num 2) (num 2) (num 300) (VStr "BRL")].


(** Configurations whose percentiles leave the range of [np.percentile]. *)
Definition below_range_conf : DataConf :=
  mkConf sample_columns [VStr "Estados Unidos"] ["lat"; "lon"] ["lat"; "lon"]
         (Qc_of_Z (-1)) (Qc_of_Z 100).

Definition above_range_conf : DataConf :=
  mkConf sample_columns [VStr "Estados Unidos"] ["lat"; "lon"] ["lat"; "lon"]
         (Q2Qc 0) (Qc_of_Z 101).


(** An object whose second path names no file. *)
Definition missing_self : DataWrangler :=
  mkDataWrangler ["raw/a.zip"; "raw/c.zip"; "raw/b.zip"] "out/data.csv" None.


(** ** The script

    Lines 168-171: the object is built, the data are wrangled whatever is
    on disk, and [info()] is called on the frame of the object. *)
Definition main `{OS} (data_conf : DataConf) (raw : list string) (processed : string)
    (fs : FS) : Result () * (DataWrangler * FS) :=
  match new raw processed fs with
  | (Ok _, w) =>
      (load_data data_conf false;;
       self ← get_self;
       match df self with
       | Some _ => mret ()
       | None => lift (Raise AttributeError)
       end) w
  | (Raise e, w) => (Raise e, w)
  end.


(** A configuration that asks for the identifier among the kept columns. *)
Definition id_conf : DataConf :=
  mkConf ("id" :: sample_columns) [VStr "Estados Unidos"] ["lat"; "lon"] ["lat"; "lon"]
         (Q2Qc 0) (Qc_of_Z 100).


(** ** Values that the merge of the frames leaves as they are

    [pd.concat] gives a numeric column that some frame lacks, or that is
    [float64] in some frame, the type [float64]: the integers of that
    column are converted, and an integer above 2^53 in magnitude is rounded.
    [pd.concat] above converts nothing; the two agree on archives without
    such integers. *)
Definition safe_integer (v : value) : bool :=
  match v with
  | VNum (Fin q) =>
      if (Qden q =? 1)%positive then (Z.abs (Qnum q) <=? 2 ^ 53)%Z else true
  | _ => true
  end.

Definition safe_table (t : Table) : bool :=
  forallb (λ m, forallb (λ kv, safe_integer kv.2) (map_to_list m)) (records t).

Definition safe_archives (fs : FS) (paths : list string) : bool :=
  forallb (λ p, match files fs !! p with
                | Some (ZipCsv t) => safe_table t
                | _ => true
                end) paths.

(** The frames read from the archives of [sample_fs]. *)
Definition sample_frames : list DataFrame :=
  [mkDF ["l1"; "price"]
     [mkRow (num 1) (delete "id" (record 1 "Peru" 100 []));
      mkRow (num 2) (delete "id" (record 2 "Peru" 100 []));
      mkRow (num 3) (delete "id" (record 3 "Chile" 5 []))];
   mkDF ["l1"; "price"; "currency"]
     [mkRow (num 3) (delete "id" (record 3 "Chile" 5 [("currency", VNum NaN)]));
      mkRow (num 4) (delete "id" (record 4 "Peru" 100 [("currency", VStr "PEN")]))]].

(** ** The band on prices that binary64 holds

    A price of this magnitude is far from the largest binary64 number, so
    that the difference of two such prices is a finite number too. *)
Definition largest_price : Qc := Qc_of_Z (2 ^ 1022).

Definition moderate (x : float) : Prop :=
  match x with
  | Fin q => - largest_price ≤ q ∧ q ≤ largest_price
  | NaN => False
  end.

(** A band whose lower percentile is above the upper one, and three
    prices. *)
Definition reversed_conf : DataConf :=
  mkConf sample_columns [] [] ["lat"; "lon"] (Qc_of_Z 100) (Q2Qc 0).

Definition three_prices : DataFrame :=
  mkDF priced_columns
       [priced (num 0) "Peru" (num 1) (num 1) (num 1);
        priced (num 1) "Peru" (num 2) (num 2) (num 2);
        priced (num 2) "Peru" (num 3) (num 3) (num 3)].


(** The whole rank below the fractional rank of the percentile [q] in a
    sorted sample of [n] numbers. *)
Definition rank (n : nat) (q : Qc) : nat :=
  Z.to_nat (Qfloor (Qc_of_Z (Z.of_nat (n - 1)) * (q / Qc_of_Z 100))%Qc).

(** * Properties *)

(** Closed equations between frames are decided by evaluation. *)
Ltac by_compute := apply (bool_decide_unpack _); vm_compute; exact I.

(** Order goals on [Qc] are read on the underlying fractions. *)
Ltac qc_to_q :=
  unfold Qcle, Qclt, Qcminus, Qcplus, Qcmult, Qcopp in *; simpl in *;
  rewrite ?Qred_correct in *.

(** ** Currency conversion *)

Lemma currency_dict_lookup (code : string) (rate : float) :
  currency_dict !! code = Some rate ↔
  (code, rate) ∈ [("USD", Fin 1); ("PEN", Fin (Q2Qc 0.2863)); ("ARS", Fin (Q2Qc 0.0143));
                  ("UYU", Fin (Q2Qc 0.0239)); ("COP", Fin (Q2Qc 0.00027))].
Proof.
  unfold currency_dict. rewrite !lookup_insert, lookup_empty.
  rewrite !elem_of_cons, elem_of_nil. split.
  - intros Hl. repeat case_decide; simplify_eq; tauto.
  - intros Hin. repeat (destruct Hin as [Hin|Hin]; [by simplify_eq|]). done.
Qed.

(** C2.  [_convert_to_usd(100, "PEN")] is 28.63, exactly in exact
    arithmetic and within 1e-12 in binary64, and for each of the five codes
    of the table (USD 1, PEN 0.2863, ARS 0.0143, UYU 0.0239, COP 0.00027)
    the result is the amount times the rate of the code. *)
Theorem convert_to_usd_table :
  _convert_to_usd (VNum (Fin (Qc_of_Z 100))) (VStr "PEN") = Ok (Some (Fin (Q2Qc 28.63))) ∧
  (∃ x, binary64._convert_to_usd binary64.amount_100 "PEN" = Some x ∧
        binary64.close_to x binary64.usd_28_63 binary64.tolerance = true) ∧
  Forall (λ cr, ∀ amount : float,
            _convert_to_usd (VNum amount) (VStr cr.1) = Ok (Some (fmul amount cr.2)))
    [("USD", Fin 1); ("PEN", Fin (Q2Qc 0.2863)); ("ARS", Fin (Q2Qc 0.0143));
     ("UYU", Fin (Q2Qc 0.0239)); ("COP", Fin (Q2Qc 0.00027))] ∧
  ∀ (code : string) (rate : float),
    currency_dict !! code = Some rate ↔
    (code, rate) ∈ [("USD", Fin 1); ("PEN", Fin (Q2Qc 0.2863)); ("ARS", Fin (Q2Qc 0.0143));
                    ("UYU", Fin (Q2Qc 0.0239)); ("COP", Fin (Q2Qc 0.00027))].
Proof.
  split; [|split; [|split]].
  - cbn. do 2 f_equal. f_equal. apply Qc_is_canon. reflexivity.
  - eexists. split; vm_compute; reflexivity.
  - repeat constructor.
  - apply currency_dict_lookup.
Qed.

Lemma convert_to_usd_outside_table (amount currency_code : value) :
  (∀ code, currency_code = VStr code → currency_dict !! code = None) →
  _convert_to_usd amount currency_code = Ok None.
Proof.
  intros Hout. unfold _convert_to_usd.
  destruct currency_code as [code| |]; try done.
  by rewrite (Hout code eq_refl).
Qed.

(** C5.  A currency code that is not a key of the table (a string outside
    it, or a missing code) gives [None]: no rate is applied, nothing is
    raised and the amount is not passed through, whatever the amount. *)
Theorem convert_to_usd_unknown_code (amount currency_code : value) :
  (∀ code, currency_code = VStr code → currency_dict !! code = None) →
  _convert_to_usd amount currency_code = Ok None.
Proof.
  intros Hout. destruct currency_code as [code| |]; try reflexivity.
  unfold _convert_to_usd. by rewrite (Hout code eq_refl).
Qed.

Lemma convert_to_usd_unknown_code_witness :
  _convert_to_usd (VNum (Fin (Qc_of_Z 100))) (VStr "EUR") = Ok None.
Proof.
  apply (convert_to_usd_unknown_code (VNum (Fin (Qc_of_Z 100))) (VStr "EUR")).
  intros code [= <-]. reflexivity.
Defined.

(** ** The constructor *)

Lemma read_csv_index_keyword (fs : FS) (path : string) :
  read_csv fs path [("index", ABool false)] = Raise TypeError.
Proof. reflexivity. Qed.

(** C8.  When the processed file exists, the constructor raises
    [TypeError] from its call of [read_csv] and leaves no object behind; an
    object that was constructed has no frame, so [load_data] never returns
    an existing artifact. *)
Theorem post_init_existing_raises (raw : list string) (processed : string) (fs : FS) :
  os_path_exists fs processed = true →
  new raw processed fs = (Raise TypeError, (mkDataWrangler raw processed None, fs)) ∧
  ∀ self fs', new raw processed fs ≠ (Ok (), (self, fs')).
Proof.
  intros Hex.
  assert (new raw processed fs
          = (Raise TypeError, (mkDataWrangler raw processed None, fs))) as Hnew.
  { unfold new, __post_init__, mbind, M_bind, get_self, get_fs. simpl.
    rewrite Hex. reflexivity. }
  split; [exact Hnew|]. intros self fs'. rewrite Hnew. discriminate.
Qed.

Lemma new_without_file (raw : list string) (processed : string) (fs : FS) :
  os_path_exists fs processed = false →
  new raw processed fs = (Ok (), (mkDataWrangler raw processed None, fs)).
Proof.
  intros Hex. unfold new, __post_init__, mbind, M_bind, get_self, get_fs. simpl.
  rewrite Hex. reflexivity.
Qed.

Lemma post_init_existing_raises_witness :
  new ["raw/a.zip"] "out/data.csv"
      (mkFS {["out/data.csv" := Csv (mkTable ["price_usd"] [])]} ∅)
  = (Raise TypeError,
     (mkDataWrangler ["raw/a.zip"] "out/data.csv" None,
      mkFS {["out/data.csv" := Csv (mkTable ["price_usd"] [])]} ∅)).
Proof.
  apply (post_init_existing_raises ["raw/a.zip"] "out/data.csv"
           (mkFS {["out/data.csv" := Csv (mkTable ["price_usd"] [])]} ∅)).
  vm_compute. reflexivity.
Defined.

(** ** Inversion of the stages *)

Lemma bind_Ok {A B} (m : Result A) (f : A → Result B) (b : B) :
  (m ≫= f) = Ok b ↔ ∃ a, m = Ok a ∧ f a = Ok b.
Proof.
  destruct m as [a|e]; simpl.
  - split; [eauto|]. by intros (a' & [= <-] & Hf).
  - split; [done|]. by intros (a' & ? & ?).
Qed.

Lemma bind_Ok_l {A B} (a : A) (f : A → Result B) : (Ok a ≫= f) = f a.
Proof. reflexivity. Qed.

Ltac inv_bind H :=
  repeat match type of H with
  | (_ ≫= _) = Ok _ =>
      let a := fresh "a" in
      let Ha := fresh "Ha" in
      apply bind_Ok in H as (a & Ha & H)
  end.

Lemma checked_columns_Ok {A} (df : DataFrame) (subset : list string) (a b : A)
    (k : list string → Result A) :
  match pd.missing_columns df subset with [] => Ok a | ks => k ks end = Ok b →
  (∀ ks, k ks ≠ Ok b) →
  a = b ∧ ∀ c, c ∈ subset → c ∈ columns df.
Proof.
  intros Heq Hk. unfold pd.missing_columns in *.
  destruct (filter _ subset) as [|c0 ks] eqn:Hmiss.
  - split; [congruence|]. intros c Hc.
    destruct (decide (c ∈ columns df)) as [|Hno]; [done|].
    assert (c ∈ filter (λ c, c ∉ columns df) subset) as Hin
      by (apply list_elem_of_filter; done).
    rewrite Hmiss in Hin. by apply elem_of_nil in Hin.
  - by apply Hk in Heq.
Qed.

Lemma missing_columns_nil (df : DataFrame) (subset : list string) :
  (∀ c, c ∈ subset → c ∈ columns df) → pd.missing_columns df subset = [].
Proof.
  unfold pd.missing_columns. induction subset as [|c subset IH]; intros Hin; [done|].
  rewrite filter_cons, decide_False.
  - apply IH. intros c' Hc'. apply Hin. by right.
  - intros Hno. apply Hno, Hin. by left.
Qed.

Lemma drop_Ok (cols : list string) (df df' : DataFrame) :
  pd.drop cols df = Ok df' →
  columns df' = filter (λ c, c ∉ cols) (columns df) ∧
  rows df' = (λ r, mkRow (label r) (filter (λ kv, kv.1 ∉ cols) (cells r))) <$> rows df ∧
  ∀ c, c ∈ cols → c ∈ columns df.
Proof.
  unfold pd.drop. intros Heq.
  apply (checked_columns_Ok _ _ _ _ (λ ks, Raise (KeyError ks))) in Heq as [<- Hin];
    [done|discriminate].
Qed.

Lemma getitem_Ok (df : DataFrame) (c : string) (s : list value) :
  pd.getitem df c = Ok s →
  c ∈ columns df ∧ s = (λ r, default (VNum NaN) (cells r !! c)) <$> rows df.
Proof. unfold pd.getitem. case_decide; naive_solver. Qed.

Lemma getitem_in (df : DataFrame) (c : string) :
  c ∈ columns df →
  pd.getitem df c = Ok ((λ r, default (VNum NaN) (cells r !! c)) <$> rows df).
Proof. intros Hc. unfold pd.getitem. by rewrite decide_True. Qed.

Lemma df_setitem_Ok (df df' : DataFrame) (c : string) (v : applied) :
  df_setitem df c v = Ok df' →
  ∃ s, df' = pd.setitem df c s ∧
       match v with
       | ASeries s' => s = s'
       | AFrame v => ∃ c', columns v = [c']
       end.
Proof.
  destruct v as [s|v]; simpl.
  - intros [= <-]. eauto.
  - destruct (columns v) as [|c' [|]] eqn:Hv; try done.
    intros Heq. inv_bind Heq. injection Heq as <-. eauto.
Qed.

Lemma standardize_currency_Ok (df df' : DataFrame) :
  standardize_currency df = Ok df' →
  rows df ≠ [] ∧
  ∃ l, mapM price_usd_of_row (rows df) = Ok l ∧
       pd.drop ["price"; "currency"] (pd.setitem df "price_usd" (series_of_scalars l))
       = Ok df'.
Proof.
  unfold standardize_currency. intros Heq. inv_bind Heq.
  apply df_setitem_Ok in Ha0 as (s & -> & Hs).
  unfold df_apply in Ha.
  destruct (bool_decide (rows df = []) || bool_decide (columns df = [])) eqn:Hempty.
  - injection Ha as <-. destruct Hs as [c' Hc'].
    apply drop_Ok in Heq as (_ & _ & Hin). exfalso.
    pose proof (Hin "price" ltac:(by left)) as Hp.
    pose proof (Hin "currency" ltac:(by right; left)) as Hc.
    unfold pd.setitem in Hp, Hc. simpl in Hp, Hc. rewrite Hc' in Hp, Hc.
    case_decide; rewrite ?elem_of_app, !elem_of_cons, !elem_of_nil in Hp, Hc;
      intuition congruence.
  - apply orb_false_iff in Hempty as [Hrows _].
    apply bool_decide_eq_false in Hrows. split; [done|].
    inv_bind Ha. injection Ha as <-. subst s. eauto.
Qed.

Lemma M_bind_Ok `(m : M A) {B} (f : A → M B) (b : B) (w w' : DataWrangler * FS) :
  (m ≫= f) w = (Ok b, w') ↔ ∃ a w1, m w = (Ok a, w1) ∧ f a w1 = (Ok b, w').
Proof.
  unfold mbind, M_bind. destruct (m w) as [[a|e] w1].
  - split; [eauto|]. by intros (a' & w1' & [= <- <-] & Hf).
  - split; [done|]. by intros (a' & w1' & ? & ?).
Qed.

Lemma lift_Ok {A} (r : Result A) (a : A) (w w' : DataWrangler * FS) :
  lift r w = (Ok a, w') ↔ r = Ok a ∧ w' = w.
Proof.
  unfold lift. split.
  - by intros [= -> ->].
  - by intros [-> ->].
Qed.

Lemma dropna_Ok (subset : list string) (df df' : DataFrame) :
  pd.dropna subset df = Ok df' →
  df' = mkDF (columns df)
          (pd.default_index (filter (λ r, pd.has_na subset r = false) (rows df))) ∧
  ∀ c, c ∈ subset → c ∈ columns df.
Proof.
  unfold pd.dropna. intros Heq.
  apply (checked_columns_Ok _ _ _ _ (λ ks, Raise (KeyError ks))) in Heq as [<- Hin];
    [done|discriminate].
Qed.

Lemma drop_duplicates_Ok (subset : option (list string)) (ign : bool)
    (df df' : DataFrame) :
  pd.drop_duplicates subset ign df = Ok df' →
  columns df' = columns df ∧
  (columns df ≠ [] →
   rows df' = (if ign then pd.default_index else id)
                (pd.keep_first (pd.row_key (default (columns df) subset)) [] (rows df))).
Proof.
  unfold pd.drop_duplicates. intros Heq.
  destruct (bool_decide (rows df = [])) eqn:Hrows; simpl in Heq.
  - apply bool_decide_eq_true in Hrows. injection Heq as <-.
    split; [done|]. intros _. rewrite Hrows. by destruct ign.
  - destruct (bool_decide (columns df = [])) eqn:Hcols; simpl in Heq.
    + apply bool_decide_eq_true in Hcols. injection Heq as <-.
      split; [done|]. intros Hne. by destruct Hne.
    + destruct (pd.missing_columns df _); [|done].
      case_bool_decide; [done|]. injection Heq as <-.
      split; [done|]. intros _. by destruct ign.
Qed.

Lemma getitem_list_Ok (df df' : DataFrame) (cols : list string) :
  pd.getitem_list df cols = Ok df' → columns df' = cols.
Proof.
  unfold pd.getitem_list. destruct (pd.missing_columns df cols); [|done].
  by intros [= <-].
Qed.

Lemma drop_rows_columns (conf : DataConf) (df df' : DataFrame) :
  _drop_rows conf df = Ok df' → columns df' = columns df.
Proof.
  unfold _drop_rows. intros Heq. inv_bind Heq. injection Heq as <-.
  apply dropna_Ok in Ha0 as [-> _].
  apply drop_duplicates_Ok in Ha1 as [-> _]. done.
Qed.

Lemma drop_outlier_prices_columns (conf : DataConf) (df df' : DataFrame) :
  drop_outlier_prices conf df = Ok df' → columns df' = columns df.
Proof.
  unfold drop_outlier_prices. intros Heq. inv_bind Heq. by injection Heq as <-.
Qed.

Lemma select_sublist {A} (l : list A) (mask : list bool) :
  pd.select l mask `sublist_of` l.
Proof.
  revert mask. induction l as [|x l IH]; intros [|b mask]; simpl;
    try apply sublist_nil_l.
  destruct b; [apply sublist_skip|apply sublist_cons]; apply IH.
Qed.

Lemma standardize_currency_columns (df df' : DataFrame) :
  standardize_currency df = Ok df' →
  ∀ c, c ∈ columns df' ↔
       (c ∈ columns df ∧ c ≠ "price" ∧ c ≠ "currency") ∨ c = "price_usd".
Proof.
  intros (_ & l & _ & Hdrop)%standardize_currency_Ok c.
  apply drop_Ok in Hdrop as (-> & _ & _).
  rewrite list_elem_of_filter. unfold pd.setitem. simpl.
  rewrite !elem_of_cons, elem_of_nil.
  case_decide; rewrite ?elem_of_app, ?elem_of_cons, ?elem_of_nil.
  - split; [tauto|]. intros [?| ->]; [tauto|]. split; [|done].
    intros [?|[?|[]]]; done.
  - split; [|intros [?| ->]; [tauto|]; split; [|tauto]; intros [?|[?|[]]]; done].
    intros [Hne [?|[?|[]]]]; [left|right]; tauto.
Qed.

(** ** The schema after normalisation *)

Lemma standardize_currency_rows (df df' : DataFrame) (r : Row) :
  standardize_currency df = Ok df' → r ∈ rows df' →
  ∃ x v, x ∈ rows df ∧ label r = label x ∧
         cells r = filter (λ kv, kv.1 ∉ ["price"; "currency"]) (<["price_usd" := v]> (cells x)).
Proof.
  intros (_ & l & _ & Hdrop)%standardize_currency_Ok Hr.
  apply drop_Ok in Hdrop as (_ & Hrows & _). rewrite Hrows in Hr.
  apply list_elem_of_fmap in Hr as (r0 & -> & Hr0). simpl in Hr0.
  apply elem_of_zip_with in Hr0 as (x & v & -> & Hx & _). eauto.
Qed.

Lemma clean_data_Ok (conf : DataConf) (raw out : DataFrame) (w w' : DataWrangler * FS) :
  clean_data conf raw w = (Ok out, w') →
  ∃ kept filtered normalized,
    pd.getitem_list raw (keep_columns conf) = Ok kept ∧
    _drop_rows conf kept = Ok filtered ∧
    standardize_currency filtered = Ok normalized ∧
    drop_outlier_prices conf normalized = Ok out ∧
    w' = (mkDataWrangler (raw_data_path w.1) (processed_data_path w.1) (Some out), w.2).
Proof.
  unfold clean_data. intros Heq.
  apply M_bind_Ok in Heq as (kept & w1 & [Hkept ->]%lift_Ok & Heq).
  apply M_bind_Ok in Heq as (filtered & w2 & [Hfiltered ->]%lift_Ok & Heq).
  apply M_bind_Ok in Heq as (d & w3 & [Hd ->]%lift_Ok & Heq).
  apply M_bind_Ok in Heq as ([] & w4 & Hset & Heq).
  unfold set_df in Hset. injection Hset as <-.
  injection Heq as <- <-.
  unfold _convert_price_to_usd in Hd. inv_bind Hd. naive_solver.
Qed.

(** C3.  After the normaliser the frame has the column [price_usd] and
    neither [price] nor [currency] (once, when the labels of its input are
    distinct), and so has every row; the columns of the cleaned frame are
    the kept columns without [price] and [currency], with [price_usd]. *)
Theorem price_usd_replaces_price_and_currency (conf : DataConf) :
  (∀ df normalized,
     standardize_currency df = Ok normalized →
     "price_usd" ∈ columns normalized ∧
     ("price" ∉ columns normalized) ∧ ("currency" ∉ columns normalized) ∧
     (NoDup (columns df) → NoDup (columns normalized)) ∧
     ∀ r, r ∈ rows normalized →
          is_Some (cells r !! "price_usd") ∧
          cells r !! "price" = None ∧ cells r !! "currency" = None) ∧
  (∀ raw w out w',
     clean_data conf raw w = (Ok out, w') →
     (∀ c, c ∈ columns out ↔
           (c ∈ keep_columns conf ∧ c ≠ "price" ∧ c ≠ "currency") ∨ c = "price_usd") ∧
     (NoDup (keep_columns conf) → NoDup (columns out)) ∧
     ∀ r, r ∈ rows out →
          is_Some (cells r !! "price_usd") ∧
          cells r !! "price" = None ∧ cells r !! "currency" = None).
Proof.
  assert (∀ df normalized,
     standardize_currency df = Ok normalized →
     "price_usd" ∈ columns normalized ∧
     ("price" ∉ columns normalized) ∧ ("currency" ∉ columns normalized) ∧
     (NoDup (columns df) → NoDup (columns normalized)) ∧
     ∀ r, r ∈ rows normalized →
          is_Some (cells r !! "price_usd") ∧
          cells r !! "price" = None ∧ cells r !! "currency" = None) as Hstage.
  { intros df normalized Hn.
    pose proof (standardize_currency_columns _ _ Hn) as Hcols.
    split; [apply Hcols; by right|].
    split; [rewrite Hcols; intros [(_ & ? & _)|?]; done|].
    split; [rewrite Hcols; intros [(_ & _ & ?)|?]; done|].
    split.
    - intros Hnd. pose proof Hn as (_ & l & _ & Hdrop)%standardize_currency_Ok.
      apply drop_Ok in Hdrop as (-> & _ & _). apply NoDup_filter.
      unfold pd.setitem; simpl. case_decide as Hin; [done|].
      apply NoDup_app. split; [done|]. split; [|apply NoDup_singleton].
      intros c Hc ->%list_elem_of_singleton. done.
    - intros r Hr.
      destruct (standardize_currency_rows _ _ _ Hn Hr) as (x & v & _ & _ & ->).
      split; [exists v|split].
      + apply map_lookup_filter_Some. split; [apply lookup_insert_eq|].
        simpl. rewrite !elem_of_cons, elem_of_nil. intros [?|[?|[]]]; done.
      + apply map_lookup_filter_None. right. intros v' _. simpl.
        intros Hno. apply Hno. by left.
      + apply map_lookup_filter_None. right. intros v' _. simpl.
        intros Hno. apply Hno. by right; left. }
  split; [exact Hstage|].
  intros raw w out w' Hclean.
  apply clean_data_Ok in Hclean
    as (kept & filtered & normalized & Hkept & Hfiltered & Hn & Hout & _).
  apply getitem_list_Ok in Hkept. apply drop_rows_columns in Hfiltered.
  destruct (Hstage _ _ Hn) as (_ & _ & _ & Hnd & Hrows).
  pose proof (standardize_currency_columns _ _ Hn) as Hcols.
  pose proof Hout as Hsame%drop_outlier_prices_columns.
  rewrite Hsame. rewrite Hfiltered, Hkept in Hcols, Hnd.
  split; [exact Hcols|]. split; [exact Hnd|].
  intros r Hr. apply Hrows. unfold drop_outlier_prices in Hout. inv_bind Hout.
  injection Hout as <-. simpl in Hr.
  eapply elem_of_sublist; [exact Hr|]. apply select_sublist.
Qed.

Example standardize_currency_sample :
  standardize_currency sample_frame = Ok sample_normalized.
Proof. by_compute. Qed.

Example clean_data_sample :
  clean_data sample_conf sample_frame (sample_self, empty_fs)
  = (Ok sample_cleaned,
     (mkDataWrangler ["raw/a.zip"; "raw/b.zip"] "out/data.csv" (Some sample_cleaned),
      empty_fs)).
Proof. by_compute. Qed.

Lemma price_usd_replaces_price_and_currency_witness :
  ("price_usd" ∈ columns sample_normalized ∧
   ("price" ∉ columns sample_normalized) ∧ ("currency" ∉ columns sample_normalized) ∧
   (NoDup (columns sample_frame) → NoDup (columns sample_normalized)) ∧
   ∀ r, r ∈ rows sample_normalized →
        is_Some (cells r !! "price_usd") ∧
        cells r !! "price" = None ∧ cells r !! "currency" = None) ∧
  ∀ c, c ∈ columns sample_cleaned ↔
       (c ∈ keep_columns sample_conf ∧ c ≠ "price" ∧ c ≠ "currency") ∨ c = "price_usd".
Proof.
  split.
  - apply (proj1 (price_usd_replaces_price_and_currency sample_conf) sample_frame).
    by_compute.
  - apply (proj2 (price_usd_replaces_price_and_currency sample_conf) sample_frame
             (sample_self, empty_fs) sample_cleaned
             (mkDataWrangler ["raw/a.zip"; "raw/b.zip"] "out/data.csv"
                (Some sample_cleaned), empty_fs)).
    by_compute.
Defined.

(** ** Masks and first occurrences *)

Section masks.

Context {A : Type}.
Implicit Types (l : list A) (mask : list bool).

Lemma select_fmap_mask (f : A → bool) l :
  pd.select l (f <$> l) = filter (λ x, f x = true) l.
Proof.
  induction l as [|x l IH]; [done|].
  rewrite fmap_cons, filter_cons. simpl. case_decide as Hf.
  - rewrite Hf. by rewrite IH.
  - destruct (f x); [done|]. exact IH.
Qed.

Lemma fmap_select {B} (g : A → B) l mask :
  g <$> pd.select l mask = pd.select (g <$> l) mask.
Proof.
  revert mask. induction l as [|x l IH]; intros [|b mask]; simpl; try done.
  destruct b; simpl; by rewrite IH.
Qed.

End masks.

Section keep_first.

Context {A K : Type} `{EqDecision K} (key : A → K).
Implicit Types (l : list A) (seen : list K).

Lemma keep_first_nil seen : pd.keep_first key seen [] = [].
Proof. done. Qed.

Lemma keep_first_cons seen x l :
  pd.keep_first key seen (x :: l) =
  if decide (key x ∈ seen) then pd.keep_first key (key x :: seen) l
  else x :: pd.keep_first key (key x :: seen) l.
Proof.
  unfold pd.keep_first. simpl.
  case_bool_decide; [rewrite decide_True|rewrite decide_False]; done.
Qed.

Lemma keep_first_sublist seen l : pd.keep_first key seen l `sublist_of` l.
Proof. apply select_sublist. Qed.

(** A kept element has a key that was not seen before. *)
Lemma keep_first_unseen seen l x :
  x ∈ pd.keep_first key seen l → key x ∉ seen.
Proof.
  revert seen. induction l as [|y l IH]; intros seen.
  - rewrite keep_first_nil. by intros ?%elem_of_nil.
  - rewrite keep_first_cons. case_decide as Hy.
    + intros Hx%IH. intros Hs. apply Hx. by right.
    + intros [->|Hx%IH]%elem_of_cons; [done|].
      intros Hs. apply Hx. by right.
Qed.

Lemma keep_first_NoDup seen l : NoDup (key <$> pd.keep_first key seen l).
Proof.
  revert seen. induction l as [|y l IH]; intros seen.
  - rewrite keep_first_nil. apply NoDup_nil_2.
  - rewrite keep_first_cons. case_decide as Hy; [apply IH|].
    rewrite fmap_cons. apply NoDup_cons. split; [|apply IH].
    intros (x & Hk & Hx%keep_first_unseen)%list_elem_of_fmap.
    apply Hx. rewrite Hk. by left.
Qed.

(** Every key of the list is seen before or kept. *)
Lemma keep_first_covers seen l x :
  x ∈ l → key x ∈ seen ∨ key x ∈ key <$> pd.keep_first key seen l.
Proof.
  revert seen. induction l as [|y l IH]; intros seen; [by intros ?%elem_of_nil|].
  rewrite keep_first_cons. intros [->|Hx]%elem_of_cons.
  - case_decide as Hy; [by left|]. right. rewrite fmap_cons. by left.
  - destruct (IH (key y :: seen) Hx) as [[Heq|Hs]%elem_of_cons|Hin].
    + case_decide as Hy; [left; by rewrite Heq|].
      right. rewrite fmap_cons, Heq. by left.
    + by left.
    + right. case_decide; [done|]. rewrite fmap_cons. by right.
Qed.

(** A list whose keys are distinct and unseen is kept whole. *)
Lemma keep_first_fixed seen l :
  NoDup (key <$> l) → (∀ x, x ∈ l → key x ∉ seen) → pd.keep_first key seen l = l.
Proof.
  revert seen. induction l as [|y l IH]; intros seen Hnd Hun; [done|].
  rewrite fmap_cons in Hnd. apply NoDup_cons in Hnd as [Hy Hnd].
  rewrite keep_first_cons, decide_False by (apply Hun; by left).
  f_equal. apply IH; [done|]. intros x Hx [Heq|Hs]%elem_of_cons.
  - apply Hy. rewrite <-Heq. by apply list_elem_of_fmap_2.
  - apply (Hun x); [by right|done].
Qed.

Lemma keep_first_idemp seen l :
  pd.keep_first key seen (pd.keep_first key seen l) = pd.keep_first key seen l.
Proof.
  apply keep_first_fixed; [apply keep_first_NoDup|].
  intros x. apply keep_first_unseen.
Qed.

(** The mask, position by position: a row is marked when its key was seen
    or is the key of a row before it. *)
Lemma duplicated_lookup seen l i x :
  l !! i = Some x →
  pd.duplicated key seen l !! i
  = Some (bool_decide (key x ∈ seen ∨ key x ∈ key <$> take i l)).
Proof.
  revert seen i. induction l as [|y l IH]; intros seen i; [done|].
  destruct i as [|i]; simpl.
  - intros [= ->]. f_equal. apply bool_decide_ext.
    split; [by left|]. intros [?|?%elem_of_nil]; done.
  - intros Hx. rewrite (IH _ _ Hx). f_equal. apply bool_decide_ext.
    rewrite !elem_of_cons. tauto.
Qed.

End keep_first.

Lemma duplicated_fmap {A B K} `{EqDecision K} (key : B → K) (g : A → B)
    (seen : list K) (l : list A) :
  pd.duplicated key seen (g <$> l) = pd.duplicated (key ∘ g) seen l.
Proof.
  revert seen. induction l as [|x l IH]; intros seen; [done|].
  simpl. by rewrite IH.
Qed.

Lemma keep_first_fmap {A B K} `{EqDecision K} (key : B → K) (g : A → B)
    (seen : list K) (l : list A) :
  pd.keep_first key seen (g <$> l) = g <$> pd.keep_first (key ∘ g) seen l.
Proof. unfold pd.keep_first. by rewrite fmap_select, duplicated_fmap. Qed.

(** ** The row filter *)

Lemma default_index_cells (rs : list Row) : cells <$> pd.default_index rs = cells <$> rs.
Proof.
  unfold pd.default_index. rewrite fmap_imap.
  rewrite (imap_ext _ (λ _, cells)) by done. apply imap_const.
Qed.

Lemma relabel_ext (lbl : nat → value) (rs rs' : list Row) :
  cells <$> rs = cells <$> rs' →
  imap (λ i r, mkRow (lbl i) (cells r)) rs = imap (λ i r, mkRow (lbl i) (cells r)) rs'.
Proof.
  revert rs' lbl. induction rs as [|r rs IH]; intros [|r' rs'] lbl; try done.
  rewrite !fmap_cons. intros [= Hr Hrs]. simpl. rewrite Hr. f_equal.
  apply (IH rs' (lbl ∘ S) Hrs).
Qed.

Lemma default_index_ext (rs rs' : list Row) :
  cells <$> rs = cells <$> rs' → pd.default_index rs = pd.default_index rs'.
Proof. apply (relabel_ext (λ i, VNum (Fin (Qc_of_Z (Z.of_nat i))))). Qed.

Lemma keep_first_row_key (subset : list string) (seen : list (list (option value)))
    (rs : list Row) :
  cells <$> pd.keep_first (pd.row_key subset) seen rs
  = pd.keep_first (pd.cells_key subset) seen (cells <$> rs).
Proof. symmetry. apply (keep_first_fmap (pd.cells_key subset) cells). Qed.

Lemma filter_fmap {A B} (g : A → B) (P : B → Prop) `{!∀ y, Decision (P y)}
    (l : list A) :
  g <$> filter (λ x, P (g x)) l = filter P (g <$> l).
Proof.
  induction l as [|x l IH]; [done|].
  rewrite fmap_cons, !filter_cons. case_decide; [rewrite fmap_cons|]; by rewrite IH.
Qed.

Lemma filter_fmap_false {A B} (g : A → B) (f : B → bool) (l : list A) :
  g <$> filter (λ x, f (g x) = false) l = filter (λ y, f y = false) (g <$> l).
Proof.
  induction l as [|x l IH]; [done|].
  rewrite fmap_cons, !filter_cons. case_decide; [rewrite fmap_cons|]; by rewrite IH.
Qed.

Lemma country_mask (conf : DataConf) (df : DataFrame) (l1 : list value) :
  pd.getitem df "l1" = Ok l1 →
  pd.select (rows df) (negb <$> pd.isin l1 (drop_rows_countries conf))
  = filter (λ r, excluded conf (cells r) = false) (rows df).
Proof.
  intros [_ ->]%getitem_Ok. unfold pd.isin.
  rewrite <-!list_fmap_compose, select_fmap_mask.
  apply list_filter_iff. intros r. simpl. unfold excluded.
  by destruct (bool_decide _).
Qed.

(** The frame that [drop_duplicates] returns depends on the rows through
    their cells only, once the labels are renumbered. *)
Lemma drop_duplicates_ext (subset : list string) (df df2 df' : DataFrame) :
  pd.drop_duplicates (Some subset) true df = Ok df' →
  columns df ≠ [] → columns df2 = columns df →
  cells <$> rows df2 = cells <$> rows df →
  pd.drop_duplicates (Some subset) true df2 = Ok df'.
Proof.
  intros Heq Hne Hcols Hcells.
  destruct df as [cols rs], df2 as [cols2 rs2]. simpl in *. subst cols2.
  unfold pd.drop_duplicates in *. simpl in *.
  rewrite (bool_decide_eq_false_2 (cols = [])) in * by done.
  rewrite !orb_false_r in *.
  destruct rs as [|r rs].
  - apply fmap_nil_inv in Hcells. subst rs2. exact Heq.
  - destruct rs2 as [|r2 rs2]; [done|].
    rewrite (bool_decide_eq_false_2 (r :: rs = [])) in Heq by done.
    rewrite (bool_decide_eq_false_2 (r2 :: rs2 = [])) by done.
    unfold pd.missing_columns in *. simpl in *.
    destruct (filter _ subset); [|done].
    case_bool_decide; [done|]. injection Heq as <-. do 2 f_equal.
    apply default_index_ext. rewrite !keep_first_row_key. f_equal. exact Hcells.
Qed.

Lemma records_after_filters (conf : DataConf) (rs : list Row) :
  cells <$> filter (λ r, pd.has_na (drop_rows_nan conf) r = false)
              (filter (λ r, excluded conf (cells r) = false) rs)
  = filter (λ m, excluded conf m = false ∧ pd.cells_have_na (drop_rows_nan conf) m = false)
      (cells <$> rs).
Proof.
  rewrite list_filter_filter. unfold pd.has_na.
  rewrite <-(filter_fmap cells
    (λ m, excluded conf m = false ∧ pd.cells_have_na (drop_rows_nan conf) m = false)).
  f_equal. apply list_filter_iff. intros r. tauto.
Qed.

Lemma records_after_filters_swapped (conf : DataConf) (rs : list Row) :
  cells <$> filter (λ r, excluded conf (cells r) = false)
              (pd.default_index (filter (λ r, pd.has_na (drop_rows_nan conf) r = false) rs))
  = filter (λ m, excluded conf m = false ∧ pd.cells_have_na (drop_rows_nan conf) m = false)
      (cells <$> rs).
Proof.
  rewrite (filter_fmap_false cells (excluded conf)), default_index_cells.
  unfold pd.has_na.
  rewrite (filter_fmap_false cells (pd.cells_have_na (drop_rows_nan conf))).
  apply list_filter_filter.
Qed.

Lemma drop_rows_Ok (conf : DataConf) (df df' : DataFrame) :
  _drop_rows conf df = Ok df' →
  "l1" ∈ columns df ∧
  (∀ c, c ∈ drop_rows_nan conf → c ∈ columns df) ∧
  pd.drop_duplicates (Some (drop_rows_duplicates conf)) true
    (mkDF (columns df)
       (pd.default_index
          (filter (λ r, pd.has_na (drop_rows_nan conf) r = false)
             (filter (λ r, excluded conf (cells r) = false) (rows df)))))
  = Ok df'.
Proof.
  unfold _drop_rows. intros Heq. inv_bind Heq. injection Heq as <-.
  pose proof (country_mask conf _ _ Ha) as Hmask.
  apply getitem_Ok in Ha as [Hl1 _].
  apply dropna_Ok in Ha0 as [-> Hnan]. simpl in *.
  rewrite Hmask in Ha1. done.
Qed.

Lemma drop_rows_survivors (conf : DataConf) (df df' : DataFrame) :
  _drop_rows conf df = Ok df' →
  records_of df'
  = pd.keep_first (pd.cells_key (drop_rows_duplicates conf)) []
      (filter (λ m, excluded conf m = false ∧
                    pd.cells_have_na (drop_rows_nan conf) m = false)
         (records_of df)) ∧
  _drop_rows_nan_first conf df = Ok df'.
Proof.
  intros (Hl1 & Hnan & Hdd)%drop_rows_Ok.
  assert (columns df ≠ []) as Hne by (intros Hnil; rewrite Hnil in Hl1; by apply elem_of_nil in Hl1).
  split.
  - apply drop_duplicates_Ok in Hdd as [_ Hrows]. simpl in Hrows.
    unfold records_of. rewrite (Hrows Hne), default_index_cells, keep_first_row_key.
    by rewrite default_index_cells, records_after_filters.
  - unfold _drop_rows_nan_first, pd.dropna.
    rewrite (missing_columns_nil df (drop_rows_nan conf) Hnan).
    simpl.
    set (d1 := mkDF (columns df)
                 (pd.default_index
                    (filter (λ r, pd.has_na (drop_rows_nan conf) r = false) (rows df)))).
    pose proof (getitem_in d1 "l1" Hl1) as Hg. rewrite Hg, bind_Ok_l.
    unfold pd.getitem_mask. rewrite (country_mask conf d1 _ Hg).
    rewrite (drop_duplicates_ext _ _ _ _ Hdd); simpl; try done.
    rewrite records_after_filters_swapped, default_index_cells.
    by rewrite records_after_filters.
Qed.

(** [_drop_rows] returns on a frame that has the columns it is configured
    with. *)
Lemma drop_rows_returns (conf : DataConf) (df : DataFrame) :
  "l1" ∈ columns df →
  (∀ c, c ∈ drop_rows_nan conf → c ∈ columns df) →
  drop_rows_duplicates conf ≠ [] →
  (∀ c, c ∈ drop_rows_duplicates conf → c ∈ columns df) →
  ∃ df', _drop_rows conf df = Ok df'.
Proof.
  intros Hl1 Hnan Hne Hdup. unfold _drop_rows.
  rewrite (getitem_in df "l1" Hl1), bind_Ok_l. unfold pd.dropna.
  rewrite (missing_columns_nil _ (drop_rows_nan conf)) by done.
  rewrite bind_Ok_l. unfold pd.drop_duplicates.
  destruct (bool_decide _ || bool_decide _); [by eexists|]. simpl.
  rewrite (missing_columns_nil _ (drop_rows_duplicates conf)) by done.
  rewrite bool_decide_eq_false_2 by done. by eexists.
Qed.

(** C1, as amended.  On a frame that has the category column, the required
    columns and the key columns, the row filter returns; it keeps, among
    the records that are of no excluded category and have no missing
    required value, the first one of every key; the order in which these
    two rules are applied does not change the frame it returns. *)
Theorem drop_rows_first_of_survivors (conf : DataConf) (df : DataFrame) :
  "l1" ∈ columns df →
  (∀ c, c ∈ drop_rows_nan conf → c ∈ columns df) →
  drop_rows_duplicates conf ≠ [] →
  (∀ c, c ∈ drop_rows_duplicates conf → c ∈ columns df) →
  ∃ df',
    _drop_rows conf df = Ok df' ∧
    records_of df'
    = pd.keep_first (pd.cells_key (drop_rows_duplicates conf)) []
        (filter (λ m, excluded conf m = false ∧
                      pd.cells_have_na (drop_rows_nan conf) m = false)
           (records_of df)) ∧
    _drop_rows_nan_first conf df = Ok df'.
Proof.
  intros Hl1 Hnan Hne Hdup.
  destruct (drop_rows_returns conf df) as [df' Hdf']; try done.
  exists df'. split; [done|]. by apply drop_rows_survivors.
Qed.

Lemma drop_rows_first_of_survivors_witness :
  ∃ df',
    _drop_rows sample_conf shadowed_frame = Ok df' ∧
    records_of df'
    = pd.keep_first (pd.cells_key (drop_rows_duplicates sample_conf)) []
        (filter (λ m, excluded sample_conf m = false ∧
                      pd.cells_have_na (drop_rows_nan sample_conf) m = false)
           (records_of shadowed_frame)) ∧
    _drop_rows_nan_first sample_conf shadowed_frame = Ok df'.
Proof.
  apply (drop_rows_first_of_survivors sample_conf shadowed_frame).
  - by_compute.
  - intros c Hc. simpl in Hc. apply list_elem_of_In.
    repeat (apply elem_of_cons in Hc as [->|Hc]; [simpl; tauto|]).
    by apply elem_of_nil in Hc.
  - discriminate.
  - intros c Hc. simpl in Hc. apply list_elem_of_In.
    repeat (apply elem_of_cons in Hc as [->|Hc]; [simpl; tauto|]).
    by apply elem_of_nil in Hc.
Defined.

(** C1 as stated fails: the listing of Peru is returned by the row filter,
    while the three criteria taken on the unfiltered frame reject both
    listings (the second one as a duplicate of the first, which the category
    rule removes). *)
Lemma drop_rows_not_independent :
  _drop_rows sample_conf shadowed_frame = Ok shadowed_filtered ∧
  length (records_of shadowed_filtered) = 1%nat ∧
  independent_criteria sample_conf shadowed_frame = [].
Proof. split; [by_compute|]. split; [reflexivity|by_compute]. Qed.

(** ** Ingestion *)

Example ingest_data_sample :
  ingest_data (sample_self, sample_fs) = (Ok sample_ingested, (sample_self, sample_fs)).
Proof. by_compute. Qed.

Lemma mapM_Ok {A B} (f : A → Result B) (l : list A) (ys : list B) :
  mapM f l = Ok ys ↔ Forall2 (λ x y, f x = Ok y) l ys.
Proof.
  revert ys. induction l as [|x l IH]; intros ys; simpl.
  - split; [intros [= <-]; constructor|by inversion 1].
  - split.
    + intros Heq. inv_bind Heq. injection Heq as <-.
      constructor; [done|]. by apply IH.
    + inversion 1 as [|? y ? ys' Hx Hl]; subst. rewrite Hx, bind_Ok_l.
      apply IH in Hl. cbv beta. by rewrite Hl.
Qed.

Lemma concat_Ok (frames : list DataFrame) (merged : DataFrame) :
  pd.concat frames = Ok merged →
  frames ≠ [] ∧
  merged = mkDF (pd.union_columns frames)
             (mjoin ((λ df, pd.reindex_row (pd.union_columns frames) <$> rows df)
                       <$> frames)).
Proof. destruct frames; [done|]. by intros [= <-]. Qed.

Lemma ingest_data_Ok (self : DataWrangler) (fs : FS) (d : DataFrame)
    (w' : DataWrangler * FS) :
  ingest_data (self, fs) = (Ok d, w') →
  w' = (self, fs) ∧
  ∃ frames merged,
    mapM (read_raw_file fs) (raw_data_path self) = Ok frames ∧
    pd.concat frames = Ok merged ∧
    pd.drop_duplicates None false merged = Ok d.
Proof.
  unfold ingest_data. intros Heq.
  apply M_bind_Ok in Heq as (self' & w1 & [= <- <-] & Heq).
  apply M_bind_Ok in Heq as (fs' & w2 & [= <- <-] & Heq).
  apply M_bind_Ok in Heq as (frames & w3 & [Hframes ->]%lift_Ok & Heq).
  apply M_bind_Ok in Heq as (merged & w4 & [Hmerged ->]%lift_Ok & Heq).
  apply lift_Ok in Heq as [Hd ->]. simpl in *. eauto 6.
Qed.

Lemma drop_duplicates_no_columns (subset : option (list string)) (ign : bool)
    (df : DataFrame) :
  columns df = [] → pd.drop_duplicates subset ign df = Ok df.
Proof.
  intros Hnil. unfold pd.drop_duplicates.
  by rewrite (bool_decide_eq_true_2 (columns df = [])), orb_true_r.
Qed.

Lemma fmap_eq_elem {A B} (f g : A → B) (l : list A) (x : A) :
  f <$> l = g <$> l → x ∈ l → f x = g x.
Proof.
  induction l as [|y l IH]; [by intros _ ?%elem_of_nil|].
  rewrite !fmap_cons. intros [= Hy Hl] [->|Hx]%elem_of_cons; auto.
Qed.

(** Records over the same columns are equal when they agree on them. *)
Lemma cells_key_inj (cols : list string) (m1 m2 : gmap string value) :
  (∀ k, is_Some (m1 !! k) → k ∈ cols) →
  (∀ k, is_Some (m2 !! k) → k ∈ cols) →
  pd.cells_key cols m1 = pd.cells_key cols m2 → m1 = m2.
Proof.
  intros H1 H2 Hkey. apply map_eq. intros k.
  destruct (decide (k ∈ cols)) as [Hk|Hk].
  - apply (fmap_eq_elem _ _ _ _ Hkey Hk).
  - destruct (m1 !! k) eqn:E1; [destruct Hk; apply H1; eauto|].
    destruct (m2 !! k) eqn:E2; [destruct Hk; apply H2; eauto|]. done.
Qed.

Lemma reindex_row_within (cols : list string) (r : Row) (k : string) :
  is_Some (cells (pd.reindex_row cols r) !! k) → k ∈ cols.
Proof.
  intros [v Hv]. simpl in Hv. apply elem_of_list_to_map_2 in Hv.
  apply list_elem_of_fmap in Hv as (c & [= -> _] & Hc). done.
Qed.

(** Two keys that identify the same elements mark the same duplicates. *)
Lemma duplicated_key_equiv {A K1 K2} `{EqDecision K1, EqDecision K2}
    (P : A → Prop) (key1 : A → K1) (key2 : A → K2) (s l : list A) :
  (∀ x y, P x → P y → (key1 x = key1 y ↔ key2 x = key2 y)) →
  Forall P s → Forall P l →
  pd.duplicated key1 (key1 <$> s) l = pd.duplicated key2 (key2 <$> s) l.
Proof.
  intros Hequiv. revert s. induction l as [|x l IH]; intros s Hs Hl; [done|].
  apply Forall_cons in Hl as [Hx Hl]. simpl. f_equal.
  - apply bool_decide_ext. rewrite !list_elem_of_fmap.
    split; intros (y & Hy & Hin); exists y; (split; [|done]);
      apply (Hequiv x y Hx (proj1 (Forall_forall P s) Hs y Hin)); done.
  - apply (IH (x :: s)); [by constructor|done].
Qed.

Lemma keep_first_full_row (cols : list string) (rs : list Row) :
  Forall (λ r, ∀ k, is_Some (cells r !! k) → k ∈ cols) rs →
  pd.keep_first (pd.row_key cols) [] rs = pd.keep_first cells [] rs.
Proof.
  intros Hwithin. unfold pd.keep_first. f_equal. f_equal.
  apply (duplicated_key_equiv (λ r, ∀ k, is_Some (cells r !! k) → k ∈ cols)
           (pd.row_key cols) cells [] rs); [|constructor|done].
  intros x y Hx Hy. split; [by apply cells_key_inj|].
  unfold pd.row_key. by intros ->.
Qed.

Lemma drop_duplicates_again (df d : DataFrame) :
  pd.drop_duplicates None false df = Ok d → pd.drop_duplicates None false d = Ok d.
Proof.
  intros Hd. destruct (decide (columns df = [])) as [Hnil|Hne].
  - rewrite drop_duplicates_no_columns in Hd by done. injection Hd as <-.
    by apply drop_duplicates_no_columns.
  - apply drop_duplicates_Ok in Hd as [Hcols Hrows]. specialize (Hrows Hne).
    simpl in Hrows. unfold pd.drop_duplicates.
    rewrite (bool_decide_eq_false_2 (columns d = [])), orb_false_r by congruence.
    case_bool_decide as Hempty; [done|]. simpl.
    rewrite missing_columns_nil by done.
    rewrite bool_decide_eq_false_2 by congruence.
    destruct d as [c rs]. simpl in *. subst c rs. do 2 f_equal.
    apply keep_first_idemp.
Qed.

Lemma ingest_data_deduplicated (self : DataWrangler) (fs : FS) (d : DataFrame)
    (w' : DataWrangler * FS) :
  ingest_data (self, fs) = (Ok d, w') →
  w' = (self, fs) ∧
  ∃ frames merged,
    Forall2 (λ file_path frame, read_raw_file fs file_path = Ok frame)
      (raw_data_path self) frames ∧
    columns d = pd.union_columns frames ∧
    merged = mjoin ((λ frame, pd.reindex_row (columns d) <$> rows frame) <$> frames) ∧
    rows d `sublist_of` merged ∧
    (columns d ≠ [] → rows d = pd.keep_first cells [] merged ∧ NoDup (records_of d)) ∧
    (columns d = [] → rows d = merged) ∧
    pd.drop_duplicates None false d = Ok d.
Proof.
  intros (-> & frames & merged & Hframes & Hmerged & Hd)%ingest_data_Ok.
  split; [done|].
  apply mapM_Ok in Hframes. apply concat_Ok in Hmerged as [_ ->].
  pose proof (drop_duplicates_again _ _ Hd) as Hagain.
  set (cols := pd.union_columns frames) in *.
  set (rs := mjoin ((λ df, pd.reindex_row cols <$> rows df) <$> frames)) in *.
  assert (columns d = cols) as Hcols.
  { destruct (decide (cols = [])) as [Hnil|Hne].
    - rewrite drop_duplicates_no_columns in Hd by done. by injection Hd as <-.
    - by apply drop_duplicates_Ok in Hd as [-> _]. }
  assert (Forall (λ r, ∀ k, is_Some (cells r !! k) → k ∈ cols) rs) as Hwithin.
  { apply Forall_forall. intros r Hr k.
    apply list_elem_of_join in Hr as (l & Hr & Hl).
    apply list_elem_of_fmap in Hl as (frame & -> & _).
    apply list_elem_of_fmap in Hr as (r0 & -> & _). apply reindex_row_within. }
  exists frames, rs. rewrite Hcols. split; [done|]. split; [done|]. split; [done|].
  destruct (decide (cols = [])) as [Hnil|Hne].
  - rewrite drop_duplicates_no_columns in Hd by done. injection Hd as <-.
    simpl. split; [done|]. split; [done|]. split; [done|]. exact Hagain.
  - apply drop_duplicates_Ok in Hd as [_ Hrows]. specialize (Hrows Hne). simpl in Hrows.
    rewrite keep_first_full_row in Hrows by done.
    split; [rewrite Hrows; apply keep_first_sublist|].
    split; [|split; [done|exact Hagain]].
    intros _. split; [done|]. unfold records_of. rewrite Hrows.
    apply keep_first_NoDup.
Qed.

Lemma drop_duplicates_all_returns (df : DataFrame) :
  ∃ d, pd.drop_duplicates None false df = Ok d.
Proof.
  unfold pd.drop_duplicates.
  destruct (bool_decide (rows df = [])); [by eexists|].
  case_bool_decide as Hcols; [by eexists|]. simpl.
  rewrite missing_columns_nil by done.
  rewrite bool_decide_eq_false_2 by done. by eexists.
Qed.

(** [ingest_data] returns when there are files and every file can be
    read. *)
Lemma ingest_data_returns (self : DataWrangler) (fs : FS) (frames : list DataFrame) :
  raw_data_path self ≠ [] →
  mapM (read_raw_file fs) (raw_data_path self) = Ok frames →
  ∃ d, ingest_data (self, fs) = (Ok d, (self, fs)).
Proof.
  intros Hne Hframes.
  assert (frames ≠ []) as Hne'.
  { apply mapM_Ok, Forall2_length in Hframes. intros ->.
    by destruct (raw_data_path self). }
  unfold ingest_data, mbind, M_bind, get_self, get_fs, lift. simpl.
  rewrite Hframes. destruct frames as [|frame frames]; [done|]. simpl.
  destruct (drop_duplicates_all_returns
              (mkDF (pd.union_columns (frame :: frames))
                 (mjoin ((λ df, pd.reindex_row (pd.union_columns (frame :: frames))
                                  <$> rows df) <$> frame :: frames)))) as [d Hd].
  simpl in Hd. rewrite Hd. by exists d.
Qed.

(** C7 as stated fails on archives that hold the identifier column only:
    the frame has no column, [drop_duplicates] returns it as it is, and the
    two rows, equal in label and in cells, are both there. *)
Lemma ingest_data_bare_duplicates :
  ingest_data (sample_self, bare_fs) = (Ok bare_ingested, (sample_self, bare_fs)) ∧
  rows bare_ingested = [mkRow (num 1) ∅; mkRow (num 1) ∅].
Proof. split; [by_compute|reflexivity]. Qed.

(** ** The outlier band *)

Example percentile_sample :
  np.percentile [num 28.63; num 200; num 23.9] (Qc_of_Z 50) = Ok (Fin (Q2Qc 28.63)) ∧
  np.percentile [num 1; num 2; num 4; num 8] (Q2Qc 62.5) = Ok (Fin (Q2Qc 3.75)) ∧
  np.percentile [num 1; VNum NaN] (Qc_of_Z 50) = Ok NaN ∧
  np.percentile [VNone; VNone] (Qc_of_Z 50) = Raise TypeError ∧
  np.percentile [num 1] (Qc_of_Z 101) = Raise ValueError.
Proof. repeat split; by_compute. Qed.

Example drop_outlier_prices_sample :
  drop_outlier_prices median_conf sample_normalized = Ok sample_upper_half ∧
  drop_outlier_prices sample_conf unknown_normalized = Ok no_rows.
Proof. split; by_compute. Qed.

Lemma series_cmp_Ok (cmp : float → float → bool) (s : list value) (x : float)
    (mask : list bool) :
  series_cmp cmp s x = Ok mask →
  ∃ xs, s = VNum <$> xs ∧ mask = (λ a, cmp a x) <$> xs.
Proof.
  unfold series_cmp. intros Hs%mapM_Ok.
  induction Hs as [|v b s mask Hv _ (xs & -> & ->)]; [by exists []|].
  destruct v as [|a|]; try done. injection Hv as <-. by exists (a :: xs).
Qed.

Lemma zip_with_fmap_same {A B C D} (f : B → C → D) (g : A → B) (h : A → C)
    (l : list A) :
  zip_with f (g <$> l) (h <$> l) = (λ x, f (g x) (h x)) <$> l.
Proof.
  induction l as [|x l IH]; [done|]. rewrite !fmap_cons. simpl. f_equal. exact IH.
Qed.

Lemma numeric_column (rs : list Row) (xs : list float) :
  (λ r, default (VNum NaN) (cells r !! "price_usd")) <$> rs = VNum <$> xs →
  xs = price_usd_of <$> rs.
Proof.
  revert xs. induction rs as [|r rs IH]; intros [|x xs]; try done.
  rewrite !fmap_cons. intros [= Hr Hrs]. f_equal; [|by apply IH].
  unfold price_usd_of. destruct (cells r !! "price_usd") as [[]|]; simpl in Hr; congruence.
Qed.

(** What lines 140-143 return: the rows whose price is in the band of the
    two percentiles of the column. *)
Lemma drop_outlier_prices_Ok (conf : DataConf) (df df' : DataFrame) :
  drop_outlier_prices conf df = Ok df' →
  ∃ s lo hi,
    pd.getitem df "price_usd" = Ok s ∧
    np.percentile s (outliers_percentile_price_lower conf) = Ok lo ∧
    np.percentile s (outliers_percentile_price_upper conf) = Ok hi ∧
    df' = mkDF (columns df)
            (filter (λ r, in_band lo hi (price_usd_of r) = true) (rows df)).
Proof.
  unfold drop_outlier_prices, price_masks. intros Heq. inv_bind Heq.
  injection Heq as <-. inv_bind Ha. injection Ha as <-.
  rewrite Ha0 in Ha3. injection Ha3 as <-.
  exists a0, a1, a4. repeat (split; [done|]).
  unfold pd.getitem_mask. f_equal. simpl.
  apply series_cmp_Ok in Ha2 as (xs & Hxs & ->).
  apply series_cmp_Ok in Ha5 as (xs' & Hxs' & ->).
  apply getitem_Ok in Ha0 as [_ Hs].
  rewrite Hs in Hxs, Hxs'. apply numeric_column in Hxs, Hxs'. subst xs xs'.
  rewrite zip_with_fmap_same, <-list_fmap_compose. apply select_fmap_mask.
Qed.

(** *** Percentiles of a sample without NaN *)

Lemma Qc_of_Z_0 : Qc_of_Z 0 = 0.
Proof. by apply Qc_is_canon. Qed.

Lemma Qc_of_Z_100_ne_0 : Qc_of_Z 100 ≠ 0.
Proof. intros Heq. apply (f_equal this) in Heq. discriminate. Qed.

Lemma Qfloor_Qc_of_Z (z : Z) : Qfloor (Qc_of_Z z) = z.
Proof. apply Qfloor_Z. Qed.

Lemma Qc_of_Z_floor_le (h : Qc) : Qc_of_Z (Qfloor h) ≤ h.
Proof. apply Qfloor_le. Qed.

(** At a whole rank the interpolation is the element of that rank. *)
Lemma lerp_at_rank (s : list Qc) (i : nat) (x : Qc) :
  s !! i = Some x → np.lerp s (Qc_of_Z (Z.of_nat i)) = x.
Proof.
  intros Hx. unfold np.lerp. rewrite Qfloor_Qc_of_Z, Nat2Z.id, Hx. simpl.
  unfold Qcminus at 2. rewrite Qcplus_opp_r, Qcmult_0_r. apply Qcplus_0_r.
Qed.

Lemma mapM_as_float_numeric (xs : list float) :
  mapM np.as_float (VNum <$> xs) = Some xs.
Proof. apply mapM_Some. induction xs; by constructor. Qed.

Lemma mapM_finite_Fin (qs : list Qc) : mapM np.finite (Fin <$> qs) = Some qs.
Proof. apply mapM_Some. induction qs; by constructor. Qed.

Lemma length_merge_sort (qs : list Qc) : length (merge_sort Qcle qs) = length qs.
Proof. apply Permutation_length, merge_sort_Permutation. Qed.

Lemma percentile_finite (qs : list Qc) (q : Qc) :
  0 ≤ q → q ≤ Qc_of_Z 100 → qs ≠ [] →
  np.percentile (VNum <$> (Fin <$> qs)) q
  = Ok (Fin (np.lerp (merge_sort Qcle qs)
               (Qc_of_Z (Z.of_nat (length qs - 1)) * (q / Qc_of_Z 100)))).
Proof.
  intros H0 H100 Hne. unfold np.percentile.
  rewrite bool_decide_eq_true_2 by done.
  rewrite mapM_as_float_numeric, mapM_finite_Fin, length_merge_sort.
  by destruct qs.
Qed.

Lemma percentile_0 (qs : list Qc) (x : Qc) :
  merge_sort Qcle qs !! 0%nat = Some x →
  np.percentile (VNum <$> (Fin <$> qs)) 0 = Ok (Fin x).
Proof.
  intros Hx. rewrite percentile_finite.
  - do 2 f_equal. unfold Qcdiv. rewrite Qcmult_0_l, Qcmult_0_r, <-Qc_of_Z_0.
    by apply (lerp_at_rank _ 0%nat).
  - apply Qcle_refl.
  - done.
  - by intros ->.
Qed.

Lemma percentile_100 (qs : list Qc) (x : Qc) :
  merge_sort Qcle qs !! (length qs - 1)%nat = Some x →
  np.percentile (VNum <$> (Fin <$> qs)) (Qc_of_Z 100) = Ok (Fin x).
Proof.
  intros Hx. rewrite percentile_finite.
  - do 2 f_equal. unfold Qcdiv.
    rewrite Qcmult_inv_r, Qcmult_1_r by apply Qc_of_Z_100_ne_0.
    by apply lerp_at_rank.
  - done.
  - apply Qcle_refl.
  - by intros ->.
Qed.

Lemma sorted_lookup_le (s : list Qc) (i j : nat) (x y : Qc) :
  StronglySorted Qcle s → (i ≤ j)%nat → s !! i = Some x → s !! j = Some y → x ≤ y.
Proof.
  intros Hs. revert i j. induction Hs as [|z s Hs IH Hz]; intros i j Hij Hi Hj; [done|].
  destruct i as [|i], j as [|j]; simpl in *.
  - injection Hi as <-. injection Hj as <-. apply Qcle_refl.
  - injection Hi as <-. eapply Forall_forall in Hz; [exact Hz|].
    by eapply list_elem_of_lookup_2.
  - lia.
  - apply (IH i j); [lia|done|done].
Qed.

Lemma merge_sort_sorted (qs : list Qc) : StronglySorted Qcle (merge_sort Qcle qs).
Proof. apply StronglySorted_merge_sort; apply _. Qed.

Lemma series_cmp_numeric (cmp : float → float → bool) (xs : list float) (x : float) :
  series_cmp cmp (VNum <$> xs) x = Ok ((λ a, cmp a x) <$> xs).
Proof. apply mapM_Ok. induction xs; by constructor. Qed.

Lemma filter_all {A} (P : A → Prop) `{!∀ x, Decision (P x)} (l : list A) :
  (∀ x, x ∈ l → P x) → filter P l = l.
Proof.
  induction l as [|x l IH]; intros HP; [done|].
  rewrite filter_cons, decide_True by (apply HP; by left).
  f_equal. apply IH. intros y Hy. apply HP. by right.
Qed.

(** Every element of a sample lies between the first and the last element
    of the sorted sample. *)
Lemma sorted_bounds (qs : list Qc) (lo hi x : Qc) :
  merge_sort Qcle qs !! 0%nat = Some lo →
  merge_sort Qcle qs !! (length qs - 1)%nat = Some hi →
  x ∈ qs → lo ≤ x ∧ x ≤ hi.
Proof.
  intros Hlo Hhi Hx.
  assert (x ∈ merge_sort Qcle qs) as [j Hj]%list_elem_of_lookup_1
    by (by rewrite merge_sort_Permutation).
  pose proof (lookup_lt_Some _ _ _ Hj) as Hlt. rewrite length_merge_sort in Hlt.
  split.
  - apply (sorted_lookup_le _ 0 j _ _ (merge_sort_sorted qs)); [lia|done|done].
  - apply (sorted_lookup_le _ j (length qs - 1) _ _ (merge_sort_sorted qs));
      [lia|done|done].
Qed.

(** With the band from 0 to 100, a frame that has rows, the column
    [price_usd] and a finite number in it for every row is returned as it
    is. *)
Lemma full_band_identity (conf : DataConf) (df : DataFrame) :
  outliers_percentile_price_lower conf = 0 →
  outliers_percentile_price_upper conf = Qc_of_Z 100 →
  "price_usd" ∈ columns df → rows df ≠ [] →
  (∀ r, r ∈ rows df → ∃ q, cells r !! "price_usd" = Some (VNum (Fin q))) →
  drop_outlier_prices conf df = Ok df.
Proof.
  intros Hlower Hupper Hcol Hrows Hfin.
  set (fin := λ r, match price_usd_of r with Fin q => q | NaN => 0 end).
  set (qs := fin <$> rows df).
  assert ((λ r, default (VNum NaN) (cells r !! "price_usd")) <$> rows df
          = VNum <$> (Fin <$> qs)) as Hs.
  { unfold qs. rewrite <-!list_fmap_compose. apply list_fmap_ext.
    intros i r Hr%list_elem_of_lookup_2. destruct (Hfin r Hr) as [q Hq].
    unfold fin, price_usd_of. simpl. by rewrite Hq. }
  assert (length qs ≠ 0%nat) as Hlen.
  { unfold qs. rewrite length_fmap. by destruct (rows df). }
  destruct (lookup_lt_is_Some_2 (merge_sort Qcle qs) 0) as [lo Hlo];
    [rewrite length_merge_sort; lia|].
  destruct (lookup_lt_is_Some_2 (merge_sort Qcle qs) (length qs - 1)) as [hi Hhi];
    [rewrite length_merge_sort; lia|].
  unfold drop_outlier_prices, price_masks.
  rewrite (getitem_in df "price_usd" Hcol), !bind_Ok_l, Hs, Hlower, Hupper.
  rewrite (percentile_0 _ _ Hlo), bind_Ok_l, series_cmp_numeric, !bind_Ok_l.
  rewrite (percentile_100 _ _ Hhi), bind_Ok_l, series_cmp_numeric, !bind_Ok_l.
  simpl. rewrite zip_with_fmap_same. unfold qs, pd.getitem_mask.
  rewrite <-!list_fmap_compose, select_fmap_mask, filter_all; [by destruct df|].
  intros r Hr. simpl.
  destruct (sorted_bounds qs lo hi (fin r) Hlo Hhi) as [Hl Hh];
    [by apply list_elem_of_fmap_2|].
  unfold fge, fle. by rewrite !bool_decide_eq_true_2.
Qed.

(** C6 as stated fails on a normalised frame with a missing price: the
    listing in EUR has the price NaN, both percentiles are NaN, and with the
    band from 0 to 100 neither of the two rows is kept. *)
Lemma full_band_drops_frame_with_nan :
  standardize_currency unknown_frame = Ok unknown_normalized ∧
  outliers_percentile_price_lower sample_conf = 0 ∧
  outliers_percentile_price_upper sample_conf = Qc_of_Z 100 ∧
  drop_outlier_prices sample_conf unknown_normalized = Ok no_rows ∧
  length (rows unknown_normalized) = 2%nat ∧
  length (rows no_rows) = 0%nat.
Proof. split; [by_compute|]. do 2 (split; [reflexivity|]). split; [by_compute|done]. Qed.

(** ** Missing prices do not survive *)

Lemma fle_true (a b : float) :
  fle a b = true → ∃ x y, a = Fin x ∧ b = Fin y ∧ x ≤ y.
Proof.
  destruct a as [x|], b as [y|]; try done. simpl.
  intros Hxy%bool_decide_eq_true. eauto.
Qed.

Lemma in_band_true (lo hi x : float) :
  in_band lo hi x = true → ∃ q, x = Fin q.
Proof.
  unfold in_band, fge. intros [(? & q & _ & -> & _)%fle_true _]%andb_true_iff. eauto.
Qed.

Lemma length_series_of_scalars (l : list (option float)) :
  length (series_of_scalars l) = length l.
Proof. unfold series_of_scalars. destruct (forallb _ l); by rewrite length_fmap. Qed.

(** The value that the series holds for a scalar [Some x] is [x]; for
    [None] it is NaN or [None]. *)
Lemma series_of_scalars_lookup (l : list (option float)) (i : nat) (o : option float) :
  l !! i = Some o →
  series_of_scalars l !! i = Some (VNum (default NaN o)) ∨
  (o = None ∧ series_of_scalars l !! i = Some VNone).
Proof.
  intros Hi. unfold series_of_scalars.
  destruct (forallb _ l) eqn:Hall; rewrite list_lookup_fmap, Hi; simpl; [|by left].
  right. split; [|done].
  rewrite forallb_forall in Hall. specialize (Hall o).
  apply bool_decide_eq_true in Hall; [done|].
  apply list_elem_of_In. by eapply list_elem_of_lookup_2.
Qed.

Lemma normalized_column (rs : list Row) (s : list value) :
  length s = length rs →
  (λ r, default (VNum NaN) (cells r !! "price_usd")) <$>
    ((λ r, mkRow (label r) (filter (λ kv, kv.1 ∉ ["price"; "currency"]) (cells r))) <$>
       zip_with (λ r v, mkRow (label r) (<["price_usd" := v]> (cells r))) rs s)
  = s.
Proof.
  revert s. induction rs as [|r rs IH]; intros [|v s]; try done.
  simpl. intros [= Hlen]. f_equal; [|by apply IH].
  erewrite map_lookup_filter_Some_2; [done|apply lookup_insert_eq|].
  simpl. rewrite !elem_of_cons, elem_of_nil. intros [?|[?|[]]]; done.
Qed.

(** The normaliser, stage by stage: the scalars of the rows, the column
    that holds them, and the rows they end up in. *)
Lemma standardize_currency_series (df normalized : DataFrame) :
  standardize_currency df = Ok normalized →
  ∃ l,
    Forall2 (λ r o, price_usd_of_row r = Ok o) (rows df) l ∧
    pd.getitem normalized "price_usd" = Ok (series_of_scalars l) ∧
    rows normalized
    = (λ r, mkRow (label r) (filter (λ kv, kv.1 ∉ ["price"; "currency"]) (cells r))) <$>
        zip_with (λ r v, mkRow (label r) (<["price_usd" := v]> (cells r)))
          (rows df) (series_of_scalars l).
Proof.
  intros Hn. pose proof Hn as (_ & l & Hl & Hdrop)%standardize_currency_Ok.
  apply mapM_Ok in Hl. exists l. split; [done|].
  pose proof Hdrop as (_ & Hrows & _)%drop_Ok. simpl in Hrows.
  split; [|done].
  assert ("price_usd" ∈ columns normalized) as Hcol
    by (apply (standardize_currency_columns _ _ Hn); by right).
  rewrite (getitem_in _ _ Hcol), Hrows. f_equal.
  apply normalized_column. rewrite length_series_of_scalars.
  symmetry. by eapply Forall2_length.
Qed.

Lemma convert_to_usd_finite (amount currency : value) (q : Qc) :
  _convert_to_usd amount currency = Ok (Some (Fin q)) →
  ∃ a code rate,
    amount = VNum (Fin a) ∧ currency = VStr code ∧
    currency_dict !! code = Some (Fin rate) ∧ q = a * rate.
Proof.
  unfold _convert_to_usd. destruct currency as [code| |]; try done.
  destruct (currency_dict !! code) as [rate|] eqn:Hrate; [|done].
  destruct amount as [|a|]; try done.
  destruct a as [a|], rate as [rate|]; try done. simpl.
  intros [= <-]. by exists a, code, rate.
Qed.

Lemma price_usd_of_row_Ok (r : Row) (o : option float) :
  price_usd_of_row r = Ok o →
  ∃ amount currency,
    cells r !! "price" = Some amount ∧ cells r !! "currency" = Some currency ∧
    _convert_to_usd amount currency = Ok o.
Proof.
  unfold price_usd_of_row, row_getitem. intros Heq. inv_bind Heq.
  destruct (cells r !! "price") as [amount|]; [|done].
  destruct (cells r !! "currency") as [currency|]; [|done].
  injection Ha as <-. injection Ha0 as <-. eauto.
Qed.

(** Row [i] of the normalised frame is row [i] of the input with its
    scalar in [price_usd]. *)
Lemma standardize_currency_lookup (df normalized : DataFrame) (i : nat) (r' : Row) :
  standardize_currency df = Ok normalized →
  rows normalized !! i = Some r' →
  ∃ r o v,
    rows df !! i = Some r ∧ price_usd_of_row r = Ok o ∧
    pd.getitem normalized "price_usd"
    = Ok ((λ r, default (VNum NaN) (cells r !! "price_usd")) <$> rows normalized) ∧
    cells r' !! "price_usd" = Some v ∧ label r' = label r ∧
    (v = VNum (default NaN o) ∨ (o = None ∧ v = VNone)).
Proof.
  intros Hn Hi. pose proof Hn as (l & Hl & Hcol & Hrows)%standardize_currency_series.
  rewrite Hrows, list_lookup_fmap, lookup_zip_with in Hi.
  destruct (rows df !! i) as [r|] eqn:Hr; [|done].
  destruct (series_of_scalars l !! i) as [v|] eqn:Hv; [|done].
  simpl in Hi. injection Hi as <-.
  destruct (Forall2_lookup_l _ _ _ _ _ Hl Hr) as (o & Ho & Hro).
  exists r, o, v. split; [done|]. split; [done|]. split.
  { apply getitem_in. apply (standardize_currency_columns _ _ Hn). by right. }
  split; [|split; [done|]].
  - simpl. apply map_lookup_filter_Some_2; [apply lookup_insert_eq|].
    simpl. rewrite !elem_of_cons, elem_of_nil. intros [?|[?|[]]]; done.
  - destruct (series_of_scalars_lookup _ _ _ Ho) as [Hs|[-> Hs]];
      rewrite Hs in Hv; injection Hv as <-; auto.
Qed.

Lemma price_masks_Ok (conf : DataConf) (df : DataFrame) (masks : list bool * list bool) :
  price_masks conf df = Ok masks →
  ∃ lo hi,
    masks.1 = (λ r, fge (price_usd_of r) lo) <$> rows df ∧
    masks.2 = (λ r, fle (price_usd_of r) hi) <$> rows df.
Proof.
  unfold price_masks. intros Heq. inv_bind Heq. injection Heq as <-.
  rewrite Ha in Ha2. injection Ha2 as <-.
  apply series_cmp_Ok in Ha1 as (xs & Hxs & ->).
  apply series_cmp_Ok in Ha4 as (xs' & Hxs' & ->).
  apply getitem_Ok in Ha as [Hc Hs]. rewrite Hs in Hxs, Hxs'.
  apply numeric_column in Hxs, Hxs'. subst xs xs'.
  exists a0, a3. simpl. by rewrite <-!list_fmap_compose.
Qed.

Lemma standardize_currency_length (df normalized : DataFrame) :
  standardize_currency df = Ok normalized →
  length (rows normalized) = length (rows df).
Proof.
  intros (l & Hl & _ & ->)%standardize_currency_series.
  rewrite length_fmap, length_zip_with, length_series_of_scalars.
  apply Forall2_length in Hl. lia.
Qed.

Lemma convert_price_to_usd_Ok (conf : DataConf) (df df' : DataFrame) :
  _convert_price_to_usd conf df = Ok df' →
  ∃ normalized masks,
    standardize_currency df = Ok normalized ∧
    price_masks conf normalized = Ok masks ∧
    df' = pd.getitem_mask normalized (zip_with andb masks.1 masks.2).
Proof.
  unfold _convert_price_to_usd, drop_outlier_prices. intros Heq. inv_bind Heq.
  injection Heq as <-. eauto.
Qed.

(** C10.  Every row that [_convert_price_to_usd] returns comes from a row
    with a numeric price and a currency of the table, and holds the product
    in [price_usd]; a row whose currency is not a key of the table fails
    both comparisons of the band. *)
Theorem survivors_have_known_currency (conf : DataConf) (df df' : DataFrame) :
  _convert_price_to_usd conf df = Ok df' →
  (∀ r', r' ∈ rows df' →
     ∃ r a code rate,
       r ∈ rows df ∧ label r' = label r ∧
       cells r !! "price" = Some (VNum (Fin a)) ∧
       cells r !! "currency" = Some (VStr code) ∧
       currency_dict !! code = Some (Fin rate) ∧
       cells r' !! "price_usd" = Some (VNum (Fin (a * rate)))) ∧
  ∃ normalized masks,
    standardize_currency df = Ok normalized ∧
    price_masks conf normalized = Ok masks ∧
    rows df' = pd.select (rows normalized) (zip_with andb masks.1 masks.2) ∧
    ∀ i r, rows df !! i = Some r →
           (∀ code, cells r !! "currency" = Some (VStr code) →
                    currency_dict !! code = None) →
           masks.1 !! i = Some false ∧ masks.2 !! i = Some false.
Proof.
  intros Hconv.
  pose proof Hconv as (normalized & masks & Hn & Hmasks & ->)%convert_price_to_usd_Ok.
  pose proof Hmasks as (lo & hi & Hlow & Hhigh)%price_masks_Ok.
  split.
  - intros r' Hr'. simpl in Hr'. rewrite Hlow, Hhigh, zip_with_fmap_same in Hr'.
    rewrite select_fmap_mask in Hr'.
    apply list_elem_of_filter in Hr' as [Hband [i Hi]%list_elem_of_lookup_1].
    destruct (standardize_currency_lookup _ _ _ _ Hn Hi)
      as (r & o & v & Hr & Ho & _ & Hv & Hlabel & Hov).
    apply (in_band_true lo hi) in Hband as [q Hq].
    unfold price_usd_of in Hq. rewrite Hv in Hq.
    destruct Hov as [->|[_ ->]]; [|done].
    destruct o as [x|]; [|done]. simpl in Hq. subst x.
    apply price_usd_of_row_Ok in Ho as (amount & currency & Hamount & Hcurrency & Ho).
    apply convert_to_usd_finite in Ho as (a & code & rate & -> & -> & Hrate & ->).
    exists r, a, code, rate. split; [by eapply list_elem_of_lookup_2|]. done.
  - exists normalized, masks. split; [done|]. split; [done|]. split; [done|].
    intros i r Hr Hout.
    destruct (lookup_lt_is_Some_2 (rows normalized) i) as [r' Hr'].
    { rewrite (standardize_currency_length _ _ Hn). by eapply lookup_lt_Some. }
    destruct (standardize_currency_lookup _ _ _ _ Hn Hr')
      as (r0 & o & v & Hr0 & Ho & _ & Hv & _ & Hov).
    rewrite Hr in Hr0. injection Hr0 as <-.
    apply price_usd_of_row_Ok in Ho as (amount & currency & _ & Hcurrency & Ho).
    rewrite (convert_to_usd_outside_table amount currency) in Ho
      by (intros code ->; by apply Hout).
    injection Ho as <-.
    assert (price_usd_of r' = NaN) as Hnan.
    { unfold price_usd_of. rewrite Hv. by destruct Hov as [->|[_ ->]]. }
    rewrite Hlow, Hhigh, !list_lookup_fmap, Hr'. simpl. rewrite Hnan.
    by destruct lo, hi.
Qed.

Lemma survivors_have_known_currency_witness :
  (∀ r', r' ∈ rows no_rows →
     ∃ r a code rate,
       r ∈ rows unknown_frame ∧ label r' = label r ∧
       cells r !! "price" = Some (VNum (Fin a)) ∧
       cells r !! "currency" = Some (VStr code) ∧
       currency_dict !! code = Some (Fin rate) ∧
       cells r' !! "price_usd" = Some (VNum (Fin (a * rate)))) ∧
  ∃ normalized masks,
    standardize_currency unknown_frame = Ok normalized ∧
    price_masks sample_conf normalized = Ok masks ∧
    rows no_rows = pd.select (rows normalized) (zip_with andb masks.1 masks.2) ∧
    ∀ i r, rows unknown_frame !! i = Some r →
           (∀ code, cells r !! "currency" = Some (VStr code) →
                    currency_dict !! code = None) →
           masks.1 !! i = Some false ∧ masks.2 !! i = Some false.
Proof.
  apply (survivors_have_known_currency sample_conf unknown_frame no_rows).
  by_compute.
Defined.

(** ** Percentiles grow with the rank *)

Lemma lerp_step_bounds (a b g : Qc) :
  a ≤ b → 0 ≤ g → g ≤ 1 → a ≤ a + (b - a) * g ∧ a + (b - a) * g ≤ b.
Proof.
  intros Hab Hg0 Hg1. qc_to_q.
  assert (0 <= (b + - a) * g)%Q by (apply Qmult_le_0_compat; lra).
  assert (0 <= (b + - a) * (1 - g))%Q by (apply Qmult_le_0_compat; lra).
  split; lra.
Qed.

Lemma lerp_step_mono (a b g1 g2 : Qc) :
  a ≤ b → g1 ≤ g2 → a + (b - a) * g1 ≤ a + (b - a) * g2.
Proof.
  intros Hab Hg. qc_to_q.
  assert (0 <= (b + - a) * (g2 - g1))%Q by (apply Qmult_le_0_compat; lra). lra.
Qed.

Lemma fraction_bounds (h : Qc) :
  0 ≤ h - Qc_of_Z (Qfloor h) ∧ h - Qc_of_Z (Qfloor h) ≤ 1.
Proof.
  pose proof (Qfloor_le h) as Hle. pose proof (Qlt_floor h) as Hlt.
  rewrite inject_Z_plus in Hlt. change (inject_Z 1) with 1%Q in Hlt.
  qc_to_q. split; lra.
Qed.

Lemma fraction_mono (h1 h2 : Qc) :
  h1 ≤ h2 → Qfloor h1 = Qfloor h2 →
  h1 - Qc_of_Z (Qfloor h1) ≤ h2 - Qc_of_Z (Qfloor h2).
Proof. intros Hh ->. qc_to_q. lra. Qed.

Lemma floor_rank (n : nat) (h : Qc) :
  0 ≤ h → h ≤ Qc_of_Z (Z.of_nat n) → (Z.to_nat (Qfloor h) ≤ n)%nat.
Proof.
  intros H0 Hn. apply (Qfloor_resp_le h (Qc_of_Z (Z.of_nat n))) in Hn.
  rewrite Qfloor_Qc_of_Z in Hn. lia.
Qed.

(** The two ranks around [h] and the value between them. *)
Lemma lerp_between (s : list Qc) (h : Qc) :
  StronglySorted Qcle s → s ≠ [] →
  0 ≤ h → h ≤ Qc_of_Z (Z.of_nat (length s - 1)) →
  ∃ a b,
    s !! Z.to_nat (Qfloor h) = Some a ∧
    s !! Nat.min (Z.to_nat (Qfloor h) + 1) (length s - 1) = Some b ∧
    a ≤ b ∧
    np.lerp s h = a + (b - a) * (h - Qc_of_Z (Qfloor h)) ∧
    a ≤ np.lerp s h ∧ np.lerp s h ≤ b.
Proof.
  intros Hs Hne H0 Hn. pose proof (floor_rank _ _ H0 Hn) as Hi.
  assert (length s ≠ 0%nat) as Hlen by (by destruct s).
  destruct (lookup_lt_is_Some_2 s (Z.to_nat (Qfloor h))) as [a Ha]; [lia|].
  destruct (lookup_lt_is_Some_2 s (Nat.min (Z.to_nat (Qfloor h) + 1) (length s - 1)))
    as [b Hb]; [lia|].
  assert (a ≤ b) as Hab
    by (eapply (sorted_lookup_le s _ _ a b Hs); [|exact Ha|exact Hb]; lia).
  exists a, b. split; [done|]. split; [done|]. split; [done|].
  assert (np.lerp s h = a + (b - a) * (h - Qc_of_Z (Qfloor h))) as ->
    by (unfold np.lerp; by rewrite Ha, Hb).
  split; [done|].
  destruct (fraction_bounds h) as [Hg0 Hg1]. by apply lerp_step_bounds.
Qed.

Lemma lerp_mono (s : list Qc) (h1 h2 : Qc) :
  StronglySorted Qcle s → s ≠ [] →
  0 ≤ h1 → h1 ≤ h2 → h2 ≤ Qc_of_Z (Z.of_nat (length s - 1)) →
  np.lerp s h1 ≤ np.lerp s h2.
Proof.
  intros Hs Hne H0 H12 Hn.
  destruct (lerp_between s h1 Hs Hne H0 (Qcle_trans _ _ _ H12 Hn))
    as (a1 & b1 & Ha1 & Hb1 & Hab1 & He1 & _ & Hhi1).
  destruct (lerp_between s h2 Hs Hne (Qcle_trans _ _ _ H0 H12) Hn)
    as (a2 & b2 & Ha2 & Hb2 & Hab2 & He2 & Hlo2 & _).
  pose proof (Qfloor_resp_le h1 h2 H12) as Hfloor.
  pose proof (Qfloor_resp_le 0 h1 H0) as Hfloor0. change (Qfloor 0) with 0%Z in Hfloor0.
  pose proof (floor_rank _ _ (Qcle_trans _ _ _ H0 H12) Hn) as Hi2.
  destruct (decide (Qfloor h1 = Qfloor h2)) as [Heq|Hne12].
  - rewrite He1, He2. rewrite Heq in Ha1, Hb1.
    rewrite Ha2 in Ha1. injection Ha1 as <-. rewrite Hb2 in Hb1. injection Hb1 as <-.
    apply lerp_step_mono; [done|]. by apply fraction_mono.
  - apply (Qcle_trans _ b1); [done|]. apply (Qcle_trans _ a2); [|done].
    eapply (sorted_lookup_le s _ _ b1 a2 Hs); [|exact Hb1|exact Ha2]. lia.
Qed.

Lemma Qcmult_le_compat_l (n x y : Qc) : 0 ≤ n → x ≤ y → n * x ≤ n * y.
Proof. intros Hn Hxy. rewrite !(Qcmult_comm n). by apply Qcmult_le_compat_r. Qed.

Lemma percent_mono (q1 q2 : Qc) : q1 ≤ q2 → q1 / Qc_of_Z 100 ≤ q2 / Qc_of_Z 100.
Proof. intros Hq. unfold Qcdiv. apply Qcmult_le_compat_r; [done|by_compute]. Qed.

Lemma percent_0 : 0 / Qc_of_Z 100 = 0.
Proof. unfold Qcdiv. apply Qcmult_0_l. Qed.

Lemma percent_100 : Qc_of_Z 100 / Qc_of_Z 100 = 1.
Proof. unfold Qcdiv. apply Qcmult_inv_r, Qc_of_Z_100_ne_0. Qed.

Lemma Qc_of_nat_nonneg (n : nat) : 0 ≤ Qc_of_Z (Z.of_nat n).
Proof. unfold Qcle. simpl. unfold Qle. simpl. lia. Qed.

(** The fractional rank of a percentile lies in the sample and grows with
    the percentile. *)
Lemma rank_bounds (n : nat) (q1 q2 : Qc) :
  0 ≤ q1 → q1 ≤ q2 → q2 ≤ Qc_of_Z 100 →
  0 ≤ Qc_of_Z (Z.of_nat n) * (q1 / Qc_of_Z 100) ∧
  Qc_of_Z (Z.of_nat n) * (q1 / Qc_of_Z 100) ≤ Qc_of_Z (Z.of_nat n) * (q2 / Qc_of_Z 100) ∧
  Qc_of_Z (Z.of_nat n) * (q2 / Qc_of_Z 100) ≤ Qc_of_Z (Z.of_nat n).
Proof.
  intros H0 H12 H100. pose proof (Qc_of_nat_nonneg n) as Hn. split; [|split].
  - rewrite <-(Qcmult_0_r (Qc_of_Z (Z.of_nat n))) at 1.
    apply Qcmult_le_compat_l; [done|]. rewrite <-percent_0. by apply percent_mono.
  - apply Qcmult_le_compat_l; [done|]. by apply percent_mono.
  - rewrite <-(Qcmult_1_r (Qc_of_Z (Z.of_nat n))) at 2.
    apply Qcmult_le_compat_l; [done|]. rewrite <-percent_100. by apply percent_mono.
Qed.

(** The percentiles of one sample grow with the percentile, unless the
    sample has a NaN and they are all NaN. *)
Lemma percentile_mono (a : list value) (q1 q2 : Qc) (v1 v2 : float) :
  np.percentile a q1 = Ok v1 → np.percentile a q2 = Ok v2 → q1 ≤ q2 →
  (v1 = NaN ∧ v2 = NaN) ∨ fle v1 v2 = true.
Proof.
  unfold np.percentile. intros H1 H2 H12.
  case_bool_decide as Hq1; [|done]. case_bool_decide as Hq2; [|done].
  destruct a as [|v a]; [done|].
  destruct (mapM np.as_float (v :: a)) as [xs|] eqn:Hxs; [|done].
  destruct (mapM np.finite xs) as [qs|] eqn:Hqs.
  - injection H1 as <-. injection H2 as <-. right. simpl.
    apply bool_decide_eq_true.
    destruct (rank_bounds (length (merge_sort Qcle qs) - 1) q1 q2)
      as (Hr0 & Hr12 & Hrn); [tauto|done|tauto|].
    apply lerp_mono; try done; [apply merge_sort_sorted|].
    intros Hnil. apply (f_equal length) in Hnil. rewrite length_merge_sort in Hnil.
    apply mapM_Some, Forall2_length in Hqs. apply mapM_Some, Forall2_length in Hxs.
    simpl in Hnil, Hxs. lia.
  - injection H1 as <-. injection H2 as <-. by left.
Qed.

Lemma feqb_true (a b : float) : feqb a b = true → ∃ x, a = Fin x ∧ b = Fin x.
Proof.
  destruct a as [x|], b as [y|]; try done. simpl.
  intros ->%bool_decide_eq_true. eauto.
Qed.

Lemma fle_refl (x : Qc) : fle (Fin x) (Fin x) = true.
Proof. simpl. apply bool_decide_eq_true, Qcle_refl. Qed.

Lemma drop_outlier_prices_band (conf : DataConf) (df df' : DataFrame) :
  drop_outlier_prices conf df = Ok df' →
  ∃ s lo hi,
    pd.getitem df "price_usd" = Ok s ∧
    np.percentile s (outliers_percentile_price_lower conf) = Ok lo ∧
    np.percentile s (outliers_percentile_price_upper conf) = Ok hi ∧
    columns df' = columns df ∧
    rows df' = filter (λ r, fge (price_usd_of r) lo = true ∧
                            fle (price_usd_of r) hi = true) (rows df) ∧
    (∀ r, r ∈ rows df' ↔
          r ∈ rows df ∧ fge (price_usd_of r) lo = true ∧ fle (price_usd_of r) hi = true) ∧
    (∀ r, r ∈ rows df → feqb (price_usd_of r) lo = true →
          fge (price_usd_of r) lo = true ∧
          (fle (price_usd_of r) hi = true → r ∈ rows df')) ∧
    (∀ r, r ∈ rows df → feqb (price_usd_of r) hi = true →
          fle (price_usd_of r) hi = true ∧
          (fge (price_usd_of r) lo = true → r ∈ rows df')) ∧
    (outliers_percentile_price_lower conf ≤ outliers_percentile_price_upper conf →
     ∀ r, r ∈ rows df →
          feqb (price_usd_of r) lo = true ∨ feqb (price_usd_of r) hi = true →
          r ∈ rows df').
Proof.
  intros (s & lo & hi & Hs & Hlo & Hhi & ->)%drop_outlier_prices_Ok.
  exists s, lo, hi. do 3 (split; [done|]). split; [done|]. simpl.
  assert (filter (λ r, in_band lo hi (price_usd_of r) = true) (rows df)
          = filter (λ r, fge (price_usd_of r) lo = true ∧
                         fle (price_usd_of r) hi = true) (rows df)) as ->.
  { apply list_filter_iff. intros r. unfold in_band. apply andb_true_iff. }
  split; [done|].
  assert (∀ r, r ∈ filter (λ r, fge (price_usd_of r) lo = true ∧
                                fle (price_usd_of r) hi = true) (rows df) ↔
               r ∈ rows df ∧ fge (price_usd_of r) lo = true ∧
               fle (price_usd_of r) hi = true) as Hin.
  { intros r. rewrite list_elem_of_filter. tauto. }
  split; [exact Hin|]. split; [|split].
  - intros r Hr (x & Hx & ->)%feqb_true. rewrite Hx. unfold fge.
    split; [apply fle_refl|]. intros Hle. apply Hin. rewrite Hx.
    unfold fge. by rewrite fle_refl.
  - intros r Hr (x & Hx & ->)%feqb_true. rewrite Hx.
    split; [apply fle_refl|]. intros Hge. apply Hin. rewrite Hx.
    by rewrite fle_refl.
  - intros Hband r Hr Heq. apply Hin. split; [done|].
    destruct (percentile_mono _ _ _ _ _ Hlo Hhi Hband) as [[-> ->]|Hlohi].
    { by destruct Heq as [(? & _ & ?)%feqb_true|(? & _ & ?)%feqb_true]. }
    destruct Heq as [(x & -> & ->)%feqb_true|(x & -> & ->)%feqb_true]; unfold fge.
    + by rewrite fle_refl.
    + by rewrite fle_refl.
Qed.

Lemma percentile_numeric (xs : list float) (q : Qc) :
  0 ≤ q → q ≤ Qc_of_Z 100 → xs ≠ [] → ∃ v, np.percentile (VNum <$> xs) q = Ok v.
Proof.
  intros H0 H100 Hne. unfold np.percentile.
  rewrite bool_decide_eq_true_2, mapM_as_float_numeric by done.
  destruct xs as [|x xs]; [done|]. rewrite fmap_cons.
  destruct (mapM np.finite (x :: xs)); eauto.
Qed.

(** Lines 140-143 return on a frame with rows and a numeric [price_usd]
    (NaN included), for percentiles between 0 and 100. *)
Lemma drop_outlier_prices_returns (conf : DataConf) (df : DataFrame) :
  "price_usd" ∈ columns df → rows df ≠ [] →
  (∀ r, r ∈ rows df → ∃ x, cells r !! "price_usd" = Some (VNum x)) →
  0 ≤ outliers_percentile_price_lower conf →
  outliers_percentile_price_lower conf ≤ Qc_of_Z 100 →
  0 ≤ outliers_percentile_price_upper conf →
  outliers_percentile_price_upper conf ≤ Qc_of_Z 100 →
  ∃ df', drop_outlier_prices conf df = Ok df'.
Proof.
  intros Hcol Hrows Hnum Hl0 Hl100 Hu0 Hu100.
  assert ((λ r, default (VNum NaN) (cells r !! "price_usd")) <$> rows df
          = VNum <$> (price_usd_of <$> rows df)) as Hs.
  { rewrite <-list_fmap_compose. apply list_fmap_ext.
    intros i r Hr%list_elem_of_lookup_2. destruct (Hnum r Hr) as [x Hx].
    unfold price_usd_of. simpl. by rewrite Hx. }
  assert (price_usd_of <$> rows df ≠ []) as Hne by (by destruct (rows df)).
  destruct (percentile_numeric _ _ Hl0 Hl100 Hne) as [lo Hlo].
  destruct (percentile_numeric _ _ Hu0 Hu100 Hne) as [hi Hhi].
  unfold drop_outlier_prices, price_masks.
  rewrite (getitem_in df "price_usd" Hcol), !bind_Ok_l, Hs.
  rewrite Hlo, bind_Ok_l, series_cmp_numeric, !bind_Ok_l.
  rewrite Hhi, bind_Ok_l, series_cmp_numeric, !bind_Ok_l. eauto.
Qed.

(** ** A run *)

Example wrangle_data_scenario :
  wrangle_data (H := sample_os) sample_conf (sample_self, scenario_fs)
  = (Ok scenario_cleaned,
     (mkDataWrangler ["raw/a.zip"; "raw/b.zip"] "out/data.csv" (Some scenario_cleaned),
      scenario_written)).
Proof. by_compute. Qed.

Example wrangle_data_missing_column :
  wrangle_data (H := sample_os) sample_conf (sample_self, sample_fs)
  = (Raise (KeyError ["lat"; "lon"]), (sample_self, sample_fs)).
Proof. by_compute. Qed.

Example wrangle_data_missing_file :
  wrangle_data (H := sample_os) sample_conf (sample_self, empty_fs)
  = (Raise (FileNotFoundError "raw/a.zip"), (sample_self, empty_fs)).
Proof. by_compute. Qed.

Lemma ingest_data_world (w w' : DataWrangler * FS) (r : Result DataFrame) :
  ingest_data w = (r, w') → w' = w.
Proof.
  unfold ingest_data, mbind, M_bind, get_self, get_fs, lift. simpl.
  destruct (mapM _ _) as [frames|e]; [|by intros [= _ <-]].
  destruct (pd.concat frames) as [d|e]; by intros [= _ <-].
Qed.

Lemma clean_data_Raise (conf : DataConf) (d : DataFrame) (w w' : DataWrangler * FS)
    (e : exn) :
  clean_data conf d w = (Raise e, w') → w' = w.
Proof.
  unfold clean_data, mbind, M_bind, lift, set_df, mret, M_ret.
  destruct (pd.getitem_list d _) as [d1|e1]; [|by intros [= _ <-]].
  destruct (_drop_rows conf d1) as [d2|e2]; [|by intros [= _ <-]].
  destruct (_convert_price_to_usd conf d2) as [d3|e3]; [done|by intros [= _ <-]].
Qed.

(** What [save_data()] does to the files: the frame of the object is
    written at the processed path, or nothing is. *)
Lemma save_data_files `{OS} (self self' : DataWrangler) (fs fs' : FS) (d : DataFrame)
    (r : Result ()) :
  df self = Some d →
  save_data None (self, fs) = (r, (self', fs')) →
  self' = self ∧
  match r with
  | Ok _ => files fs' = <[processed_data_path self :=
                           Csv (mkTable (columns d) (cells <$> rows d))]> (files fs)
  | Raise _ => files fs' = files fs
  end.
Proof.
  intros Hd. unfold save_data, mbind, M_bind, get_self, get_fs, lift, set_fs. simpl.
  rewrite Hd. destruct (os_makedirs fs _) as [ds|e]; [|intros ?; by simplify_eq].
  simpl. unfold to_csv. simpl.
  destruct (os_writable _ _); intros ?; by simplify_eq.
Qed.

(** C9.  When ingestion or cleaning raises, [wrangle_data] raises the same
    exception and leaves the file system as it was; in every run, the files
    afterwards are the files before with the returned frame written at the
    processed path when the run returns, and the files before when it
    raises. *)
Theorem wrangle_data_all_or_nothing `{OS} (conf : DataConf) (self self' : DataWrangler)
    (fs fs' : FS) (res : Result DataFrame) :
  wrangle_data conf (self, fs) = (res, (self', fs')) →
  (∀ e w, ingest_data (self, fs) = (Raise e, w) → res = Raise e ∧ fs' = fs) ∧
  (∀ d e w w1, ingest_data (self, fs) = (Ok d, w) → clean_data conf d w = (Raise e, w1) →
               res = Raise e ∧ fs' = fs) ∧
  match res with
  | Ok d =>
      files fs' = <[processed_data_path self :=
                     Csv (mkTable (columns d) (cells <$> rows d))]> (files fs) ∧
      df self' = Some d ∧
      ∃ raw, ingest_data (self, fs) = (Ok raw, (self, fs)) ∧
             clean_data conf raw (self, fs) = (Ok d, (self', fs))
  | Raise _ => files fs' = files fs
  end.
Proof.
  unfold wrangle_data. intros Hrun.
  destruct (ingest_data (self, fs)) as [[raw|e] w] eqn:Hingest.
  2:{ pose proof (ingest_data_world _ _ _ Hingest) as ->.
      unfold mbind, M_bind in Hrun. rewrite Hingest in Hrun. injection Hrun as <- <- <-.
      split; [by intros e' w' [= <- <-]|]. split; [by intros ? ? ? ? [=]|done]. }
  pose proof (ingest_data_world _ _ _ Hingest) as ->.
  split; [by intros ? ? [=]|].
  unfold mbind at 1, M_bind at 1 in Hrun. rewrite Hingest in Hrun.
  destruct (clean_data conf raw (self, fs)) as [[d|e] w] eqn:Hclean.
  2:{ pose proof (clean_data_Raise _ _ _ _ _ Hclean) as ->.
      unfold mbind, M_bind in Hrun. rewrite Hclean in Hrun. injection Hrun as <- <- <-.
      split; [|done]. intros d' e' w' w1' [= <- <-] Hc.
      rewrite Hclean in Hc. by injection Hc as <- _. }
  split; [intros d' e' w' w1' [= <- <-] Hc; by rewrite Hclean in Hc|].
  pose proof Hclean as (_ & _ & _ & _ & _ & _ & _ & ->)%clean_data_Ok. simpl in *.
  unfold mbind at 1, M_bind at 1 in Hrun. rewrite Hclean in Hrun.
  unfold mbind at 1, M_bind at 1, set_df at 1 in Hrun. simpl in Hrun.
  unfold mbind, M_bind in Hrun.
  destruct (save_data None _) as [[[]|e] [self1 fs1]] eqn:Hsave.
  - apply (save_data_files _ _ _ _ d) in Hsave as [-> Hfiles]; [|done].
    injection Hrun as <- <- <-. simpl. eauto.
  - apply (save_data_files _ _ _ _ d) in Hsave as [-> Hfiles]; [|done].
    by injection Hrun as <- <- <-.
Qed.

Lemma wrangle_data_all_or_nothing_witness :
  files scenario_written
  = <["out/data.csv" := Csv (mkTable (columns scenario_cleaned)
                               (cells <$> rows scenario_cleaned))]> (files scenario_fs) ∧
  (∀ d e w w1,
     ingest_data (sample_self, sample_fs) = (Ok d, w) →
     clean_data sample_conf d w = (Raise e, w1) →
     @Raise DataFrame (KeyError ["lat"; "lon"]) = Raise e ∧ sample_fs = sample_fs).
Proof.
  split.
  - apply (wrangle_data_all_or_nothing (H := sample_os) sample_conf sample_self
             (mkDataWrangler ["raw/a.zip"; "raw/b.zip"] "out/data.csv"
                (Some scenario_cleaned))
             scenario_fs scenario_written (Ok scenario_cleaned)).
    by_compute.
  - apply (wrangle_data_all_or_nothing (H := sample_os) sample_conf sample_self
             sample_self sample_fs sample_fs (Raise (KeyError ["lat"; "lon"]))).
    by_compute.
Defined.

(** * Further properties of the stages *)

(** ** The row filter: what it leaves *)

Lemma default_index_lookup (rs : list Row) (i : nat) (r : Row) :
  pd.default_index rs !! i = Some r → label r = VNum (Fin (Qc_of_Z (Z.of_nat i))).
Proof.
  unfold pd.default_index. rewrite list_lookup_imap.
  destruct (rs !! i); [|done]. by intros [= <-].
Qed.

Lemma default_index_twice (rs : list Row) :
  pd.default_index (pd.default_index rs) = pd.default_index rs.
Proof. apply default_index_ext, default_index_cells. Qed.

(** [_drop_rows] on a frame with the category and the required columns is
    [drop_duplicates] of the frame renumbered after the two filters. *)
Lemma drop_rows_eq (conf : DataConf) (df : DataFrame) :
  "l1" ∈ columns df →
  (∀ c, c ∈ drop_rows_nan conf → c ∈ columns df) →
  _drop_rows conf df
  = pd.drop_duplicates (Some (drop_rows_duplicates conf)) true
      (mkDF (columns df)
         (pd.default_index
            (filter (λ r, pd.has_na (drop_rows_nan conf) r = false)
               (filter (λ r, excluded conf (cells r) = false) (rows df))))).
Proof.
  intros Hl1 Hnan. unfold _drop_rows.
  rewrite (getitem_in df "l1" Hl1), bind_Ok_l.
  unfold pd.getitem_mask. rewrite (country_mask conf df _ (getitem_in df "l1" Hl1)).
  unfold pd.dropna. rewrite (missing_columns_nil _ (drop_rows_nan conf)) by done.
  rewrite bind_Ok_l. by destruct (pd.drop_duplicates _ _ _).
Qed.

Lemma drop_duplicates_fixed (subset : list string) (df df' : DataFrame) :
  pd.drop_duplicates (Some subset) true df = Ok df' →
  columns df ≠ [] →
  pd.drop_duplicates (Some subset) true df' = Ok df'.
Proof.
  intros Hdd Hne. pose proof Hdd as [Hcols Hrows]%drop_duplicates_Ok.
  specialize (Hrows Hne). simpl in Hrows.
  unfold pd.drop_duplicates in *.
  rewrite (bool_decide_eq_false_2 (columns df = [])) in Hdd by done.
  rewrite (bool_decide_eq_false_2 (columns df' = [])) by congruence.
  rewrite !orb_false_r in *.
  destruct (bool_decide (rows df' = [])) eqn:Hempty'; [done|].
  apply bool_decide_eq_false in Hempty'.
  destruct (bool_decide (rows df = [])) eqn:Hempty.
  { apply bool_decide_eq_true in Hempty. injection Hdd as <-. done. }
  simpl in *. unfold pd.missing_columns in *. rewrite Hcols.
  destruct (filter _ subset); [|done].
  destruct (bool_decide (subset = [])); [done|].
  destruct df' as [cols' rs']. simpl in *. subst cols' rs'.
  apply (f_equal Ok), (f_equal (mkDF (columns df))).
  etrans; [|apply default_index_twice]. apply default_index_ext.
  rewrite keep_first_row_key, !default_index_cells, <-keep_first_row_key.
  by rewrite keep_first_idemp.
Qed.

Lemma drop_rows_clean (conf : DataConf) (df df' : DataFrame) :
  _drop_rows conf df = Ok df' →
  columns df' = columns df ∧
  (∀ r, r ∈ rows df' →
        (default (VNum NaN) (cells r !! "l1") ∉ drop_rows_countries conf) ∧
        ∀ c, c ∈ drop_rows_nan conf → isna (default (VNum NaN) (cells r !! c)) = false) ∧
  NoDup (pd.row_key (drop_rows_duplicates conf) <$> rows df') ∧
  (∀ i r, rows df' !! i = Some r → label r = VNum (Fin (Qc_of_Z (Z.of_nat i)))) ∧
  records_of df' `sublist_of` records_of df.
Proof.
  intros Hok. pose proof Hok as [Hrec _]%drop_rows_survivors.
  pose proof Hok as (Hl1 & _ & Hdd)%drop_rows_Ok.
  assert (columns df ≠ []) as Hne by (intros Hnil; rewrite Hnil in Hl1; by apply elem_of_nil in Hl1).
  apply drop_duplicates_Ok in Hdd as [Hcols Hrows]. specialize (Hrows Hne).
  simpl in Hcols, Hrows. split; [done|]. split; [|split; [|split]].
  - intros r Hr.
    assert (cells r ∈ records_of df') as Hc by (by apply list_elem_of_fmap_2).
    rewrite Hrec in Hc.
    pose proof (elem_of_sublist _ _ _ Hc (keep_first_sublist _ _ _)) as Hf.
    apply list_elem_of_filter in Hf as [[Hex Hna] _]. split.
    + unfold excluded in Hex. by apply bool_decide_eq_false in Hex.
    + intros c Hc'. unfold pd.cells_have_na in Hna.
      destruct (isna _) eqn:Hisna; [|done].
      assert (existsb (λ c, isna (default (VNum NaN) (cells r !! c)))
                (drop_rows_nan conf) = true) as Hex'; [|congruence].
      apply existsb_exists. exists c. split; [by apply list_elem_of_In|done].
  - change (pd.row_key (drop_rows_duplicates conf))
      with (pd.cells_key (drop_rows_duplicates conf) ∘ cells).
    rewrite list_fmap_compose. fold (records_of df'). rewrite Hrec.
    apply keep_first_NoDup.
  - intros i r Hi. rewrite Hrows in Hi. by apply default_index_lookup in Hi.
  - rewrite Hrec. etrans; [apply keep_first_sublist|apply sublist_filter].
Qed.

(** X1.  What [_drop_rows] leaves: the columns as they were; no row of an
    excluded country; no row with a missing value in a required column; no
    two rows with the same key; the labels 0, 1, 2, ...; and records of the
    input, in their order. *)
Theorem drop_rows_leaves_clean_rows (conf : DataConf) (df df' : DataFrame) :
  _drop_rows conf df = Ok df' →
  columns df' = columns df ∧
  (∀ r, r ∈ rows df' →
        (default (VNum NaN) (cells r !! "l1") ∉ drop_rows_countries conf) ∧
        ∀ c, c ∈ drop_rows_nan conf → isna (default (VNum NaN) (cells r !! c)) = false) ∧
  NoDup (pd.row_key (drop_rows_duplicates conf) <$> rows df') ∧
  (∀ i r, rows df' !! i = Some r → label r = VNum (Fin (Qc_of_Z (Z.of_nat i)))) ∧
  records_of df' `sublist_of` records_of df.
Proof. apply drop_rows_clean. Qed.

Lemma drop_rows_leaves_clean_rows_witness :
  columns shadowed_filtered = columns shadowed_frame ∧
  (∀ r, r ∈ rows shadowed_filtered →
        (default (VNum NaN) (cells r !! "l1") ∉ drop_rows_countries sample_conf) ∧
        ∀ c, c ∈ drop_rows_nan sample_conf →
             isna (default (VNum NaN) (cells r !! c)) = false) ∧
  NoDup (pd.row_key (drop_rows_duplicates sample_conf) <$> rows shadowed_filtered) ∧
  (∀ i r, rows shadowed_filtered !! i = Some r →
          label r = VNum (Fin (Qc_of_Z (Z.of_nat i)))) ∧
  records_of shadowed_filtered `sublist_of` records_of shadowed_frame.
Proof.
  apply (drop_rows_leaves_clean_rows sample_conf shadowed_frame shadowed_filtered).
  by_compute.
Defined.

(** X2.  [_drop_rows] is idempotent: on the frame it returned, it returns
    the same frame. *)
Theorem drop_rows_idempotent (conf : DataConf) (df df' : DataFrame) :
  _drop_rows conf df = Ok df' → _drop_rows conf df' = Ok df'.
Proof.
  intros Hok.
  pose proof (drop_rows_clean conf df df' Hok) as (Hcols & Hclean & _ & Hlabels & _).
  pose proof Hok as (Hl1 & Hnan & Hdd)%drop_rows_Ok.
  assert (columns df ≠ []) as Hne by (intros Hnil; rewrite Hnil in Hl1; by apply elem_of_nil in Hl1).
  rewrite drop_rows_eq by (rewrite Hcols; done).
  rewrite !filter_all.
  - apply (drop_duplicates_ext _ df'); simpl; [|congruence|done|apply default_index_cells].
    by apply (drop_duplicates_fixed _ _ _ Hdd).
  - intros r Hr. destruct (Hclean r Hr) as [Hex _].
    unfold excluded. by apply bool_decide_eq_false.
  - intros r [_ Hr]%list_elem_of_filter. destruct (Hclean r Hr) as [_ Hna].
    unfold pd.has_na, pd.cells_have_na.
    destruct (existsb _ _) eqn:Hex; [|done].
    apply existsb_exists in Hex as (c & Hc%list_elem_of_In & Hisna).
    by rewrite (Hna c Hc) in Hisna.
Qed.

Lemma drop_rows_idempotent_witness :
  _drop_rows sample_conf shadowed_filtered = Ok shadowed_filtered.
Proof.
  apply (drop_rows_idempotent sample_conf shadowed_frame shadowed_filtered).
  by_compute.
Defined.

(** X3.  With no excluded country and no required column, the first two
    rules of [_drop_rows] do nothing: the records it returns are the first
    occurrences of the keys among all the records. *)
Theorem drop_rows_without_rules (conf : DataConf) (df df' : DataFrame) :
  drop_rows_countries conf = [] → drop_rows_nan conf = [] →
  _drop_rows conf df = Ok df' →
  records_of df'
  = pd.keep_first (pd.cells_key (drop_rows_duplicates conf)) [] (records_of df).
Proof.
  intros Hcountries Hnan [-> _]%drop_rows_survivors. f_equal.
  apply filter_all. intros m _. unfold excluded, pd.cells_have_na.
  rewrite Hcountries, Hnan. split; [|done].
  apply bool_decide_eq_false. apply not_elem_of_nil.
Qed.

Lemma drop_rows_without_rules_witness :
  records_of shadowed_first
  = pd.keep_first (pd.cells_key (drop_rows_duplicates median_conf)) []
      (records_of shadowed_frame).
Proof.
  apply (drop_rows_without_rules median_conf shadowed_frame shadowed_first).
  - reflexivity.
  - reflexivity.
  - by_compute.
Defined.

(** X4.  The errors of [_drop_rows], in the order of its three steps: a
    frame without the column [l1] gives [KeyError] for [l1]; with it, the
    required columns that the frame does not have give [KeyError] for them;
    with them, a key column that the frame does not have gives [KeyError]
    only when some row passes the first two rules, and the frame without
    rows is returned when none does. *)
Theorem drop_rows_errors (conf : DataConf) (df : DataFrame) :
  ("l1" ∉ columns df → _drop_rows conf df = Raise (KeyError ["l1"])) ∧
  ("l1" ∈ columns df → pd.missing_columns df (drop_rows_nan conf) ≠ [] →
   _drop_rows conf df = Raise (KeyError (pd.missing_columns df (drop_rows_nan conf)))) ∧
  ("l1" ∈ columns df → pd.missing_columns df (drop_rows_nan conf) = [] →
   filter (λ r, pd.has_na (drop_rows_nan conf) r = false)
     (filter (λ r, excluded conf (cells r) = false) (rows df)) ≠ [] →
   pd.missing_columns df (drop_rows_duplicates conf) ≠ [] →
   ∃ ks, _drop_rows conf df = Raise (KeyError ks) ∧
         ∀ c, c ∈ ks ↔ c ∈ drop_rows_duplicates conf ∧ c ∉ columns df) ∧
  ("l1" ∈ columns df → pd.missing_columns df (drop_rows_nan conf) = [] →
   filter (λ r, pd.has_na (drop_rows_nan conf) r = false)
     (filter (λ r, excluded conf (cells r) = false) (rows df)) = [] →
   _drop_rows conf df = Ok (mkDF (columns df) [])).
Proof.
  assert (∀ subset, pd.missing_columns df subset = [] →
                    ∀ c, c ∈ subset → c ∈ columns df) as Hall.
  { intros subset Hnil c Hc. destruct (decide (c ∈ columns df)) as [|Hno]; [done|].
    assert (c ∈ pd.missing_columns df subset) as Hin
      by (apply list_elem_of_filter; done).
    rewrite Hnil in Hin. by apply elem_of_nil in Hin. }
  split; [|split; [|split]].
  - intros Hl1. unfold _drop_rows, pd.getitem. by rewrite decide_False.
  - intros Hl1 Hmiss. unfold _drop_rows.
    rewrite (getitem_in df "l1" Hl1), bind_Ok_l. unfold pd.dropna.
    change (pd.missing_columns (pd.getitem_mask df _) (drop_rows_nan conf))
      with (pd.missing_columns df (drop_rows_nan conf)).
    destruct (pd.missing_columns df (drop_rows_nan conf)); [by destruct Hmiss|].
    reflexivity.
  - intros Hl1 Hnan Hsome Hmiss.
    exists (pd.missing_columns df (drop_rows_duplicates conf)). split.
    2:{ intros c. unfold pd.missing_columns. rewrite list_elem_of_filter. tauto. }
    rewrite drop_rows_eq; [|done|by apply Hall].
    unfold pd.drop_duplicates. simpl.
    assert (columns df ≠ [])
      by (intros Hnil; rewrite Hnil in Hl1; by apply elem_of_nil in Hl1).
    rewrite (bool_decide_eq_false_2 (columns df = [])) by done.
    rewrite bool_decide_eq_false_2.
    2:{ intros Hnil. apply Hsome. apply (f_equal length) in Hnil.
        unfold pd.default_index in Hnil. rewrite length_imap in Hnil.
        by apply nil_length_inv. }
    simpl.
    change (pd.missing_columns (mkDF (columns df) _) (drop_rows_duplicates conf))
      with (pd.missing_columns df (drop_rows_duplicates conf)).
    destruct (pd.missing_columns df (drop_rows_duplicates conf));
      [by destruct Hmiss|].
    reflexivity.
  - intros Hl1 Hnan Hnone. rewrite drop_rows_eq; [|done|by apply Hall]. rewrite Hnone.
    reflexivity.
Qed.

Lemma drop_rows_errors_witness :
  _drop_rows sample_conf (mkDF ["lat"; "lon"] []) = Raise (KeyError ["l1"]) ∧
  _drop_rows sample_conf (mkDF ["l1"; "lon"] []) = Raise (KeyError ["lat"]) ∧
  (∃ ks, _drop_rows wrong_key_conf sample_frame = Raise (KeyError ks) ∧
         ∀ c, c ∈ ks ↔ c ∈ drop_rows_duplicates wrong_key_conf ∧
                       c ∉ columns sample_frame) ∧
  _drop_rows wrong_key_conf excluded_frame = Ok (mkDF sample_columns []).
Proof.
  split; [|split; [|split]].
  - apply (proj1 (drop_rows_errors sample_conf (mkDF ["lat"; "lon"] []))).
    by_compute.
  - apply (proj1 (proj2 (drop_rows_errors sample_conf (mkDF ["l1"; "lon"] [])))).
    + by_compute.
    + discriminate.
  - apply (proj1 (proj2 (proj2 (drop_rows_errors wrong_key_conf sample_frame)))).
    + by_compute.
    + reflexivity.
    + discriminate.
    + discriminate.
  - apply (proj2 (proj2 (proj2 (drop_rows_errors wrong_key_conf excluded_frame)))).
    + by_compute.
    + reflexivity.
    + reflexivity.
Defined.

(** ** The price stage: frames it does not return *)

Lemma convert_price_to_usd_no_rows (conf : DataConf) (df : DataFrame) :
  rows df = [] → "price" ∈ columns df → "currency" ∈ columns df →
  _convert_price_to_usd conf df = Raise ValueError.
Proof.
  intros Hrows Hprice Hcurrency.
  unfold _convert_price_to_usd, standardize_currency, df_apply.
  rewrite (bool_decide_eq_true_2 (rows df = [])) by done. simpl.
  destruct (columns df) as [|c1 [|c2 cols]]; [|exfalso|done].
  - by apply elem_of_nil in Hprice.
  - apply list_elem_of_singleton in Hprice, Hcurrency. congruence.
Qed.

(** X5.  When the row filter leaves no row, [clean_data] does not return
    the frame without rows: the assignment of line 135 raises [ValueError],
    and the object keeps the frame it had. *)
Theorem clean_data_nothing_left (conf : DataConf) (raw kept filtered : DataFrame)
    (w : DataWrangler * FS) :
  pd.getitem_list raw (keep_columns conf) = Ok kept →
  _drop_rows conf kept = Ok filtered →
  rows filtered = [] →
  "price" ∈ keep_columns conf → "currency" ∈ keep_columns conf →
  clean_data conf raw w = (Raise ValueError, w).
Proof.
  intros Hkept Hfiltered Hrows Hprice Hcurrency.
  assert (columns filtered = keep_columns conf) as Hcols.
  { rewrite (drop_rows_columns _ _ _ Hfiltered). by eapply getitem_list_Ok. }
  unfold clean_data, mbind, M_bind, lift. rewrite Hkept, Hfiltered.
  rewrite convert_price_to_usd_no_rows; [done..|by rewrite Hcols|by rewrite Hcols].
Qed.

Lemma clean_data_nothing_left_witness :
  clean_data sample_conf excluded_frame (sample_self, empty_fs)
  = (Raise ValueError, (sample_self, empty_fs)).
Proof.
  apply (clean_data_nothing_left sample_conf excluded_frame excluded_frame
           (mkDF sample_columns [])).
  - by_compute.
  - by_compute.
  - reflexivity.
  - by_compute.
  - by_compute.
Defined.

Lemma percentile_of_nan (s : list value) (q : Qc) (v : float) :
  np.percentile s q = Ok v → VNum NaN ∈ s → v = NaN.
Proof.
  unfold np.percentile. intros Hp Hin.
  case_bool_decide; [|done]. destruct s as [|v0 s]; [done|].
  destruct (mapM np.as_float (v0 :: s)) as [xs|] eqn:Hxs; [|done].
  destruct (mapM np.finite xs) as [qs|] eqn:Hqs; [|congruence].
  exfalso. apply mapM_Some in Hxs, Hqs.
  apply list_elem_of_lookup in Hin as [i Hi].
  destruct (Forall2_lookup_l _ _ _ _ _ Hxs Hi) as (x & Hx & Hvx).
  injection Hvx as <-.
  by destruct (Forall2_lookup_l _ _ _ _ _ Hqs Hx) as (? & _ & ?).
Qed.

Lemma percentile_of_none (s : list value) (q : Qc) (v : float) :
  np.percentile s q = Ok v → VNone ∉ s.
Proof.
  unfold np.percentile. intros Hp Hin.
  case_bool_decide; [|done]. destruct s as [|v0 s]; [done|].
  destruct (mapM np.as_float (v0 :: s)) as [xs|] eqn:Hxs; [|done].
  apply mapM_Some in Hxs. apply list_elem_of_lookup in Hin as [i Hi].
  by destruct (Forall2_lookup_l _ _ _ _ _ Hxs Hi) as (? & _ & ?).
Qed.

Lemma filter_none {A} (P : A → Prop) `{!∀ x, Decision (P x)} (l : list A) :
  (∀ x, x ∈ l → ¬ P x) → filter P l = [].
Proof.
  induction l as [|x l IH]; intros Hall; [done|].
  rewrite filter_cons_False by (apply Hall; left).
  apply IH. intros y Hy. apply Hall. by right.
Qed.

(** A row whose price in USD is not a finite number empties the frame:
    the percentile of the column is NaN, and no price compares with NaN. *)
Lemma undefined_price_empties (conf : DataConf) (df df' : DataFrame) (r : Row)
    (o : option float) :
  _convert_price_to_usd conf df = Ok df' →
  r ∈ rows df → price_usd_of_row r = Ok o → default NaN o = NaN →
  rows df' = [].
Proof.
  unfold _convert_price_to_usd. intros Heq Hr Ho Hnan. inv_bind Heq.
  rename a into normalized.
  apply standardize_currency_series in Ha as (l & Hl & Hseries & _).
  apply drop_outlier_prices_band in Heq
    as (s & lo & hi & Hs & Hlo & _ & _ & -> & _).
  rewrite Hseries in Hs. injection Hs as <-.
  apply list_elem_of_lookup in Hr as [i Hi].
  destruct (Forall2_lookup_l _ _ _ _ _ Hl Hi) as (o' & Ho' & Hro').
  rewrite Ho in Hro'. injection Hro' as <-.
  assert (lo = NaN) as ->.
  { destruct (series_of_scalars_lookup _ _ _ Ho') as [Hv|[_ Hv]].
    - rewrite Hnan in Hv. eapply percentile_of_nan; [done|].
      by eapply list_elem_of_lookup_2.
    - exfalso. eapply percentile_of_none; [done|].
      by eapply list_elem_of_lookup_2. }
  apply filter_none. intros x _ [Hge _]. unfold fge, fle in Hge.
  by destruct (price_usd_of x).
Qed.

(** X6.  One row is enough to lose the whole frame: when
    [_convert_price_to_usd] returns and some row of its input has a
    currency outside the table, or a NaN price, the frame it returns has
    no rows. *)
Theorem unconverted_row_empties_frame (conf : DataConf) (df df' : DataFrame) (r : Row) :
  _convert_price_to_usd conf df = Ok df' →
  r ∈ rows df →
  cells r !! "price" = Some (VNum NaN) ∨
  (∃ currency, cells r !! "currency" = Some currency ∧
               ∀ code, currency = VStr code → currency_dict !! code = None) →
  rows df' = [].
Proof.
  intros Heq Hr Hcase.
  assert (∃ o, price_usd_of_row r = Ok o) as [o Ho].
  { unfold _convert_price_to_usd in Heq. inv_bind Heq.
    apply standardize_currency_series in Ha as (l & Hl & _).
    apply list_elem_of_lookup in Hr as [i Hi].
    destruct (Forall2_lookup_l _ _ _ _ _ Hl Hi) as (o & _ & Ho). eauto. }
  apply (undefined_price_empties conf df df' r o Heq Hr Ho).
  apply price_usd_of_row_Ok in Ho as (amount & currency & Hp & Hc & Ho).
  destruct Hcase as [Hprice|(currency' & Hc' & Hnone)].
  - rewrite Hp in Hprice. injection Hprice as ->.
    unfold _convert_to_usd in Ho. destruct currency as [code| |]; [|by injection Ho as <-..].
    destruct (currency_dict !! code) as [rate|]; by injection Ho as <-.
  - rewrite Hc in Hc'. injection Hc' as <-.
    rewrite (convert_to_usd_outside_table amount currency Hnone) in Ho.
    by injection Ho as <-.
Qed.

Lemma unconverted_row_empties_frame_witness :
  _convert_price_to_usd sample_conf unknown_frame = Ok no_rows ∧ rows no_rows = [].
Proof.
  split; [by_compute|].
  apply (unconverted_row_empties_frame sample_conf unknown_frame no_rows
           (listing 32 "Peru" (num 2) (num 2) (num 300) (VStr "EUR"))).
  - by_compute.
  - by_compute.
  - right. exists (VStr "EUR"). split; [reflexivity|].
    intros code [= <-]. reflexivity.
Defined.

Lemma series_of_scalars_none (l : list (option float)) :
  Forall (λ o, o = None) l → series_of_scalars l = (λ _, VNone) <$> l.
Proof.
  intros Hall. unfold series_of_scalars.
  replace (forallb (λ o, bool_decide (o = None)) l) with true; [done|].
  symmetry. apply forallb_forall. intros o Ho%list_elem_of_In.
  apply bool_decide_eq_true. by eapply (proj1 (Forall_forall _ _) Hall).
Qed.

(** X7.  A frame none of whose currencies is in the table is not returned
    without rows: every converted price is [None], the column keeps them
    as objects, and the percentile of line 141 raises [TypeError]. *)
Theorem all_unknown_currencies_raise (conf : DataConf) (df : DataFrame) :
  rows df ≠ [] → "price" ∈ columns df → "currency" ∈ columns df →
  (∀ r, r ∈ rows df →
        is_Some (cells r !! "price") ∧
        ∃ currency, cells r !! "currency" = Some currency ∧
                    ∀ code, currency = VStr code → currency_dict !! code = None) →
  0 ≤ outliers_percentile_price_lower conf →
  outliers_percentile_price_lower conf ≤ Qc_of_Z 100 →
  _convert_price_to_usd conf df = Raise TypeError.
Proof.
  intros Hrows Hprice Hcurrency Hall Hq0 Hq100.
  assert (mapM price_usd_of_row (rows df) = Ok ((λ _, None) <$> rows df)) as Hl.
  { apply mapM_Ok. apply Forall2_fmap_r, Forall_Forall2_diag.
    apply Forall_forall. intros r Hr.
    destruct (Hall r Hr) as ([amount Ha] & currency & Hc & Hnone).
    unfold price_usd_of_row, row_getitem. rewrite Ha, Hc. simpl.
    by apply convert_to_usd_outside_table. }
  assert (columns df ≠ [])
    by (intros Hnil; rewrite Hnil in Hprice; by apply elem_of_nil in Hprice).
  unfold _convert_price_to_usd, standardize_currency, df_apply.
  rewrite (bool_decide_eq_false_2 (rows df = [])) by done.
  rewrite (bool_decide_eq_false_2 (columns df = [])) by done. simpl.
  rewrite Hl. simpl.
  rewrite series_of_scalars_none by (apply Forall_fmap, Forall_true; done).
  unfold pd.drop.
  replace (pd.missing_columns _ ["price"; "currency"]) with (@nil string).
  2:{ symmetry. apply missing_columns_nil. intros c Hc. unfold pd.setitem. simpl.
      assert (c ∈ columns df) as Hin.
      { apply elem_of_cons in Hc as [->|Hc]; [done|].
        by apply list_elem_of_singleton in Hc as ->. }
      case_decide; [done|]. apply elem_of_app. by left. }
  simpl. unfold drop_outlier_prices, price_masks.
  rewrite getitem_in.
  2:{ simpl. apply list_elem_of_filter. split.
      - intros Hin. apply elem_of_cons in Hin as [?|Hin]; [done|].
        by apply list_elem_of_singleton in Hin.
      - case_decide; [done|]. apply elem_of_app. right. by left. }
  simpl. rewrite <- !list_fmap_compose.
  destruct (rows df) as [|r rs] eqn:Hrs; [done|].
  unfold np.percentile.
  rewrite (bool_decide_eq_true_2 (0 ≤ outliers_percentile_price_lower conf ∧ _))
    by (split; assumption).
  simpl.
  assert (filter (λ kv : string * value, kv.1 ∉ ["price"; "currency"])
            (<["price_usd" := VNone]> (cells r)) !! "price_usd" = Some VNone) as ->.
  { apply map_lookup_filter_Some_2; [apply lookup_insert_eq|].
    simpl. rewrite !elem_of_cons, elem_of_nil. intros [?|[?|[]]]; done. }
  reflexivity.
Qed.

Lemma all_unknown_currencies_raise_witness :
  _convert_price_to_usd sample_conf foreign_frame = Raise TypeError.
Proof.
  apply (all_unknown_currencies_raise sample_conf foreign_frame).
  - discriminate.
  - by_compute.
  - by_compute.
  - intros r Hr. apply elem_of_cons in Hr as [->|Hr].
    + split; [by eexists|]. exists (VStr "EUR"). split; [reflexivity|].
      intros code [= <-]. reflexivity.
    + apply list_elem_of_singleton in Hr as ->.
      split; [by eexists|]. exists (VStr "BRL"). split; [reflexivity|].
      intros code [= <-]. reflexivity.
  - by_compute.
  - by_compute.
Defined.

(** X8.  [_convert_price_to_usd] cannot be applied to a frame it returned:
    the columns [price] and [currency] are gone, so the second call raises,
    with [KeyError] for [price] as soon as the frame has a row. *)
Theorem convert_price_to_usd_not_twice (conf : DataConf) (df df' : DataFrame) :
  _convert_price_to_usd conf df = Ok df' →
  ∃ e, _convert_price_to_usd conf df' = Raise e ∧
       (rows df' ≠ [] → e = KeyError ["price"]).
Proof.
  intros Heq. unfold _convert_price_to_usd in Heq. inv_bind Heq.
  rename a into normalized, Ha into Hn.
  assert (columns df' = columns normalized) as Hcols
    by (by eapply drop_outlier_prices_columns).
  assert ("price_usd" ∈ columns df') as Hpu.
  { rewrite Hcols. apply (standardize_currency_columns _ _ Hn). by right. }
  assert (∀ r, r ∈ rows df' → cells r !! "price" = None) as Hnone.
  { intros r Hr.
    apply drop_outlier_prices_band in Heq as (s & lo & hi & _ & _ & _ & _ & _ & Hin & _).
    apply Hin in Hr as [Hr _].
    destruct (standardize_currency_rows _ _ _ Hn Hr) as (x & v & _ & _ & Hcells).
    rewrite Hcells. apply map_lookup_filter_None. right. intros v' _. simpl.
    intros Hno. apply Hno. by left. }
  destruct (rows df') as [|r rs] eqn:Hrows.
  - unfold _convert_price_to_usd.
    destruct (standardize_currency df') as [d|e] eqn:Hs.
    + apply standardize_currency_Ok in Hs as [Hne _]. by rewrite Hrows in Hne.
    + exists e. by split.
  - exists (KeyError ["price"]). split; [|done].
    assert (columns df' ≠ [])
      by (intros Hnil; rewrite Hnil in Hpu; by apply elem_of_nil in Hpu).
    unfold _convert_price_to_usd, standardize_currency, df_apply.
    rewrite Hrows. rewrite (bool_decide_eq_false_2 (columns df' = [])) by done.
    simpl.
    assert (price_usd_of_row r = Raise (KeyError ["price"])) as ->.
    { unfold price_usd_of_row, row_getitem. by rewrite (Hnone r) by (by left). }
    reflexivity.
Qed.

Lemma convert_price_to_usd_not_twice_witness :
  ∃ e, _convert_price_to_usd sample_conf sample_normalized = Raise e ∧
       (rows sample_normalized ≠ [] → e = KeyError ["price"]).
Proof.
  apply (convert_price_to_usd_not_twice sample_conf sample_frame sample_normalized).
  by_compute.
Defined.

(** ** The price stage: percentiles outside the range *)

Lemma percentile_outside_range (s : list value) (q : Qc) :
  q < 0 ∨ Qc_of_Z 100 < q → np.percentile s q = Raise ValueError.
Proof.
  intros Hq. unfold np.percentile. rewrite bool_decide_eq_false_2; [done|].
  intros [H0 H100]. destruct Hq as [Hq|Hq].
  - by apply Qclt_not_le in Hq.
  - by apply Qclt_not_le in Hq.
Qed.

Lemma series_of_scalars_some (l : list (option float)) (x : float) :
  Some x ∈ l → series_of_scalars l = VNum <$> (default NaN <$> l).
Proof.
  intros Hin. unfold series_of_scalars.
  replace (forallb (λ o, bool_decide (o = None)) l) with false.
  - by rewrite <- list_fmap_compose.
  - symmetry. apply not_true_is_false. intros Hall.
    rewrite forallb_forall in Hall. apply list_elem_of_In, Hall in Hin.
    by apply bool_decide_eq_true in Hin.
Qed.

(** X9.  A percentile of the configuration outside 0..100 makes the price
    stage raise [ValueError] once the prices are converted: at line 141 for
    the lower one, and at line 142 for the upper one when some price was
    converted to a number. *)
Theorem percentile_outside_range_raises (conf : DataConf) (df normalized : DataFrame) :
  standardize_currency df = Ok normalized →
  (outliers_percentile_price_lower conf < 0 ∨
   Qc_of_Z 100 < outliers_percentile_price_lower conf →
   _convert_price_to_usd conf df = Raise ValueError) ∧
  (0 ≤ outliers_percentile_price_lower conf →
   outliers_percentile_price_lower conf ≤ Qc_of_Z 100 →
   outliers_percentile_price_upper conf < 0 ∨
   Qc_of_Z 100 < outliers_percentile_price_upper conf →
   (∃ r a code, r ∈ rows df ∧ cells r !! "price" = Some (VNum a) ∧
                cells r !! "currency" = Some (VStr code) ∧
                is_Some (currency_dict !! code)) →
   _convert_price_to_usd conf df = Raise ValueError).
Proof.
  intros Hn. pose proof (standardize_currency_series _ _ Hn) as (l & Hl & Hs & _).
  unfold _convert_price_to_usd. rewrite Hn, bind_Ok_l.
  unfold drop_outlier_prices, price_masks. split.
  - intros Hq. rewrite Hs, !bind_Ok_l. by rewrite percentile_outside_range.
  - intros Hq0 Hq100 Hupper (r & a & code & Hr & Hp & Hc & [rate Hrate]).
    apply list_elem_of_lookup in Hr as [i Hi].
    destruct (Forall2_lookup_l _ _ _ _ _ Hl Hi) as (o & Ho & Hro).
    assert (o = Some (fmul a rate)) as ->.
    { unfold price_usd_of_row, row_getitem in Hro. rewrite Hp, Hc in Hro.
      simpl in Hro. rewrite Hrate in Hro. by injection Hro as <-. }
    rewrite (series_of_scalars_some l (fmul a rate)) in Hs
      by (by eapply list_elem_of_lookup_2).
    rewrite Hs, !bind_Ok_l.
    destruct (percentile_numeric (default NaN <$> l)
                (outliers_percentile_price_lower conf)) as [lo Hlo]; [done..| |].
    { intros Hnil. apply fmap_nil_inv in Hnil. by rewrite Hnil in Ho. }
    rewrite Hlo, bind_Ok_l, series_cmp_numeric, !bind_Ok_l. cbv beta.
    by rewrite percentile_outside_range.
Qed.

Lemma percentile_outside_range_raises_witness :
  _convert_price_to_usd below_range_conf sample_frame = Raise ValueError ∧
  _convert_price_to_usd above_range_conf sample_frame = Raise ValueError.
Proof.
  split.
  - apply (proj1 (percentile_outside_range_raises below_range_conf sample_frame
                    sample_normalized ltac:(by_compute))).
    left. by_compute.
  - apply (proj2 (percentile_outside_range_raises above_range_conf sample_frame
                    sample_normalized ltac:(by_compute))).
    + by_compute.
    + by_compute.
    + right. by_compute.
    + exists (listing 11 "Peru" (num 1) (num 1) (num 100) (VStr "PEN")),
        (Fin (Q2Qc 100)), "PEN".
      split; [by_compute|]. split; [reflexivity|]. split; [reflexivity|].
      by eexists.
Defined.

(** * Further properties of the class *)

(** ** Ingestion *)

(** The read of the comprehension, by the file that the path names. *)
Lemma read_raw_file_eq (fs : FS) (p : string) :
  read_raw_file fs p
  = match files fs !! p with
    | None => Raise (FileNotFoundError p)
    | Some (ZipCsv t) =>
        if decide ("id" ∈ header t) then Ok (set_index "id" t) else Raise ValueError
    | Some _ => Raise (BadZipFile p)
    end.
Proof.
  unfold read_raw_file, read_csv.
  set (kw := [("compression", AStr "zip"); ("low_memory", ABool false);
              ("index_col", AStr "id")]).
  replace (filter (λ kv : string * pyarg, kv.1 ∉ read_csv_parameters) kw)
    with (@nil (string * pyarg)) by (by vm_compute).
  replace (kwarg kw "compression") with (Some (AStr "zip")) by (by vm_compute).
  replace (kwarg kw "index_col") with (Some (AStr "id")) by (by vm_compute).
  by destruct (files fs !! p) as [[t| |]|].
Qed.

Lemma mapM_first_Raise {A B} (f : A → Result B) (before after : list A) (p : A)
    (e : exn) :
  Forall (λ q, ∃ y, f q = Ok y) before → f p = Raise e →
  mapM f (before ++ p :: after) = Raise e.
Proof.
  intros Hall Hp. induction Hall as [|q before [y Hy] _ IH]; simpl.
  - by rewrite Hp.
  - by rewrite Hy, IH.
Qed.

(** X10.  The failures of [ingest_data].  Without paths there is nothing to
    concatenate: [ValueError].  Otherwise the first path that cannot be
    read decides, whatever follows it: [FileNotFoundError] when it names no
    file, [BadZipFile] when the file is no archive, [ValueError] when the
    archive has no column [id].  The object and the files stay as they
    were. *)
Theorem ingest_data_failures (self : DataWrangler) (fs : FS) :
  (raw_data_path self = [] →
   ingest_data (self, fs) = (Raise ValueError, (self, fs))) ∧
  (∀ before p after e,
     raw_data_path self = before ++ p :: after →
     Forall (λ q, ∃ frame, read_raw_file fs q = Ok frame) before →
     read_raw_file fs p = Raise e →
     ingest_data (self, fs) = (Raise e, (self, fs)) ∧
     e = match files fs !! p with
         | None => FileNotFoundError p
         | Some (ZipCsv _) => ValueError
         | Some _ => BadZipFile p
         end).
Proof.
  split.
  - intros Hnil. unfold ingest_data, mbind, M_bind, get_self, get_fs, lift. simpl.
    by rewrite Hnil.
  - intros before p after e Hpaths Hbefore Hp. split.
    + unfold ingest_data, mbind, M_bind, get_self, get_fs, lift. simpl.
      by rewrite Hpaths, (mapM_first_Raise _ _ _ _ e).
    + rewrite read_raw_file_eq in Hp.
      destruct (files fs !! p) as [[t| |]|]; [|congruence..].
      destruct (decide ("id" ∈ header t)); congruence.
Qed.

Lemma ingest_data_failures_witness :
  ingest_data (mkDataWrangler [] "out/data.csv" None, scenario_fs)
  = (Raise ValueError, (mkDataWrangler [] "out/data.csv" None, scenario_fs)) ∧
  ingest_data (missing_self, scenario_fs)
  = (Raise (FileNotFoundError "raw/c.zip"), (missing_self, scenario_fs)).
Proof.
  split.
  - by apply (proj1 (ingest_data_failures (mkDataWrangler [] "out/data.csv" None)
                       scenario_fs)).
  - apply (proj2 (ingest_data_failures missing_self scenario_fs)
             ["raw/a.zip"] "raw/c.zip" ["raw/b.zip"]).
    + reflexivity.
    + constructor; [|constructor]. rewrite read_raw_file_eq. by eexists.
    + by rewrite read_raw_file_eq.
Defined.

Lemma union_columns_from (acc : list string) (frames : list DataFrame) (c : string) :
  c ∈ foldl (λ acc df, acc ++ filter (λ c, c ∉ acc) (columns df)) acc frames ↔
  c ∈ acc ∨ ∃ frame, frame ∈ frames ∧ c ∈ columns frame.
Proof.
  revert acc. induction frames as [|frame frames IH]; intros acc; simpl.
  - split; [by left|]. intros [?|(frame & Hin & _)]; [done|].
    by apply elem_of_nil in Hin.
  - rewrite IH, elem_of_app, list_elem_of_filter. split.
    + intros [[?|[_ ?]]|(frame' & Hin & Hc)]; [by left| |].
      * right. exists frame. split; [by left|done].
      * right. exists frame'. split; [by right|done].
    + intros [?|(frame' & Hin & Hc)]; [by left; left|].
      apply elem_of_cons in Hin as [->|Hin].
      * left. destruct (decide (c ∈ acc)); [by left|by right].
      * right. by exists frame'.
Qed.

Lemma union_columns_elem (frames : list DataFrame) (c : string) :
  c ∈ pd.union_columns frames ↔ ∃ frame, frame ∈ frames ∧ c ∈ columns frame.
Proof.
  unfold pd.union_columns. rewrite union_columns_from. split; [|by right].
  intros [Hnil|?]; [|done]. by apply elem_of_nil in Hnil.
Qed.

Lemma reindex_row_lookup (cols : list string) (r : Row) (c : string) :
  c ∈ cols →
  cells (pd.reindex_row cols r) !! c = Some (default (VNum NaN) (cells r !! c)).
Proof.
  unfold pd.reindex_row. simpl. induction cols as [|c0 cols IH]; intros Hc.
  - by apply elem_of_nil in Hc.
  - simpl. destruct (decide (c0 = c)) as [->|Hne].
    + apply lookup_insert_eq.
    + rewrite lookup_insert_ne by done. apply IH.
      apply elem_of_cons in Hc as [?|?]; [congruence|done].
Qed.

(** X11.  [ingest_data] loses no record of archives without integers above
    2^53 in magnitude: when it returns, the columns of every archive other
    than [id] are columns of the frame, [id] is not, and every record of
    every archive has a row with its values under those columns (NaN where
    the archive has no value). *)
Theorem ingest_data_keeps_every_record (self : DataWrangler) (fs : FS) (d : DataFrame)
    (w' : DataWrangler * FS) (p : string) (t : Table) :
  ingest_data (self, fs) = (Ok d, w') →
  safe_archives fs (raw_data_path self) = true →
  p ∈ raw_data_path self → files fs !! p = Some (ZipCsv t) →
  ("id" ∉ columns d) ∧
  (∀ c, c ∈ header t → c ≠ "id" → c ∈ columns d) ∧
  ∀ m, m ∈ records t →
       ∃ r, r ∈ rows d ∧
            ∀ c, c ∈ columns d → cells r !! c = Some (default (VNum NaN) (m !! c)).
Proof.
  intros (_ & frames & merged & Hframes & Hcols & Hmerged & _ & Hne & Hnil & _)
           %ingest_data_deduplicated _ Hp Hfile.
  assert ("id" ∉ columns d) as Hid.
  { rewrite Hcols, union_columns_elem. intros (frame & Hin & Hc).
    apply list_elem_of_lookup in Hin as [i Hi].
    destruct (Forall2_lookup_r _ _ _ _ _ Hframes Hi) as (q & _ & Hq).
    rewrite read_raw_file_eq in Hq.
    destruct (files fs !! q) as [[t'| |]|]; [|done..].
    destruct (decide ("id" ∈ header t')); [|done]. injection Hq as <-.
    simpl in Hc. by apply list_elem_of_filter in Hc as [? _]. }
  apply list_elem_of_lookup in Hp as [i Hi].
  destruct (Forall2_lookup_l _ _ _ _ _ Hframes Hi) as (frame & Hframe & Hread).
  rewrite read_raw_file_eq, Hfile in Hread.
  destruct (decide ("id" ∈ header t)); [|done]. injection Hread as <-.
  apply list_elem_of_lookup_2 in Hframe.
  split; [done|]. split.
  { intros c Hc Hneq. rewrite Hcols. apply union_columns_elem.
    exists (set_index "id" t). split; [done|]. simpl. by apply list_elem_of_filter. }
  intros m Hm.
  set (x := mkRow (default (VNum NaN) (m !! "id")) (delete "id" m)).
  assert (pd.reindex_row (columns d) x ∈ merged) as Hx.
  { rewrite Hmerged. apply list_elem_of_join.
    exists (pd.reindex_row (columns d) <$> rows (set_index "id" t)). split.
    - apply list_elem_of_fmap. exists x. split; [done|]. simpl.
      apply list_elem_of_fmap. by exists m.
    - apply list_elem_of_fmap. by exists (set_index "id" t). }
  assert (∃ r, r ∈ rows d ∧ cells r = cells (pd.reindex_row (columns d) x))
    as (r & Hr & Hcells).
  { destruct (decide (columns d = [])) as [Hempty|Hsome].
    - exists (pd.reindex_row (columns d) x). by rewrite (Hnil Hempty).
    - destruct (Hne Hsome) as [-> _].
      destruct (keep_first_covers cells [] merged _ Hx) as [Hseen|Hkept].
      + by apply elem_of_nil in Hseen.
      + apply list_elem_of_fmap in Hkept as (r & Hkey & Hr). by exists r. }
  exists r. split; [done|]. intros c Hc.
  rewrite Hcells, reindex_row_lookup by done. simpl.
  rewrite lookup_delete_ne; [done|]. intros <-. done.
Qed.

Lemma ingest_data_keeps_every_record_witness :
  ("id" ∉ columns sample_ingested) ∧
  (∀ c, c ∈ ["id"; "l1"; "price"] → c ≠ "id" → c ∈ columns sample_ingested) ∧
  ∀ m, m ∈ [record 1 "Peru" 100 []; record 2 "Peru" 100 []; record 3 "Chile" 5 []] →
       ∃ r, r ∈ rows sample_ingested ∧
            ∀ c, c ∈ columns sample_ingested →
                 cells r !! c = Some (default (VNum NaN) (m !! c)).
Proof.
  apply (ingest_data_keeps_every_record sample_self sample_fs sample_ingested
           (sample_self, sample_fs) "raw/a.zip"
           (mkTable ["id"; "l1"; "price"]
              [record 1 "Peru" 100 []; record 2 "Peru" 100 []; record 3 "Chile" 5 []])).
  - by_compute.
  - by_compute.
  - by_compute.
  - reflexivity.
Defined.

(** ** The object and the files *)

Lemma new_with_file (raw : list string) (processed : string) (fs : FS) :
  os_path_exists fs processed = true →
  new raw processed fs = (Raise TypeError, (mkDataWrangler raw processed None, fs)).
Proof.
  intros Hex. unfold new, __post_init__, mbind, M_bind, get_self, get_fs. simpl.
  by rewrite Hex.
Qed.

Lemma wrangle_data_Ok `{OS} (conf : DataConf) (self self' : DataWrangler) (fs fs' : FS)
    (d : DataFrame) :
  wrangle_data conf (self, fs) = (Ok d, (self', fs')) →
  self' = mkDataWrangler (raw_data_path self) (processed_data_path self) (Some d) ∧
  files fs' = <[processed_data_path self :=
                 Csv (mkTable (columns d) (cells <$> rows d))]> (files fs).
Proof.
  unfold wrangle_data. intros Hrun.
  apply M_bind_Ok in Hrun as (raw & w1 & Hingest & Hrun).
  pose proof (ingest_data_world _ _ _ Hingest) as ->.
  apply M_bind_Ok in Hrun as (d1 & w2 & Hclean & Hrun).
  apply clean_data_Ok in Hclean as (_ & _ & _ & _ & _ & _ & _ & ->). simpl in Hrun.
  apply M_bind_Ok in Hrun as ([] & w3 & Hset & Hrun).
  unfold set_df in Hset. injection Hset as <-. simpl in Hrun.
  apply M_bind_Ok in Hrun as ([] & [self1 fs1] & Hsave & Hrun).
  injection Hrun as <- <- <-.
  apply (save_data_files _ _ _ _ d1) in Hsave as [-> Hfiles]; done.
Qed.

(** X12.  After a successful [wrangle_data], [load_data] with [use_exist]
    returns the frame of that run from the object: it reads and writes no
    file, and the object stays as it is. *)
Theorem load_data_after_wrangle_data `{OS} (conf : DataConf) (self self' : DataWrangler)
    (fs fs' : FS) (d : DataFrame) :
  wrangle_data conf (self, fs) = (Ok d, (self', fs')) →
  ∀ fs'', load_data conf true (self', fs'') = (Ok d, (self', fs'')).
Proof.
  intros [-> _]%wrangle_data_Ok fs''. reflexivity.
Qed.

Lemma load_data_after_wrangle_data_witness :
  load_data (H := sample_os) sample_conf true
    (mkDataWrangler ["raw/a.zip"; "raw/b.zip"] "out/data.csv" (Some scenario_cleaned),
     empty_fs)
  = (Ok scenario_cleaned,
     (mkDataWrangler ["raw/a.zip"; "raw/b.zip"] "out/data.csv" (Some scenario_cleaned),
      empty_fs)).
Proof.
  apply (load_data_after_wrangle_data (H := sample_os) sample_conf sample_self
           (mkDataWrangler ["raw/a.zip"; "raw/b.zip"] "out/data.csv"
              (Some scenario_cleaned))
           scenario_fs scenario_written scenario_cleaned).
  by_compute.
Defined.

(** X13.  The script runs once.  A run that succeeds started without the
    processed file and leaves it on disk; on those files the constructor
    of the next run raises [TypeError], whatever the raw paths are then,
    and nothing is read or written. *)
Theorem main_runs_once `{OS} (conf : DataConf) (raw : list string) (processed : string)
    (fs fs' : FS) (self' : DataWrangler) :
  main conf raw processed fs = (Ok (), (self', fs')) →
  os_path_exists fs processed = false ∧
  os_path_exists fs' processed = true ∧
  ∀ raw', main conf raw' processed fs'
          = (Raise TypeError, (mkDataWrangler raw' processed None, fs')).
Proof.
  unfold main. intros Hrun.
  destruct (os_path_exists fs processed) eqn:Hex.
  { by rewrite new_with_file in Hrun. }
  rewrite new_without_file in Hrun by done. split; [done|].
  apply M_bind_Ok in Hrun as (d & [self1 fs1] & Hload & Hrun).
  apply M_bind_Ok in Hrun as (self2 & w2 & Hself & Hrun).
  unfold get_self in Hself. injection Hself as <- <-. simpl in Hrun.
  unfold load_data in Hload. apply wrangle_data_Ok in Hload as [-> Hfiles].
  simpl in Hrun, Hfiles. injection Hrun as <- <-.
  assert (os_path_exists fs1 processed = true) as Hex'.
  { unfold os_path_exists. rewrite Hfiles, lookup_insert_eq.
    apply orb_true_iff. left. apply bool_decide_eq_true. by eexists. }
  split; [done|]. intros raw'. by rewrite new_with_file.
Qed.

Lemma main_runs_once_witness :
  os_path_exists scenario_fs "out/data.csv" = false ∧
  os_path_exists scenario_written "out/data.csv" = true ∧
  ∀ raw', main (H := sample_os) sample_conf raw' "out/data.csv" scenario_written
          = (Raise TypeError, (mkDataWrangler raw' "out/data.csv" None, scenario_written)).
Proof.
  apply (main_runs_once (H := sample_os) sample_conf ["raw/a.zip"; "raw/b.zip"]
           "out/data.csv" scenario_fs scenario_written
           (mkDataWrangler ["raw/a.zip"; "raw/b.zip"] "out/data.csv"
              (Some scenario_cleaned))).
  by_compute.
Defined.



(** X15.  What [clean_data] does to the object.  The files and the paths
    are never changed.  When it returns, the frame of the object is the
    frame returned; when it raises, the object keeps the frame it had.  A
    column of [keep_columns] that the raw frame does not have raises
    [KeyError] for the missing columns. *)
Theorem clean_data_effects (conf : DataConf) (raw : DataFrame)
    (self self' : DataWrangler) (fs fs' : FS) (r : Result DataFrame) :
  clean_data conf raw (self, fs) = (r, (self', fs')) →
  fs' = fs ∧
  raw_data_path self' = raw_data_path self ∧
  processed_data_path self' = processed_data_path self ∧
  match r with
  | Ok out => df self' = Some out
  | Raise e =>
      self' = self ∧
      (pd.missing_columns raw (keep_columns conf) = [] ∨
       ∃ ks, e = KeyError ks ∧
             ∀ c, c ∈ ks ↔ c ∈ keep_columns conf ∧ c ∉ columns raw)
  end.
Proof.
  intros Hrun. destruct r as [out|e].
  - by apply clean_data_Ok in Hrun as (_ & _ & _ & _ & _ & _ & _ & [= -> ->]).
  - pose proof (clean_data_Raise _ _ _ _ _ Hrun) as [= -> ->].
    split; [done|]. split; [done|]. split; [done|]. split; [done|].
    unfold clean_data, mbind, M_bind, lift, pd.getitem_list in Hrun.
    destruct (pd.missing_columns raw (keep_columns conf)) as [|k ks] eqn:Hmiss;
      [by left|].
    right. exists (k :: ks). split; [by injection Hrun as <-|].
    intros c. rewrite <- Hmiss. unfold pd.missing_columns.
    rewrite list_elem_of_filter. tauto.
Qed.

Lemma clean_data_effects_witness :
  empty_fs = empty_fs ∧
  raw_data_path sample_self = raw_data_path sample_self ∧
  processed_data_path sample_self = processed_data_path sample_self ∧
  sample_self = sample_self ∧
  (pd.missing_columns (mkDF ["l1"; "price"] []) (keep_columns sample_conf) = [] ∨
   ∃ ks, KeyError ["lat"; "lon"; "currency"] = KeyError ks ∧
         ∀ c, c ∈ ks ↔ c ∈ keep_columns sample_conf ∧
                       c ∉ columns (mkDF ["l1"; "price"] [])).
Proof.
  apply (clean_data_effects sample_conf (mkDF ["l1"; "price"] []) sample_self sample_self
           empty_fs empty_fs (Raise (KeyError ["lat"; "lon"; "currency"]))).
  by_compute.
Defined.

(** ** The cleaning as a whole *)

Lemma standardize_currency_cells (df normalized : DataFrame) (i : nat) (r' : Row) :
  standardize_currency df = Ok normalized →
  rows normalized !! i = Some r' →
  ∃ r, rows df !! i = Some r ∧
       ∀ c, c ∉ ["price"; "currency"; "price_usd"] → cells r' !! c = cells r !! c.
Proof.
  intros (l & _ & _ & Hrows)%standardize_currency_series Hi.
  rewrite Hrows, list_lookup_fmap in Hi.
  destruct (zip_with _ _ _ !! i) as [x|] eqn:Hx; [|done].
  injection Hi as <-. apply lookup_zip_with_Some in Hx as (r & v & -> & Hr & _).
  exists r. split; [done|]. intros c Hc. simpl.
  assert (c ≠ "price_usd") as Hpu by (intros ->; apply Hc; by do 2 right; left).
  assert (c ∉ ["price"; "currency"]) as Hpc.
  { intros Hin. apply Hc. apply elem_of_cons in Hin as [->|Hin]; [by left|].
    apply list_elem_of_singleton in Hin as ->. by right; left. }
  destruct (cells r !! c) as [v'|] eqn:Hv.
  - apply map_lookup_filter_Some_2; [by rewrite lookup_insert_ne|done].
  - apply map_lookup_filter_None. left. by rewrite lookup_insert_ne.
Qed.

Lemma standardize_currency_keys (subset : list string) (df normalized : DataFrame) :
  standardize_currency df = Ok normalized →
  (∀ c, c ∈ subset → c ∉ ["price"; "currency"; "price_usd"]) →
  pd.row_key subset <$> rows normalized = pd.row_key subset <$> rows df.
Proof.
  intros Hn Hsubset. apply list_eq. intros i. rewrite !list_lookup_fmap.
  destruct (rows normalized !! i) as [r'|] eqn:Hi.
  - destruct (standardize_currency_cells _ _ _ _ Hn Hi) as (r & -> & Hcells).
    simpl. f_equal. unfold pd.row_key, pd.cells_key.
    apply list_fmap_ext. intros j c Hc. apply Hcells, Hsubset.
    by eapply list_elem_of_lookup_2.
  - apply lookup_ge_None in Hi. rewrite (standardize_currency_length _ _ Hn) in Hi.
    apply lookup_ge_None in Hi. by rewrite Hi.
Qed.

(** X16.  What a frame returned by [clean_data] is made of.  No row is of
    an excluded country; no row has a missing value in a required column
    that is still there; every row has a number for its price in USD, and
    not NaN; and, when the key columns are not the price columns, no two
    rows have the same key. *)
Theorem clean_data_guarantees (conf : DataConf) (raw out : DataFrame)
    (w w' : DataWrangler * FS) :
  clean_data conf raw w = (Ok out, w') →
  (∀ r, r ∈ rows out →
        (default (VNum NaN) (cells r !! "l1") ∉ drop_rows_countries conf) ∧
        (∀ c, c ∈ drop_rows_nan conf → c ∉ ["price"; "currency"; "price_usd"] →
              isna (default (VNum NaN) (cells r !! c)) = false) ∧
        ∃ x, cells r !! "price_usd" = Some (VNum x) ∧ isna (VNum x) = false) ∧
  ((∀ c, c ∈ drop_rows_duplicates conf → c ∉ ["price"; "currency"; "price_usd"]) →
   NoDup (pd.row_key (drop_rows_duplicates conf) <$> rows out)).
Proof.
  intros (kept & filtered & normalized & _ & Hfiltered & Hn & Hout & _)%clean_data_Ok.
  apply drop_rows_clean in Hfiltered as (_ & Hclean & Hkeys & _).
  apply drop_outlier_prices_band in Hout
    as (s & lo & hi & _ & _ & _ & _ & Hrows & Hin & _).
  split.
  - intros r Hr. apply Hin in Hr as (Hr & Hge & _).
    apply list_elem_of_lookup in Hr as [i Hi].
    destruct (standardize_currency_cells _ _ _ _ Hn Hi) as (x & Hx & Hcells).
    apply list_elem_of_lookup_2 in Hx. destruct (Hclean x Hx) as [Hcountry Hna].
    split; [|split].
    + rewrite Hcells; [done|]. by_compute.
    + intros c Hc Hprice. rewrite Hcells by done. by apply Hna.
    + apply fle_true in Hge as (_ & q & _ & Hq & _). exists (Fin q).
      unfold price_usd_of in Hq.
      by destruct (cells r !! "price_usd") as [[| [|] |]|]; simplify_eq.
  - intros Hsubset. rewrite Hrows.
    eapply sublist_NoDup; [|apply fmap_sublist, sublist_filter].
    by rewrite (standardize_currency_keys _ _ _ Hn Hsubset).
Qed.

Lemma clean_data_guarantees_witness :
  (∀ r, r ∈ rows sample_cleaned →
        (default (VNum NaN) (cells r !! "l1") ∉ drop_rows_countries sample_conf) ∧
        (∀ c, c ∈ drop_rows_nan sample_conf → c ∉ ["price"; "currency"; "price_usd"] →
              isna (default (VNum NaN) (cells r !! c)) = false) ∧
        ∃ x, cells r !! "price_usd" = Some (VNum x) ∧ isna (VNum x) = false) ∧
  ((∀ c, c ∈ drop_rows_duplicates sample_conf →
         c ∉ ["price"; "currency"; "price_usd"]) →
   NoDup (pd.row_key (drop_rows_duplicates sample_conf) <$> rows sample_cleaned)).
Proof.
  apply (clean_data_guarantees sample_conf sample_frame sample_cleaned
           (sample_self, empty_fs)
           (mkDataWrangler ["raw/a.zip"; "raw/b.zip"] "out/data.csv"
              (Some sample_cleaned), empty_fs)).
  by_compute.
Defined.

(** ** The conversion and the order of amounts *)

Lemma currency_dict_rate (code : string) (rate : float) :
  currency_dict !! code = Some rate →
  ∃ r, rate = Fin r ∧ 0 < r ∧ (code = "USD" → r = 1).
Proof.
  intros Hrate%currency_dict_lookup.
  repeat (apply elem_of_cons in Hrate as [[= -> ->]|Hrate];
          [eexists; split; [reflexivity|]; split; [by_compute|by intros [=]]|]).
  by apply elem_of_nil in Hrate.
Qed.

(** X17.  Within one currency of the table, [_convert_to_usd] keeps the
    order and the sign of the amounts, and it leaves an amount in USD as it
    is. *)
Theorem convert_to_usd_keeps_order (a b : Qc) (code : string) :
  is_Some (currency_dict !! code) → a ≤ b →
  ∃ x y, _convert_to_usd (VNum (Fin a)) (VStr code) = Ok (Some (Fin x)) ∧
         _convert_to_usd (VNum (Fin b)) (VStr code) = Ok (Some (Fin y)) ∧
         x ≤ y ∧ (0 ≤ a → 0 ≤ x) ∧ (code = "USD" → x = a ∧ y = b).
Proof.
  intros [rate Hrate] Hab.
  destruct (currency_dict_rate _ _ Hrate) as (r & -> & Hr & Husd).
  exists (a * r), (b * r). unfold _convert_to_usd. rewrite Hrate. simpl.
  split; [done|]. split; [done|]. split; [|split].
  - apply Qcmult_le_compat_r; [done|]. by apply Qclt_le_weak.
  - intros Ha. rewrite <- (Qcmult_0_l r).
    apply Qcmult_le_compat_r; [done|]. by apply Qclt_le_weak.
  - intros Hcode. rewrite (Husd Hcode), !Qcmult_1_r. done.
Qed.

Lemma convert_to_usd_keeps_order_witness :
  ∃ x y, _convert_to_usd (VNum (Fin (Q2Qc 100))) (VStr "PEN") = Ok (Some (Fin x)) ∧
         _convert_to_usd (VNum (Fin (Q2Qc 300))) (VStr "PEN") = Ok (Some (Fin y)) ∧
         x ≤ y ∧ (0 ≤ Q2Qc 100 → 0 ≤ x) ∧
         ("PEN" = "USD" → x = Q2Qc 100 ∧ y = Q2Qc 300).
Proof.
  apply (convert_to_usd_keeps_order (Q2Qc 100) (Q2Qc 300) "PEN").
  - by eexists.
  - by_compute.
Defined.

(** ** The identifier *)

Lemma ingest_data_no_id (self : DataWrangler) (fs : FS) (d : DataFrame)
    (w' : DataWrangler * FS) :
  ingest_data (self, fs) = (Ok d, w') → "id" ∉ columns d.
Proof.
  intros (_ & frames & merged & Hframes & Hcols & _)%ingest_data_deduplicated.
  rewrite Hcols, union_columns_elem. intros (frame & Hin & Hc).
  apply list_elem_of_lookup in Hin as [i Hi].
  destruct (Forall2_lookup_r _ _ _ _ _ Hframes Hi) as (q & _ & Hq).
  rewrite read_raw_file_eq in Hq.
  destruct (files fs !! q) as [[t'| |]|]; [|done..].
  destruct (decide ("id" ∈ header t')); [|done]. injection Hq as <-.
  simpl in Hc. by apply list_elem_of_filter in Hc as [? _].
Qed.

(** X18.  The identifier cannot be kept.  [ingest_data] reads [id] as the
    index, so it is no column of the raw frame; a configuration with [id]
    among [keep_columns] makes [clean_data] on that frame, and with it
    [wrangle_data], raise a [KeyError] that names [id], and nothing is
    written. *)
Theorem wrangle_data_cannot_keep_id `{OS} (conf : DataConf) (self : DataWrangler)
    (fs : FS) (raw : DataFrame) (w : DataWrangler * FS) :
  ingest_data (self, fs) = (Ok raw, w) →
  "id" ∈ keep_columns conf →
  ∃ ks, "id" ∈ ks ∧
        clean_data conf raw (self, fs) = (Raise (KeyError ks), (self, fs)) ∧
        wrangle_data conf (self, fs) = (Raise (KeyError ks), (self, fs)).
Proof.
  intros Hingest Hid.
  pose proof (ingest_data_no_id _ _ _ _ Hingest) as Hno.
  pose proof (ingest_data_world _ _ _ Hingest) as ->.
  assert ("id" ∈ pd.missing_columns raw (keep_columns conf)) as Hmiss
    by (by apply list_elem_of_filter).
  assert (clean_data conf raw (self, fs)
          = (Raise (KeyError (pd.missing_columns raw (keep_columns conf))), (self, fs)))
    as Hclean.
  { unfold clean_data, mbind, M_bind, lift, pd.getitem_list.
    destruct (pd.missing_columns raw (keep_columns conf)); [|done].
    by apply elem_of_nil in Hmiss. }
  exists (pd.missing_columns raw (keep_columns conf)).
  split; [done|]. split; [done|].
  unfold wrangle_data, mbind at 1, M_bind at 1. rewrite Hingest.
  unfold mbind, M_bind. by rewrite Hclean.
Qed.

Lemma wrangle_data_cannot_keep_id_witness :
  ∃ ks, "id" ∈ ks ∧
        clean_data id_conf sample_ingested (sample_self, sample_fs)
        = (Raise (KeyError ks), (sample_self, sample_fs)) ∧
        wrangle_data (H := sample_os) id_conf (sample_self, sample_fs)
        = (Raise (KeyError ks), (sample_self, sample_fs)).
Proof.
  apply (wrangle_data_cannot_keep_id (H := sample_os) id_conf sample_self sample_fs
           sample_ingested (sample_self, sample_fs)).
  - by_compute.
  - by_compute.
Defined.

(** * The outlier band, on the values that the percentiles take *)

Lemma price_column (df : DataFrame) :
  (∀ r, r ∈ rows df → ∃ x, cells r !! "price_usd" = Some (VNum x)) →
  (λ r, default (VNum NaN) (cells r !! "price_usd")) <$> rows df
  = VNum <$> (price_usd_of <$> rows df).
Proof.
  intros Hnum. rewrite <-list_fmap_compose. apply list_fmap_ext.
  intros i r Hr%list_elem_of_lookup_2. destruct (Hnum r Hr) as [x Hx].
  unfold price_usd_of. simpl. by rewrite Hx.
Qed.

(** What the percentile of a sample of finite numbers is: a finite number
    between two elements of the sample, within one rank of its rank in the
    sorted sample, the least element at 0 and the greatest at 100. *)
Lemma percentile_bracket (qs : list Qc) (q : Qc) (v : float) :
  0 ≤ q → q ≤ Qc_of_Z 100 → qs ≠ [] →
  np.percentile (VNum <$> (Fin <$> qs)) q = Ok v →
  ∃ l, v = Fin l ∧
       (∃ a b, a ∈ qs ∧ b ∈ qs ∧ a ≤ l ∧ l ≤ b) ∧
       (∀ a b, merge_sort Qcle qs !! (rank (length qs) q - 1)%nat = Some a →
               merge_sort Qcle qs !! Nat.min (rank (length qs) q + 2) (length qs - 1)
               = Some b →
               a ≤ l ∧ l ≤ b) ∧
       (q = 0 → ∀ x, x ∈ qs → l ≤ x) ∧
       (q = Qc_of_Z 100 → ∀ x, x ∈ qs → x ≤ l).
Proof.
  intros H0 H100 Hne Hv.
  pose proof Hv as Hv'. rewrite percentile_finite in Hv' by done.
  injection Hv' as <-. eexists. split; [done|].
  destruct (rank_bounds (length qs - 1) q q) as (Hr0 & _ & Hrn);
    [done|apply Qcle_refl|done|].
  destruct (lerp_between (merge_sort Qcle qs)
              (Qc_of_Z (Z.of_nat (length qs - 1)) * (q / Qc_of_Z 100)))
    as (a' & b' & Ha' & Hb' & _ & _ & Hal & Hlb).
  { apply merge_sort_sorted. }
  { intros Hnil. apply (f_equal length) in Hnil.
    rewrite length_merge_sort in Hnil. by destruct qs. }
  { done. }
  { by rewrite length_merge_sort. }
  rewrite length_merge_sort in Hb'.
  assert (∃ i, i = rank (length qs) q ∧
               merge_sort Qcle qs !! i = Some a' ∧
               merge_sort Qcle qs !! Nat.min (i + 1) (length qs - 1) = Some b')
    as (i & Hi & Hai & Hbi).
  { exists (rank (length qs) q). split; [done|]. split; [exact Ha'|exact Hb']. }
  rewrite <-Hi. clear Ha' Hb'.
  assert (length qs ≠ 0%nat) as Hlen by (by destruct qs).
  destruct (lookup_lt_is_Some_2 (merge_sort Qcle qs) 0) as [qmin Hmin];
    [rewrite length_merge_sort; lia|].
  destruct (lookup_lt_is_Some_2 (merge_sort Qcle qs) (length qs - 1)) as [qmax Hmax];
    [rewrite length_merge_sort; lia|].
  split; [|split; [|split]].
  - exists a', b'. apply list_elem_of_lookup_2 in Hai, Hbi.
    rewrite merge_sort_Permutation in Hai, Hbi. done.
  - intros a b Ha Hb. split.
    + eapply Qcle_trans; [|exact Hal].
      eapply (sorted_lookup_le _ _ _ _ _ (merge_sort_sorted qs)); [|exact Ha|exact Hai].
      lia.
    + eapply Qcle_trans; [exact Hlb|].
      eapply (sorted_lookup_le _ _ _ _ _ (merge_sort_sorted qs)); [|exact Hbi|exact Hb].
      lia.
  - intros -> x Hx. rewrite (percentile_0 _ _ Hmin) in Hv. injection Hv as Heq.
    rewrite <-Heq. by apply (sorted_bounds qs qmin qmax x Hmin Hmax).
  - intros -> x Hx. rewrite (percentile_100 _ _ Hmax) in Hv. injection Hv as Heq.
    rewrite <-Heq. by apply (sorted_bounds qs qmin qmax x Hmin Hmax).
Qed.

(** C4, as amended.  On a frame with rows and a numeric [price_usd], for
    percentiles between 0 and 100, lines 140-143 return, and the rows they
    return are exactly the rows whose [price_usd] is at least the lower and
    at most the upper percentile of the column, in their order.  A row
    whose price equals a percentile passes the comparison with it, and is
    returned when it passes the other comparison too: always when the lower
    value is not above the upper one.  The two values: NaN as soon as a
    price is NaN, and then no row is returned; on finite prices of moderate
    size, finite numbers between two prices of the column, within one rank
    of the rank of the percentile in the sorted prices, not above any price
    at 0 and not below any price at 100. *)
Theorem outlier_band_is_inclusive (conf : DataConf) (df : DataFrame) :
  "price_usd" ∈ columns df → rows df ≠ [] →
  (∀ r, r ∈ rows df → ∃ x, cells r !! "price_usd" = Some (VNum x)) →
  0 ≤ outliers_percentile_price_lower conf →
  outliers_percentile_price_lower conf ≤ Qc_of_Z 100 →
  0 ≤ outliers_percentile_price_upper conf →
  outliers_percentile_price_upper conf ≤ Qc_of_Z 100 →
  ∃ df' s lo hi,
    drop_outlier_prices conf df = Ok df' ∧
    pd.getitem df "price_usd" = Ok s ∧
    np.percentile s (outliers_percentile_price_lower conf) = Ok lo ∧
    np.percentile s (outliers_percentile_price_upper conf) = Ok hi ∧
    columns df' = columns df ∧
    rows df' = filter (λ r, fge (price_usd_of r) lo = true ∧
                            fle (price_usd_of r) hi = true) (rows df) ∧
    (∀ r, r ∈ rows df' ↔
          r ∈ rows df ∧ fge (price_usd_of r) lo = true ∧ fle (price_usd_of r) hi = true) ∧
    (∀ r, r ∈ rows df → feqb (price_usd_of r) lo = true →
          fge (price_usd_of r) lo = true ∧
          (fle (price_usd_of r) hi = true → r ∈ rows df')) ∧
    (∀ r, r ∈ rows df → feqb (price_usd_of r) hi = true →
          fle (price_usd_of r) hi = true ∧
          (fge (price_usd_of r) lo = true → r ∈ rows df')) ∧
    (fle lo hi = true →
     ∀ r, r ∈ rows df →
          feqb (price_usd_of r) lo = true ∨ feqb (price_usd_of r) hi = true →
          r ∈ rows df') ∧
    ((∃ r, r ∈ rows df ∧ price_usd_of r = NaN) →
     lo = NaN ∧ hi = NaN ∧ rows df' = []) ∧
    (∀ qs, price_usd_of <$> rows df = Fin <$> qs →
           (∀ x, x ∈ qs → moderate (Fin x)) →
           ∀ q v, (q = outliers_percentile_price_lower conf ∧ v = lo) ∨
                  (q = outliers_percentile_price_upper conf ∧ v = hi) →
           ∃ l, v = Fin l ∧
                (∃ a b, a ∈ qs ∧ b ∈ qs ∧ a ≤ l ∧ l ≤ b) ∧
                (∀ a b,
                   merge_sort Qcle qs !! (rank (length qs) q - 1)%nat = Some a →
                   merge_sort Qcle qs !! Nat.min (rank (length qs) q + 2) (length qs - 1)
                   = Some b →
                   a ≤ l ∧ l ≤ b) ∧
                (q = 0 → ∀ x, x ∈ qs → l ≤ x) ∧
                (q = Qc_of_Z 100 → ∀ x, x ∈ qs → x ≤ l)).
Proof.
  intros Hcol Hrows Hnum Hl0 Hl100 Hu0 Hu100.
  destruct (drop_outlier_prices_returns conf df) as [df' Hdf']; try done.
  destruct (drop_outlier_prices_band conf df df' Hdf')
    as (s & lo & hi & Hs & Hlo & Hhi & Hcols & Hfilter & Hin & Hatlo & Hathi & _).
  exists df', s, lo, hi. do 9 (split; [done|]).
  rewrite (getitem_in df "price_usd" Hcol), (price_column df Hnum) in Hs.
  injection Hs as <-. split; [|split].
  - intros Hlohi r Hr Heq. apply Hin. split; [done|].
    destruct Heq as [(x & -> & ->)%feqb_true|(x & -> & ->)%feqb_true]; unfold fge.
    + by rewrite fle_refl.
    + by rewrite fle_refl.
  - intros (r & Hr & Hnan).
    assert (VNum NaN ∈ VNum <$> (price_usd_of <$> rows df)) as Hmem.
    { apply list_elem_of_fmap. exists NaN. split; [done|].
      apply list_elem_of_fmap. by exists r. }
    pose proof (percentile_of_nan _ _ _ Hlo Hmem) as ->.
    pose proof (percentile_of_nan _ _ _ Hhi Hmem) as ->.
    split; [done|]. split; [done|]. rewrite Hfilter.
    apply filter_none. intros x _ [Hge _]. unfold fge, fle in Hge.
    by destruct (price_usd_of x).
  - intros qs Hqs _ q v Hqv.
    assert (qs ≠ []) as Hne.
    { intros ->. apply fmap_nil_inv in Hqs. done. }
    rewrite Hqs in Hlo, Hhi.
    destruct Hqv as [[-> ->]|[-> ->]]; by apply percentile_bracket.
Qed.

Lemma outlier_band_is_inclusive_witness :
  ∃ df' s lo hi,
    drop_outlier_prices median_conf sample_normalized = Ok df' ∧
    pd.getitem sample_normalized "price_usd" = Ok s ∧
    np.percentile s (outliers_percentile_price_lower median_conf) = Ok lo ∧
    np.percentile s (outliers_percentile_price_upper median_conf) = Ok hi ∧
    columns df' = columns sample_normalized ∧
    rows df' = filter (λ r, fge (price_usd_of r) lo = true ∧
                            fle (price_usd_of r) hi = true) (rows sample_normalized) ∧
    (∀ r, r ∈ rows df' ↔
          r ∈ rows sample_normalized ∧
          fge (price_usd_of r) lo = true ∧ fle (price_usd_of r) hi = true) ∧
    (∀ r, r ∈ rows sample_normalized → feqb (price_usd_of r) lo = true →
          fge (price_usd_of r) lo = true ∧
          (fle (price_usd_of r) hi = true → r ∈ rows df')) ∧
    (∀ r, r ∈ rows sample_normalized → feqb (price_usd_of r) hi = true →
          fle (price_usd_of r) hi = true ∧
          (fge (price_usd_of r) lo = true → r ∈ rows df')) ∧
    (fle lo hi = true →
     ∀ r, r ∈ rows sample_normalized →
          feqb (price_usd_of r) lo = true ∨ feqb (price_usd_of r) hi = true →
          r ∈ rows df') ∧
    ((∃ r, r ∈ rows sample_normalized ∧ price_usd_of r = NaN) →
     lo = NaN ∧ hi = NaN ∧ rows df' = []) ∧
    (∀ qs, price_usd_of <$> rows sample_normalized = Fin <$> qs →
           (∀ x, x ∈ qs → moderate (Fin x)) →
           ∀ q v, (q = outliers_percentile_price_lower median_conf ∧ v = lo) ∨
                  (q = outliers_percentile_price_upper median_conf ∧ v = hi) →
           ∃ l, v = Fin l ∧
                (∃ a b, a ∈ qs ∧ b ∈ qs ∧ a ≤ l ∧ l ≤ b) ∧
                (∀ a b,
                   merge_sort Qcle qs !! (rank (length qs) q - 1)%nat = Some a →
                   merge_sort Qcle qs !! Nat.min (rank (length qs) q + 2) (length qs - 1)
                   = Some b →
                   a ≤ l ∧ l ≤ b) ∧
                (q = 0 → ∀ x, x ∈ qs → l ≤ x) ∧
                (q = Qc_of_Z 100 → ∀ x, x ∈ qs → x ≤ l)).
Proof.
  apply (outlier_band_is_inclusive median_conf sample_normalized).
  - by_compute.
  - discriminate.
  - intros r Hr. simpl in Hr.
    repeat (apply elem_of_cons in Hr as [->|Hr]; [eexists; reflexivity|]).
    by apply elem_of_nil in Hr.
  - by_compute.
  - by_compute.
  - by_compute.
  - by_compute.
Defined.

(** C4 as stated fails in two ways.  With an infinite price: on the prices
    1 and infinity with the percentiles 10 and 60, the lower value is
    infinity and the upper value is NaN in binary64, and the row whose
    price is infinity, the lower value itself, is not kept.  With the lower
    percentile above the upper one: with the percentiles 100 and 0 on the
    prices 1, 2, 3 the lower value is 3 and the upper value is 1; the row
    whose price is 3, the lower value itself, is not returned, and neither
    is any other row. *)
Lemma outlier_band_drops_boundary_row :
  binary64.percentile binary64.one_and_infinity binary64.percent_10
  = Ok PrimFloat.infinity ∧
  binary64.percentile binary64.one_and_infinity binary64.percent_60
  = Ok PrimFloat.nan ∧
  binary64.one_and_infinity !! 1%nat = Some PrimFloat.infinity ∧
  PrimFloat.eqb PrimFloat.infinity PrimFloat.infinity = true ∧
  binary64.price_mask binary64.one_and_infinity binary64.percent_10 binary64.percent_60
  = Ok [false; false] ∧
  outliers_percentile_price_lower reversed_conf = Qc_of_Z 100 ∧
  outliers_percentile_price_upper reversed_conf = 0 ∧
  pd.getitem three_prices "price_usd" = Ok [num 1; num 2; num 3] ∧
  np.percentile [num 1; num 2; num 3] (Qc_of_Z 100) = Ok (Fin (Q2Qc 3)) ∧
  np.percentile [num 1; num 2; num 3] 0 = Ok (Fin (Q2Qc 1)) ∧
  rows three_prices !! 2%nat = Some (priced (num 2) "Peru" (num 3) (num 3) (num 3)) ∧
  price_usd_of (priced (num 2) "Peru" (num 3) (num 3) (num 3)) = Fin (Q2Qc 3) ∧
  drop_outlier_prices reversed_conf three_prices = Ok (mkDF priced_columns []).
Proof.
  do 5 (split; [vm_compute; reflexivity|]). repeat split; by_compute.
Qed.

(** The rank in binary64: on the prices 0, 1, ..., 25 the rank of the
    percentile 28 is 25 * 0.28, which is 7.000000000000001 and not 7; the
    value of the percentile is just above 7, between the prices of the
    ranks 7 and 8, and the row whose price is 7 is not kept. *)
Example percentile_rounded_rank :
  binary64.percentile binary64.zero_to_25 binary64.percent_28
  = Ok binary64.just_above_7 ∧
  binary64.price_mask binary64.zero_to_25 binary64.percent_28 binary64.percent_100
  = Ok (replicate 8 false ++ replicate 18 true) ∧
  np.percentile ((λ n, VNum (Fin (Qc_of_Z (Z.of_nat n)))) <$> seq 0 26) (Qc_of_Z 28)
  = Ok (Fin (Qc_of_Z 7)) ∧
  rank 26 (Qc_of_Z 28) = 7%nat.
Proof.
  do 2 (split; [vm_compute; reflexivity|]). split; by_compute.
Qed.

(** C6.  The band from 0 to 100 is not the identity on a frame with a
    missing price.  On a numeric column [price_usd] that holds a NaN, the
    price that lines 134-135 give a listing whose currency is not in the
    table, both percentiles are NaN, no price compares with them, and
    lines 140-143 return the frame without its rows. *)
Theorem full_band_drops_frame_with_missing_price (conf : DataConf) (df : DataFrame) :
  outliers_percentile_price_lower conf = 0 →
  outliers_percentile_price_upper conf = Qc_of_Z 100 →
  "price_usd" ∈ columns df →
  (∀ r, r ∈ rows df → ∃ x, cells r !! "price_usd" = Some (VNum x)) →
  (∃ r, r ∈ rows df ∧ cells r !! "price_usd" = Some (VNum NaN)) →
  rows df ≠ [] ∧ drop_outlier_prices conf df = Ok (mkDF (columns df) []).
Proof.
  intros Hlower Hupper Hcol Hnum (r & Hr & Hnan).
  assert (rows df ≠ []) as Hrows by (intros Hnil; rewrite Hnil in Hr; by apply elem_of_nil in Hr).
  split; [done|].
  destruct (drop_outlier_prices_returns conf df) as [df' Hdf']; try done.
  { rewrite Hlower. apply Qcle_refl. }
  { rewrite Hlower. by_compute. }
  { rewrite Hupper. by_compute. }
  { rewrite Hupper. apply Qcle_refl. }
  rewrite Hdf'. f_equal.
  destruct (drop_outlier_prices_band conf df df' Hdf')
    as (s & lo & hi & Hs & Hlo & _ & Hcols & Hfilter & _).
  rewrite (getitem_in df "price_usd" Hcol), (price_column df Hnum) in Hs.
  injection Hs as <-.
  assert (lo = NaN) as ->.
  { eapply percentile_of_nan; [exact Hlo|].
    apply list_elem_of_fmap. exists NaN. split; [done|].
    apply list_elem_of_fmap. exists r. split; [|done].
    unfold price_usd_of. by rewrite Hnan. }
  destruct df' as [cols' rows']. simpl in *. subst cols'. f_equal.
  rewrite Hfilter. apply filter_none. intros x _ [Hge _].
  unfold fge, fle in Hge. by destruct (price_usd_of x).
Qed.

Lemma full_band_drops_frame_with_missing_price_witness :
  rows unknown_normalized ≠ [] ∧
  drop_outlier_prices sample_conf unknown_normalized
  = Ok (mkDF (columns unknown_normalized) []).
Proof.
  apply (full_band_drops_frame_with_missing_price sample_conf unknown_normalized).
  - reflexivity.
  - reflexivity.
  - by_compute.
  - intros r Hr. simpl in Hr.
    repeat (apply elem_of_cons in Hr as [->|Hr]; [eexists; reflexivity|]).
    by apply elem_of_nil in Hr.
  - exists (priced (num 32) "Peru" (num 2) (num 2) (VNum NaN)).
    split; [by_compute|reflexivity].
Defined.

(** * The merge of the archives, on the values of the files *)

(** C7, as amended.  When there are files, every file can be read and no
    file holds an integer above 2^53 in magnitude, [ingest_data] returns a
    frame and leaves the files as they are.  The frame has the union of the
    columns of the files; its rows are rows of the files, with their labels
    and their values under these columns (NaN where a file has no value),
    in the order of the list of files and of each file.  When it has a
    column, they are the first occurrences of the rows with the same cells:
    no two of them are equal, and every row of every file has its cells in
    one of them; when it has none, they are all the rows.  Dropping the
    duplicates again returns the same frame. *)
Theorem ingest_data_first_occurrences (self : DataWrangler) (fs : FS)
    (frames : list DataFrame) :
  raw_data_path self ≠ [] →
  Forall2 (λ file_path frame, read_raw_file fs file_path = Ok frame)
    (raw_data_path self) frames →
  safe_archives fs (raw_data_path self) = true →
  ∃ d merged,
    ingest_data (self, fs) = (Ok d, (self, fs)) ∧
    columns d = pd.union_columns frames ∧
    merged = mjoin ((λ frame, pd.reindex_row (columns d) <$> rows frame) <$> frames) ∧
    rows d `sublist_of` merged ∧
    (columns d ≠ [] → rows d = pd.keep_first cells [] merged ∧ NoDup (records_of d)) ∧
    (columns d = [] → rows d = merged) ∧
    pd.drop_duplicates None false d = Ok d ∧
    (∀ c, c ∈ columns d ↔ ∃ frame, frame ∈ frames ∧ c ∈ columns frame) ∧
    (∀ r, r ∈ rows d →
          ∃ frame x, frame ∈ frames ∧ x ∈ rows frame ∧ label r = label x ∧
                     ∀ c, c ∈ columns d →
                          cells r !! c = Some (default (VNum NaN) (cells x !! c))) ∧
    (∀ frame x, frame ∈ frames → x ∈ rows frame →
          ∃ r, r ∈ rows d ∧
               ∀ c, c ∈ columns d →
                    cells r !! c = Some (default (VNum NaN) (cells x !! c))).
Proof.
  intros Hne Hframes%mapM_Ok _.
  destruct (ingest_data_returns self fs frames Hne Hframes) as [d Hd].
  destruct (ingest_data_deduplicated self fs d _ Hd)
    as (_ & frames' & merged & Hframes'%mapM_Ok & Hcols & Hmerged & Hsub & Hsome
        & Hnone & Hagain).
  rewrite Hframes in Hframes'. injection Hframes' as <-.
  exists d, merged. do 7 (split; [done|]). split; [|split].
  - intros c. rewrite Hcols. apply union_columns_elem.
  - intros r Hr. pose proof (elem_of_sublist _ _ _ Hr Hsub) as Hin.
    rewrite Hmerged in Hin. apply list_elem_of_join in Hin as (l & Hin & Hl).
    apply list_elem_of_fmap in Hl as (frame & -> & Hframe).
    apply list_elem_of_fmap in Hin as (x & -> & Hx).
    exists frame, x. do 3 (split; [done|]). intros c Hc.
    by apply reindex_row_lookup.
  - intros frame x Hframe Hx.
    assert (pd.reindex_row (columns d) x ∈ merged) as Hin.
    { rewrite Hmerged. apply list_elem_of_join.
      exists (pd.reindex_row (columns d) <$> rows frame). split.
      - apply list_elem_of_fmap. by exists x.
      - apply list_elem_of_fmap. by exists frame. }
    assert (∃ r, r ∈ rows d ∧ cells r = cells (pd.reindex_row (columns d) x))
      as (r & Hr & Hcells).
    { destruct (decide (columns d = [])) as [Hempty|Hfull].
      - exists (pd.reindex_row (columns d) x). by rewrite (Hnone Hempty).
      - destruct (Hsome Hfull) as [-> _].
        destruct (keep_first_covers cells [] merged _ Hin) as [Hseen|Hkept].
        + by apply elem_of_nil in Hseen.
        + apply list_elem_of_fmap in Hkept as (r & Hkey & Hr). by exists r. }
    exists r. split; [done|]. intros c Hc.
    rewrite Hcells. by apply reindex_row_lookup.
Qed.

Lemma ingest_data_first_occurrences_witness :
  ∃ d merged,
    ingest_data (sample_self, sample_fs) = (Ok d, (sample_self, sample_fs)) ∧
    columns d = pd.union_columns sample_frames ∧
    merged = mjoin ((λ frame, pd.reindex_row (columns d) <$> rows frame)
                      <$> sample_frames) ∧
    rows d `sublist_of` merged ∧
    (columns d ≠ [] → rows d = pd.keep_first cells [] merged ∧ NoDup (records_of d)) ∧
    (columns d = [] → rows d = merged) ∧
    pd.drop_duplicates None false d = Ok d ∧
    (∀ c, c ∈ columns d ↔ ∃ frame, frame ∈ sample_frames ∧ c ∈ columns frame) ∧
    (∀ r, r ∈ rows d →
          ∃ frame x, frame ∈ sample_frames ∧ x ∈ rows frame ∧ label r = label x ∧
                     ∀ c, c ∈ columns d →
                          cells r !! c = Some (default (VNum NaN) (cells x !! c))) ∧
    (∀ frame x, frame ∈ sample_frames → x ∈ rows frame →
          ∃ r, r ∈ rows d ∧
               ∀ c, c ∈ columns d →
                    cells r !! c = Some (default (VNum NaN) (cells x !! c))).
Proof.
  apply (ingest_data_first_occurrences sample_self sample_fs sample_frames).
  - discriminate.
  - repeat constructor; by_compute.
  - by_compute.
Defined.
